(** * Aerie tweet collector: the classification pipeline

    A shallow embedding of [collector/database.py] (the record store) and
    [collector/classifier.py] (prompt formatter, response parser and
    classification loop), with the properties of the pipeline stated and
    proved over it.

    Conventions of the embedding:
    - a Python [str] is the list of its code points ([pystr]);
    - a value decoded from JSON is a [pyval];
    - a Python exception is a constructor of [exn]; a computation that can
      raise returns a [result];
    - the SQLite table [tweets] is the list of its rows in insertion order;
    - the model call and the clock are functions supplied by the caller. *)

From Stdlib Require Import List ZArith NArith Ascii String Bool Lia.
From Stdlib Require DecimalString.
From Stdlib Require Permutation Sorted.
Import ListNotations.

(* ================================================================== *)
(** * Python strings *)
(* ================================================================== *)

Module PyStr.

(** A [str] is a sequence of Unicode code points. *)
Definition pystr : Type := list N.

(** The code point of an ASCII character, and the [str] of a literal
    written in ASCII. *)
Definition ch (a : ascii) : N := N_of_ascii a.

Fixpoint str (s : string) : pystr :=
  match s with
  | EmptyString => []
  | String a s' => ch a :: str s'
  end.

Fixpoint eqb (a b : pystr) : bool :=
  match a, b with
  | [], [] => true
  | x :: a', y :: b' => N.eqb x y && eqb a' b'
  | _, _ => false
  end.

(** [a.startswith(p)], as a function of the prefix first. *)
Fixpoint startswith (p a : pystr) : bool :=
  match p, a with
  | [], _ => true
  | x :: p', y :: a' => N.eqb x y && startswith p' a'
  | _ :: _, [] => false
  end.

(** [needle in hay] *)
Fixpoint contains (needle hay : pystr) : bool :=
  startswith needle hay ||
  match hay with
  | [] => false
  | _ :: hay' => contains needle hay'
  end.

(** [str.lower()].  Only the letters A-Z are mapped here.  The classifier
    uses the lower-cased text for nothing but the tests ["approved" in],
    ["true" in] and ["false" in]; the only code points outside ASCII whose
    lower case contains an ASCII letter are U+0130 (i) and U+212A (k), and
    neither letter occurs in those keywords, so the tests have the same
    outcome as with the full Unicode mapping. *)
Definition lower_char (c : N) : N :=
  if (65 <=? c)%N && (c <=? 90)%N then (c + 32)%N else c.

Definition lower (s : pystr) : pystr := map lower_char s.

(** [str.isspace()] for one character: the code points Python treats as
    white space. *)
Definition isspace (c : N) : bool :=
  ((9 <=? c) && (c <=? 13) || (28 <=? c) && (c <=? 32)
   || (c =? 133) || (c =? 160) || (c =? 5760)
   || (8192 <=? c) && (c <=? 8202)
   || (c =? 8232) || (c =? 8233) || (c =? 8239) || (c =? 8287)
   || (c =? 12288))%N.

Fixpoint lstrip (s : pystr) : pystr :=
  match s with
  | c :: s' => if isspace c then lstrip s' else s
  | [] => []
  end.

Definition rstrip (s : pystr) : pystr := rev (lstrip (rev s)).

(** [s.strip()] *)
Definition strip (s : pystr) : pystr := rstrip (lstrip s).

(** [s[:n]] for [n >= 0] *)
Definition slice_to (n : nat) (s : pystr) : pystr := firstn n s.

(** Code-point order, the order of SQLite's BINARY collation on UTF-8
    text. *)
Fixpoint compare (a b : pystr) : comparison :=
  match a, b with
  | [], [] => Eq
  | [], _ :: _ => Lt
  | _ :: _, [] => Gt
  | x :: a', y :: b' =>
      match N.compare x y with
      | Eq => compare a' b'
      | c => c
      end
  end.

(** [sep.join(parts)] *)
Fixpoint join (sep : pystr) (parts : list pystr) : pystr :=
  match parts with
  | [] => []
  | [p] => p
  | p :: rest => p ++ sep ++ join sep rest
  end.

(** [str(n)] for an [int] *)
Definition of_Z (z : Z) : pystr := str (DecimalString.NilZero.string_of_int (Z.to_int z)).

End PyStr.

Abbreviation pystr := PyStr.pystr.
Abbreviation str := PyStr.str.

(* ================================================================== *)
(** * Exceptions and Python values *)
(* ================================================================== *)

(** The exceptions the two modules can meet.  [BindError] is the error
    [sqlite3] raises for a parameter of an unsupported type. *)
Inductive exn : Type :=
| KeyError (key : pystr)
| AttributeError
| JSONDecodeError
| ZeroDivisionError
| OverflowError
| UnicodeEncodeError
| BindError.

(** A computation that returns or raises. *)
Inductive result (A : Type) : Type :=
| Ok (a : A)
| Raise (e : exn).
Arguments Ok {A} a.
Arguments Raise {A} e.

Definition bind_result {A B : Type} (r : result A) (k : A -> result B)
  : result B :=
  match r with
  | Ok a => k a
  | Raise e => Raise e
  end.

Declare Scope result_scope.
Delimit Scope result_scope with result.
Notation "x <- r ;; k" := (bind_result r (fun x => k))
  (at level 100, r at next level, right associativity) : result_scope.
Notation "' p <- r ;; k" := (bind_result r (fun x => let p := x in k))
  (at level 100, p pattern, r at next level, right associativity)
  : result_scope.

(** A Python [float] read from a decimal literal is kept as the exact
    decimal it was written as: [(-1)^neg * mant * 10^exp10]. *)
Inductive pyfloat : Type :=
| FDec (neg : bool) (mant : N) (exp10 : Z)
| FInf (neg : bool)
| FNaN.

(** The values [json.loads] produces. *)
#[warnings="-register-all"]
Inductive pyval : Type :=
| PNone
| PBool (b : bool)
| PInt (z : Z)
| PFloat (f : pyfloat)
| PStr (s : pystr)
| PList (items : list pyval)
| PDict (entries : list (pystr * pyval)).

Module Py.

(** A decimal rounds to the float 0.0 exactly when it is at most half the
    smallest subnormal, 2^-1075 (ties go to the even neighbour, which is
    0.0). *)
Definition float_is_zero (f : pyfloat) : bool :=
  match f with
  | FDec _ mant e =>
      (mant =? 0)%N ||
      ((e <? 0)%Z && (Z.of_N mant * 2 ^ 1075 <=? 10 ^ (- e))%Z)
  | FInf _ | FNaN => false
  end.

(** [bool(v)]: the test of [if v] and [1 if v else 0]. *)
Definition truthy (v : pyval) : bool :=
  match v with
  | PNone => false
  | PBool b => b
  | PInt z => negb (z =? 0)%Z
  | PFloat f => negb (float_is_zero f)
  | PStr s => match s with [] => false | _ => true end
  | PList l => match l with [] => false | _ => true end
  | PDict d => match d with [] => false | _ => true end
  end.

(** Dictionaries keep their keys in insertion order; a key is bound once. *)
Fixpoint dict_lookup {V : Type} (k : pystr) (d : list (pystr * V)) : option V :=
  match d with
  | [] => None
  | (k', v) :: d' => if PyStr.eqb k k' then Some v else dict_lookup k d'
  end.

(** [d[k] = v] *)
Fixpoint dict_set {V : Type} (k : pystr) (v : V) (d : list (pystr * V))
  : list (pystr * V) :=
  match d with
  | [] => [(k, v)]
  | (k', v') :: d' =>
      if PyStr.eqb k k' then (k', v) :: d' else (k', v') :: dict_set k v d'
  end.

(** [dict(pairs)]: later pairs overwrite earlier ones. *)
Definition dict_of_pairs {V : Type} (pairs : list (pystr * V))
  : list (pystr * V) :=
  fold_left (fun d kv => dict_set (fst kv) (snd kv) d) pairs [].

(** [v.get(k, default)]: only a [dict] has the method. *)
Definition get (v : pyval) (k : pystr) (default : pyval) : result pyval :=
  match v with
  | PDict d =>
      match dict_lookup k d with
      | Some x => Ok x
      | None => Ok default
      end
  | _ => Raise AttributeError
  end.

End Py.

(* ================================================================== *)
(** * The JSON decoder *)
(* ================================================================== *)

(** [json.loads] of the Python standard library, as the classifier uses
    it: default decoder, strict strings.  The decoder is a recursive
    descent over the text; [fuel] bounds the nesting, and [json_loads]
    supplies more than the text can use ([scan_fuel] below).  Two things
    are outside the model: the interpreter's recursion limit, and the limit
    on the number of digits of an [int] literal. *)
Module Json.
Import PyStr.

Inductive scan (A : Type) : Type :=
| Scanned (a : A) (rest : pystr)
| Invalid
| OutOfFuel.
Arguments Scanned {A} a rest.
Arguments Invalid {A}.
Arguments OutOfFuel {A}.

(** The white space of the grammar: space, tab, line feed, carriage
    return. *)
Definition is_ws (c : N) : bool :=
  ((c =? 32) || (c =? 9) || (c =? 10) || (c =? 13))%N.

Fixpoint skip_ws (s : pystr) : pystr :=
  match s with
  | c :: s' => if is_ws c then skip_ws s' else s
  | [] => []
  end.

Definition is_digit (c : N) : bool := ((48 <=? c) && (c <=? 57))%N.

Definition hex_value (c : N) : option N :=
  if is_digit c then Some (c - 48)%N
  else if ((97 <=? c) && (c <=? 102))%N then Some (c - 87)%N
  else if ((65 <=? c) && (c <=? 70))%N then Some (c - 55)%N
  else None.

Definition hex4 (a b c d : N) : option N :=
  match hex_value a, hex_value b, hex_value c, hex_value d with
  | Some x, Some y, Some z, Some w => Some (((x * 16 + y) * 16 + z) * 16 + w)%N
  | _, _, _, _ => None
  end.

(** The one-letter escapes: quote, backslash, slash, b, f, n, r, t. *)
Definition backslash (e : N) : option N :=
  if (e =? 34)%N then Some 34%N
  else if (e =? 92)%N then Some 92%N
  else if (e =? 47)%N then Some 47%N
  else if (e =? 98)%N then Some 8%N
  else if (e =? 102)%N then Some 12%N
  else if (e =? 110)%N then Some 10%N
  else if (e =? 114)%N then Some 13%N
  else if (e =? 116)%N then Some 9%N
  else None.

(** The body of a string literal, from just after its opening quote to its
    closing quote: the characters it denotes, each marked when it was
    written as a [\uXXXX] escape. *)
Fixpoint scan_units (acc : list (N * bool)) (s : pystr)
  : scan (list (N * bool)) :=
  match s with
  | [] => Invalid
  | c :: rest =>
      if (c =? 34)%N then Scanned (rev acc) rest
      else if (c =? 92)%N then
        match rest with
        | [] => Invalid
        | e :: rest' =>
            if (e =? 117)%N then
              match rest' with
              | h1 :: h2 :: h3 :: h4 :: rest'' =>
                  match hex4 h1 h2 h3 h4 with
                  | Some u => scan_units ((u, true) :: acc) rest''
                  | None => Invalid
                  end
              | _ => Invalid
              end
            else
              match backslash e with
              | Some x => scan_units ((x, false) :: acc) rest'
              | None => Invalid
              end
        end
      else if (c <? 32)%N then Invalid
      else scan_units ((c, false) :: acc) rest
  end.

Definition is_high_surrogate (u : N) : bool :=
  ((55296 <=? u) && (u <=? 56319))%N.
Definition is_low_surrogate (u : N) : bool :=
  ((56320 <=? u) && (u <=? 57343))%N.

(** An escaped high surrogate directly followed by an escaped low
    surrogate is one character. *)
Fixpoint join_surrogates (us : list (N * bool)) : pystr :=
  match us with
  | [] => []
  | (h, esc) :: tl =>
      match tl with
      | (l, true) :: tl' =>
          if esc && is_high_surrogate h && is_low_surrogate l
          then (65536 + N.lor (N.shiftl (h - 55296) 10) (l - 56320))%N
                 :: join_surrogates tl'
          else h :: join_surrogates tl
      | _ => h :: join_surrogates tl
      end
  end.

Definition scanstring (s : pystr) : scan pystr :=
  match scan_units [] s with
  | Scanned us rest => Scanned (join_surrogates us) rest
  | Invalid => Invalid
  | OutOfFuel => OutOfFuel
  end.

Fixpoint span_digits (s : pystr) : pystr * pystr :=
  match s with
  | c :: s' =>
      if is_digit c
      then let '(ds, r) := span_digits s' in (c :: ds, r)
      else ([], s)
  | [] => ([], [])
  end.

Definition digits_value (ds : pystr) : N :=
  fold_left (fun acc d => (acc * 10 + (d - 48))%N) ds 0%N.

(** The integer part: an optional minus sign, then either 0 or a non-zero
    digit followed by any digits. *)
Definition match_integer (s : pystr) : option (bool * pystr * pystr) :=
  let '(neg, s1) :=
    match s with
    | c :: s' => if (c =? 45)%N then (true, s') else (false, s)
    | [] => (false, s)
    end in
  match s1 with
  | c :: s2 =>
      if (c =? 48)%N then Some (neg, [c], s2)
      else if is_digit c
           then let '(ds, r) := span_digits s2 in Some (neg, c :: ds, r)
           else None
  | [] => None
  end.

(** The fraction: a point and at least one digit. *)
Definition match_frac (s : pystr) : option (pystr * pystr) :=
  match s with
  | c :: s' =>
      if (c =? 46)%N then
        match span_digits s' with
        | ([], _) => None
        | (ds, r) => Some (ds, r)
        end
      else None
  | [] => None
  end.

(** The exponent: e or E, an optional sign and at least one digit. *)
Definition match_exp (s : pystr) : option (Z * pystr) :=
  match s with
  | c :: s' =>
      if ((c =? 101) || (c =? 69))%N then
        let '(neg, s1) :=
          match s' with
          | d :: s'' =>
              if (d =? 45)%N then (true, s'')
              else if (d =? 43)%N then (false, s'')
              else (false, s')
          | [] => (false, s')
          end in
        match span_digits s1 with
        | ([], _) => None
        | (ds, r) =>
            let v := Z.of_N (digits_value ds) in
            Some (if neg then (- v)%Z else v, r)
        end
      else None
  | [] => None
  end.

(** A number literal: an [int] when it has neither fraction nor exponent,
    a [float] otherwise. *)
Definition match_number (s : pystr) : option (pyval * pystr) :=
  match match_integer s with
  | None => None
  | Some (neg, ids, r0) =>
      let '(frac, r1) :=
        match match_frac r0 with
        | Some (f, r) => (Some f, r)
        | None => (None, r0)
        end in
      let '(ex, r2) :=
        match match_exp r1 with
        | Some (e, r) => (Some e, r)
        | None => (None, r1)
        end in
      match frac, ex with
      | None, None =>
          let v := Z.of_N (digits_value ids) in
          Some (PInt (if neg then (- v)%Z else v), r2)
      | _, _ =>
          let fds := match frac with Some f => f | None => [] end in
          let e := match ex with Some e => e | None => 0%Z end in
          Some (PFloat (FDec neg (digits_value (ids ++ fds))
                          (e - Z.of_nat (List.length fds))), r2)
      end
  end.

(** [s] starts with the word [w]: the value [v] and what follows. *)
Definition literal (w : string) (v : pyval) (s : pystr)
  : option (pyval * pystr) :=
  if startswith (str w) s then Some (v, skipn (String.length w) s) else None.

(** What is neither a string, an object nor an array. *)
Definition scan_atom (s : pystr) : scan pyval :=
  let try (o : option (pyval * pystr)) (k : scan pyval) : scan pyval :=
    match o with
    | Some (v, r) => Scanned v r
    | None => k
    end in
  try (literal "null" PNone s)
  (try (literal "true" (PBool true) s)
  (try (literal "false" (PBool false) s)
  (try (match_number s)
  (try (literal "NaN" (PFloat FNaN) s)
  (try (literal "Infinity" (PFloat (FInf false)) s)
  (try (literal "-Infinity" (PFloat (FInf true)) s)
   Invalid)))))).

(** [scan_once] reads one value at the head of [s].  [object_members]
    continues an object just after the opening quote of a key, with the
    pairs read so far (latest first); [array_items] continues an array at
    the start of an item. *)
Fixpoint scan_once (fuel : nat) (s : pystr) {struct fuel} : scan pyval :=
  match fuel with
  | O => OutOfFuel
  | S fuel' =>
      match s with
      | [] => Invalid
      | c :: rest =>
          if (c =? 34)%N then
            match scanstring rest with
            | Scanned k r => Scanned (PStr k) r
            | Invalid => Invalid
            | OutOfFuel => OutOfFuel
            end
          else if (c =? 123)%N then
            match skip_ws rest with
            | d :: r =>
                if (d =? 125)%N then Scanned (PDict []) r
                else if (d =? 34)%N then object_members fuel' [] r
                else Invalid
            | [] => Invalid
            end
          else if (c =? 91)%N then
            match skip_ws rest with
            | d :: r =>
                if (d =? 93)%N then Scanned (PList []) r
                else array_items fuel' [] (d :: r)
            | [] => Invalid
            end
          else scan_atom s
      end
  end

with object_members (fuel : nat) (pairs : list (pystr * pyval)) (s : pystr)
  {struct fuel} : scan pyval :=
  match fuel with
  | O => OutOfFuel
  | S fuel' =>
      match scanstring s with
      | Scanned key r =>
          match skip_ws r with
          | c :: r1 =>
              if (c =? 58)%N then
                match scan_once fuel' (skip_ws r1) with
                | Scanned v r2 =>
                    let pairs' := (key, v) :: pairs in
                    match skip_ws r2 with
                    | d :: r3 =>
                        if (d =? 125)%N
                        then Scanned (PDict (Py.dict_of_pairs (rev pairs'))) r3
                        else if (d =? 44)%N then
                          match skip_ws r3 with
                          | q :: r4 =>
                              if (q =? 34)%N
                              then object_members fuel' pairs' r4
                              else Invalid
                          | [] => Invalid
                          end
                        else Invalid
                    | [] => Invalid
                    end
                | Invalid => Invalid
                | OutOfFuel => OutOfFuel
                end
              else Invalid
          | [] => Invalid
          end
      | Invalid => Invalid
      | OutOfFuel => OutOfFuel
      end
  end

with array_items (fuel : nat) (items : list pyval) (s : pystr)
  {struct fuel} : scan pyval :=
  match fuel with
  | O => OutOfFuel
  | S fuel' =>
      match scan_once fuel' s with
      | Scanned v r =>
          let items' := v :: items in
          match skip_ws r with
          | d :: r1 =>
              if (d =? 93)%N then Scanned (PList (rev items')) r1
              else if (d =? 44)%N then array_items fuel' items' (skip_ws r1)
              else Invalid
          | [] => Invalid
          end
      | Invalid => Invalid
      | OutOfFuel => OutOfFuel
      end
  end.

(** Fuel that no text can exhaust: every call of the three functions above
    is on a text shorter than its caller's (see [scan_fuel]). *)
Definition fuel_for (s : pystr) : nat := S (2 * List.length s).

(** [json.loads(s)]: [None] stands for [json.JSONDecodeError].  A text that
    starts with a byte order mark is refused; white space may surround the
    value; anything else after it is an error. *)
Definition json_loads (s : pystr) : option pyval :=
  if startswith [65279%N] s then None
  else
    match scan_once (fuel_for s) (skip_ws s) with
    | Scanned v rest =>
        match skip_ws rest with
        | [] => Some v
        | _ :: _ => None
        end
    | Invalid | OutOfFuel => None
    end.

(** A scan is [sound_on s] when it did not run out of fuel and, when it
    read a value, consumed at least one character of [s]. *)
Definition sound_on {A : Type} (s : pystr) (x : scan A) : Prop :=
  match x with
  | Scanned _ r => (List.length r < List.length s)%nat
  | Invalid => True
  | OutOfFuel => False
  end.

End Json.

(* ================================================================== *)
(** * The record store ([database.py]) *)
(* ================================================================== *)

Module Database.

(** What a parameter of a statement can be bound to. *)
Inductive sqlval : Type :=
| SqlNull
| SqlInt (z : Z)
| SqlReal (f : pyfloat)
| SqlText (s : pystr).

(** ** The table [tweets] *)

(** The columns that carry no constraint and take no part in the
    classification state.  A nullable TEXT column is an [option]; the
    counters and flags are INTEGER. *)
Record extras : Type := {
  created_at : option pystr;
  author_id : option pystr;
  author_username : option pystr;
  author_display_name : option pystr;
  author_verified : Z;
  retweet_count : Z;
  reply_count : Z;
  like_count : Z;
  quote_count : Z;
  reply_to_tweet_id : option pystr;
  reply_to_user_id : option pystr;
  reply_to_username : option pystr;
  is_retweet : Z;
  is_quote : Z;
  quoted_tweet_id : option pystr;
  media_json : pystr;
  urls_json : pystr;
  hashtags_json : pystr;
  mentions_json : pystr
}.

(** A row.  [id] is declared [TEXT PRIMARY KEY]: SQLite keeps its values
    unique but, the table being an ordinary rowid table, admits NULL there.
    [text] and [captured_at] are [NOT NULL].  [classification_result] is 1
    for approved, 0 for filtered, NULL before classification.
    [classification_reason] holds the value that was bound (the rendering
    of a number as text, which SQLite applies in a TEXT column, is left
    out). *)
Record row : Type := {
  id : option pystr;
  text : pystr;
  captured_at : pystr;
  more : extras;
  classification_status : pystr;
  classification_result : option Z;
  classification_reason : sqlval;
  classified_at : option pystr
}.

(** The table, in insertion order. *)
Definition table : Type := list row.

(** ** The tweets handed to [store_tweets] *)

(** The entry of a dict under a key: no such key, the value [None], or a
    value. *)
Inductive field (A : Type) : Type :=
| Absent
| Null
| Val (a : A).
Arguments Absent {A}.
Arguments Null {A}.
Arguments Val {A} a.

(** The nested dicts of a tweet.  In these, and in the optional entries of
    [tweet], [None] is a key that is absent. *)
Record author_dict : Type := {
  au_id : option pystr;
  au_username : option pystr;
  au_display_name : option pystr;
  au_verified : bool
}.

Record metrics_dict : Type := {
  me_retweet_count : option Z;
  me_reply_count : option Z;
  me_like_count : option Z;
  me_quote_count : option Z
}.

Record reply_to_dict : Type := {
  rp_tweet_id : option pystr;
  rp_user_id : option pystr;
  rp_username : option pystr
}.

(** A tweet as the collector receives it: a dict whose entries, where
    present, have the types of the data model, its strings being text that
    SQLite can store (encodable as UTF-8).  The entries the table
    constrains ([id], [text], [captured_at]) are [field]s. *)
Record tweet : Type := {
  tw_id : field pystr;
  tw_text : field pystr;
  tw_created_at : option pystr;
  tw_captured_at : field pystr;
  tw_author : option author_dict;
  tw_metrics : option metrics_dict;
  tw_reply_to : option reply_to_dict;
  tw_is_retweet : bool;
  tw_is_quote : bool;
  tw_quoted_tweet_id : option pystr;
  tw_media : option pyval;
  tw_urls : option pyval;
  tw_hashtags : option pyval;
  tw_mentions : option pyval
}.

(** [tweet[key]] *)
Definition subscript {A : Type} (key : string) (f : field A)
  : result (option A) :=
  match f with
  | Absent => Raise (KeyError (str key))
  | Null => Ok None
  | Val a => Ok (Some a)
  end.

(** [tweet.get(key, default)] *)
Definition get_or {A : Type} (f : field A) (default : A) : option A :=
  match f with
  | Absent => Some default
  | Null => None
  | Val a => Some a
  end.

(** [d.get(key, default)] on an entry that is absent or a value. *)
Definition get_default {A : Type} (o : option A) (default : A) : A :=
  match o with
  | Some a => a
  | None => default
  end.

(** [tweet.get(key, {}).get(sub)] *)
Definition get_in {D A : Type} (o : option D) (sub : D -> option A)
  : option A :=
  match o with
  | Some d => sub d
  | None => None
  end.

(** [1 if flag else 0] *)
Definition flag (b : bool) : Z := if b then 1%Z else 0%Z.

(** The parameters of one INSERT. *)
Record insert_params : Type := {
  p_id : option pystr;
  p_text : option pystr;
  p_captured_at : option pystr;
  p_more : extras
}.

Section Store.

(** [json.dumps], which renders the media, URL, hashtag and mention lists;
    the store does not look into its output. *)
Variable json_dumps : pyval -> pystr.

(** The tuple of values built for a tweet, in the order the source writes
    them: [tweet["id"]] and [tweet["text"]] raise [KeyError] when the key
    is absent; [now] is [datetime.utcnow().isoformat()]. *)
Definition insert_values (now : pystr) (t : tweet) : result insert_params :=
  (i <- subscript "id" (tw_id t) ;;
   x <- subscript "text" (tw_text t) ;;
   Ok {| p_id := i;
         p_text := x;
         p_captured_at := get_or (tw_captured_at t) now;
         p_more := {|
           created_at := tw_created_at t;
           author_id := get_in (tw_author t) au_id;
           author_username := get_in (tw_author t) au_username;
           author_display_name := get_in (tw_author t) au_display_name;
           author_verified :=
             flag (match tw_author t with
                   | Some a => au_verified a
                   | None => false
                   end);
           retweet_count :=
             get_default (get_in (tw_metrics t) me_retweet_count) 0%Z;
           reply_count :=
             get_default (get_in (tw_metrics t) me_reply_count) 0%Z;
           like_count :=
             get_default (get_in (tw_metrics t) me_like_count) 0%Z;
           quote_count :=
             get_default (get_in (tw_metrics t) me_quote_count) 0%Z;
           reply_to_tweet_id := get_in (tw_reply_to t) rp_tweet_id;
           reply_to_user_id := get_in (tw_reply_to t) rp_user_id;
           reply_to_username := get_in (tw_reply_to t) rp_username;
           is_retweet := flag (tw_is_retweet t);
           is_quote := flag (tw_is_quote t);
           quoted_tweet_id := tw_quoted_tweet_id t;
           media_json := json_dumps (get_default (tw_media t) (PList []));
           urls_json := json_dumps (get_default (tw_urls t) (PList []));
           hashtags_json :=
             json_dumps (get_default (tw_hashtags t) (PList []));
           mentions_json :=
             json_dumps (get_default (tw_mentions t) (PList []))
         |} |})%result.

(** Some row of the table has the id [i]. *)
Definition has_id (i : pystr) (tbl : table) : bool :=
  existsb (fun r => match id r with
                    | Some j => PyStr.eqb i j
                    | None => false
                    end) tbl.

(** [INSERT INTO tweets (...) VALUES (...)].  [None] is
    [sqlite3.IntegrityError]: a NULL in a [NOT NULL] column or an id the
    table already has; the statement then changes nothing.  The columns the
    statement does not name take their defaults: status ['pending'], the
    rest NULL. *)
Definition execute_insert (p : insert_params) (tbl : table) : option table :=
  match p_text p, p_captured_at p with
  | Some x, Some c =>
      if match p_id p with
         | Some i => has_id i tbl
         | None => false
         end
      then None
      else Some (tbl ++ [{| id := p_id p;
                            text := x;
                            captured_at := c;
                            more := p_more p;
                            classification_status := str "pending";
                            classification_result := None;
                            classification_reason := SqlNull;
                            classified_at := None |}])
  | _, _ => None
  end.

(** The counts [store_tweets] returns. *)
Record store_stats : Type := {
  inserted : Z;
  duplicates : Z
}.

(** The loop of [store_tweets], run inside the transaction on its working
    copy of the table.  [clock k] is the time read while the values of the
    [k]-th tweet of the call are built.  The result comes with the working
    copy as it is when the loop ends or raises. *)
Fixpoint store_loop (clock : nat -> pystr) (k : nat) (tweets : list tweet)
  (counts : store_stats) (work : table) : result store_stats * table :=
  match tweets with
  | [] => (Ok counts, work)
  | t :: rest =>
      match insert_values (clock k) t with
      | Raise e => (Raise e, work)
      | Ok p =>
          match execute_insert p work with
          | Some work' =>
              store_loop clock (S k) rest
                {| inserted := inserted counts + 1;
                   duplicates := duplicates counts |} work'
          | None =>
              store_loop clock (S k) rest
                {| inserted := inserted counts;
                   duplicates := duplicates counts + 1 |} work
          end
      end
  end.

(** [with transaction(db_path) as conn: body]: commit when the body
    returns, roll back and re-raise when it raises. *)
Definition transaction {A : Type} (body : table -> result A * table)
  (tbl : table) : result A * table :=
  match body tbl with
  | (Ok a, work) => (Ok a, work)
  | (Raise e, _) => (Raise e, tbl)
  end.

(** [store_tweets(tweets)]: the outcome and the table afterwards. *)
Definition store_tweets (clock : nat -> pystr) (tweets : list tweet)
  (tbl : table) : result store_stats * table :=
  match tweets with
  | [] => (Ok {| inserted := 0; duplicates := 0 |}, tbl)
  | _ :: _ =>
      transaction
        (store_loop clock 0 tweets {| inserted := 0; duplicates := 0 |})
        tbl
  end.

End Store.

(** ** Queries and updates *)

Definition is_pending (r : row) : bool :=
  PyStr.eqb (classification_status r) (str "pending").

(** [ORDER BY captured_at DESC]: a stable insertion sort, so that rows
    captured at the same time keep their table order.  SQLite leaves the
    order of such rows open; nothing below depends on this choice. *)
Fixpoint insert_desc (r : row) (l : list row) : list row :=
  match l with
  | [] => [r]
  | x :: l' =>
      match PyStr.compare (captured_at r) (captured_at x) with
      | Lt => x :: insert_desc r l'
      | _ => r :: l
      end
  end.

Definition order_by_captured_at_desc (l : list row) : list row :=
  fold_right insert_desc [] l.

(** [LIMIT n]: a negative [n] is no limit. *)
Definition sql_limit {A : Type} (n : Z) (l : list A) : list A :=
  if (n <? 0)%Z then l else firstn (Z.to_nat n) l.

(** [get_pending_tweets(limit)] *)
Definition get_pending_tweets (limit : Z) (tbl : table) : list row :=
  sql_limit limit (order_by_captured_at_desc (filter is_pending tbl)).

(** A string can be encoded as UTF-8 when it has no surrogate code
    point. *)
Definition encodable (s : pystr) : bool :=
  negb (existsb (fun c => (55296 <=? c) && (c <=? 57343))%N s).

(** How [sqlite3] binds a Python value: [None], [int] (a [bool] is one),
    [float] and [str] are supported; an [int] must fit 64 bits and a
    [str] must be encodable. *)
Definition bind_param (v : pyval) : result sqlval :=
  match v with
  | PNone => Ok SqlNull
  | PBool b => Ok (SqlInt (flag b))
  | PInt z =>
      if ((- 2 ^ 63 <=? z) && (z <? 2 ^ 63))%Z then Ok (SqlInt z)
      else Raise OverflowError
  | PFloat f => Ok (SqlReal f)
  | PStr s => if encodable s then Ok (SqlText s) else Raise UnicodeEncodeError
  | PList _ | PDict _ => Raise BindError
  end.

(** The UPDATE of [update_classification] on one row; [id = ?] holds of no
    row when the parameter is NULL. *)
Definition set_classification (now : pystr) (tweet_id : option pystr)
  (result : Z) (reason : sqlval) (r : row) : row :=
  match tweet_id, id r with
  | Some i, Some j =>
      if PyStr.eqb i j
      then {| id := id r;
              text := text r;
              captured_at := captured_at r;
              more := more r;
              classification_status := str "completed";
              classification_result := Some result;
              classification_reason := reason;
              classified_at := Some now |}
      else r
  | _, _ => r
  end.

(** [update_classification(tweet_id, approved, reason)] at time [now]. *)
Definition update_classification (now : pystr) (tweet_id : option pystr)
  (approved : pyval) (reason : pyval) (tbl : table) : result unit * table :=
  transaction
    (fun work =>
       match bind_param reason with
       | Ok rs =>
           (Ok tt,
            map (set_classification now tweet_id
                   (flag (Py.truthy approved)) rs) work)
       | Raise e => (Raise e, work)
       end)
    tbl.

(** [approve_all_pending()]: the table afterwards and the row count. *)
Definition approve_all_pending (now : pystr) (tbl : table) : Z * table :=
  (Z.of_nat (List.length (filter is_pending tbl)),
   map (fun r =>
          if is_pending r
          then {| id := id r;
                  text := text r;
                  captured_at := captured_at r;
                  more := more r;
                  classification_status := str "completed";
                  classification_result := Some 1%Z;
                  classification_reason := SqlText (str "auto-approved");
                  classified_at := Some now |}
          else r) tbl).

(** [get_stats()] *)
Record stats : Type := {
  total : Z;
  pending : Z;
  approved : Z;
  filtered : Z
}.

Definition count (p : row -> bool) (tbl : table) : Z :=
  Z.of_nat (List.length (filter p tbl)).

Definition result_is (v : Z) (r : row) : bool :=
  match classification_result r with
  | Some z => (z =? v)%Z
  | None => false
  end.

Definition get_stats (tbl : table) : stats :=
  {| total := Z.of_nat (List.length tbl);
     pending := count is_pending tbl;
     approved := count (result_is 1) tbl;
     filtered := count (result_is 0) tbl |}.

(** ** Predicates on rows, tables and tweets *)

(** The two shapes of a row. *)
Definition pending_shape (r : row) : Prop :=
  classification_status r = str "pending"
  /\ classification_result r = None
  /\ classified_at r = None.

Definition completed_shape (r : row) : Prop :=
  classification_status r = str "completed"
  /\ (classification_result r = Some 1%Z \/ classification_result r = Some 0%Z)
  /\ classified_at r <> None.

(** The state invariant of a record, as two equivalences. *)
Definition state_invariant (r : row) : Prop :=
  (classification_status r = str "completed" <->
     (classification_result r = Some 1%Z \/ classification_result r = Some 0%Z)
     /\ classified_at r <> None)
  /\ (classification_status r = str "pending" <->
        classification_result r = None /\ classified_at r = None).

(** The tables the two writing operations can produce, from the empty
    table of a fresh database. *)
Inductive reachable : table -> Prop :=
| reach_empty : reachable []
| reach_store (json_dumps : pyval -> pystr) (clock : nat -> pystr)
    (tweets : list tweet) (t : table) :
    reachable t -> reachable (snd (store_tweets json_dumps clock tweets t))
| reach_update (now : pystr) (tweet_id : option pystr)
    (approved reason : pyval) (t : table) :
    reachable t ->
    reachable (snd (update_classification now tweet_id approved reason t)).

(** The ids of a table, NULLs left out, and the key constraint. *)
Definition ids (t : table) : list pystr :=
  flat_map (fun r => match id r with Some i => [i] | None => [] end) t.

Definition pk_unique (t : table) : Prop := NoDup (ids t).





End Database.

(* ================================================================== *)
(** * The rest of the record store ([database.py]) *)
(* ================================================================== *)

Module DatabaseMore.
Import Database.

(** ** Approved tweets, by page *)

(** The order of [ORDER BY created_at]: NULL is below every text. *)
Definition compare_created (a b : option pystr) : comparison :=
  match a, b with
  | None, None => Eq
  | None, Some _ => Lt
  | Some _, None => Gt
  | Some x, Some y => PyStr.compare x y
  end.

(** [ORDER BY created_at DESC]: rows without creation time come last.
    SQLite reads the rows through the index on [created_at], backwards,
    so that rows created at the same time come in reverse table order;
    the sort below inserts a row after the rows it is equal to.  The
    order of such rows is the engine's choice; what is proved of the
    listing holds for the other choice as well. *)
Fixpoint insert_created_desc (r : row) (l : list row) : list row :=
  match l with
  | [] => [r]
  | x :: l' =>
      match compare_created (created_at (more r)) (created_at (more x)) with
      | Gt => r :: l
      | _ => x :: insert_created_desc r l'
      end
  end.

Definition order_by_created_at_desc (l : list row) : list row :=
  fold_right insert_created_desc [] l.

(** [OFFSET m]: a negative [m] is 0. *)
Definition sql_offset {A : Type} (m : Z) (l : list A) : list A :=
  skipn (Z.to_nat m) l.

(** The SELECT of [get_approved_tweets]. *)
Definition select_approved (limit offset : Z) (tbl : table) : list row :=
  sql_limit limit
    (sql_offset offset
       (order_by_created_at_desc (filter (result_is 1) tbl))).

(** An [int] that [sqlite3] can bind. *)
Definition int64 (z : Z) : bool := ((- 2 ^ 63 <=? z) && (z <? 2 ^ 63))%Z.

(** [get_approved_tweets(limit, offset)], both of them [int]s. *)
Definition get_approved_tweets (limit offset : Z) (tbl : table)
  : result (list row) :=
  if int64 limit && int64 offset
  then Ok (select_approved limit offset tbl)
  else Raise OverflowError.

(** ** The status of many tweets *)

(** What [check_tweet_statuses] writes for a row it found. *)
Definition row_status (r : row) : pystr :=
  if PyStr.eqb (classification_status r) (str "completed")
  then if result_is 1 r then str "approved" else str "filtered"
  else str "pending".

(** The rows whose id is one of the parameters, each with its id.  A row
    without id is never one of them. *)
Definition matching_ids (tweet_ids : list pystr) (tbl : table)
  : list (pystr * row) :=
  flat_map (fun r => match id r with
                     | Some i =>
                         if existsb (PyStr.eqb i) tweet_ids then [(i, r)]
                         else []
                     | None => []
                     end) tbl.

Fixpoint insert_by_id (x : pystr * row) (l : list (pystr * row))
  : list (pystr * row) :=
  match l with
  | [] => [x]
  | y :: l' =>
      match PyStr.compare (fst x) (fst y) with
      | Gt => y :: insert_by_id x l'
      | _ => x :: l
      end
  end.

(** [SELECT ... WHERE id IN (?, ..., ?)]: SQLite looks the parameters up
    in the index of the primary key, in ascending order, so the rows come
    ordered by id. *)
Definition select_by_ids (tweet_ids : list pystr) (tbl : table)
  : list (pystr * row) :=
  fold_right insert_by_id [] (matching_ids tweet_ids tbl).

(** How the call can fail: [sqlite3.OperationalError] for a statement with
    too many [?], or the error of a parameter that cannot be bound. *)
Inductive query_error : Type :=
| OperationalError
| BindingError (e : exn).

Section Statuses.

(** The largest number of [?] a statement may have, a constant of the
    SQLite build. *)
Variable max_variable_number : nat.

(** [check_tweet_statuses(tweet_ids)] for a list of strings.  The result
    is the dict, with its keys in insertion order. *)
Definition check_tweet_statuses (tweet_ids : list pystr) (tbl : table)
  : query_error + list (pystr * pystr) :=
  match tweet_ids with
  | [] => inr []
  | _ :: _ =>
      if (max_variable_number <? List.length tweet_ids)%nat
      then inl OperationalError
      else if negb (forallb encodable tweet_ids)
      then inl (BindingError UnicodeEncodeError)
      else
        let rows := select_by_ids tweet_ids tbl in
        let result :=
          fold_left (fun d ir => Py.dict_set (fst ir) (row_status (snd ir)) d)
            rows [] in
        inr (fold_left
               (fun d i =>
                  match Py.dict_lookup i d with
                  | Some _ => d
                  | None => Py.dict_set i (str "unknown") d
                  end)
               tweet_ids result)
  end.

End Statuses.

(** ** Predicates on rows and tweets *)



(** What a row holds of the tweet, as opposed to its classification. *)
Definition content (r : row) : option pystr * pystr * pystr * extras :=
  (id r, text r, captured_at r, more r).



Definition created_not_before (a b : row) : Prop :=
  compare_created (created_at (more a)) (created_at (more b)) <> Lt.

End DatabaseMore.

(* ================================================================== *)
(** * The classifier ([classifier.py]) *)
(* ================================================================== *)

Module Classifier.
Import Database.

(** ** Prompt formatter *)

Definition newline : pystr := [10%N].

(** [x or default] for an optional string: [None] and the empty string
    are false. *)
Definition or_else (x : option pystr) (default : pystr) : pystr :=
  match x with
  | Some (c :: s) => c :: s
  | Some [] | None => default
  end.

(** [format_tweet_for_classification(tweet)] on a row of the table. *)
Definition format_tweet_for_classification (tweet : row) : pystr :=
  let m := more tweet in
  let author := or_else (author_username m) (str "unknown") in
  let display_name := or_else (author_display_name m) author in
  let head := str "@" ++ author ++ str " (" ++ display_name ++ str ")" in
  let head :=
    if (author_verified m =? 0)%Z then head else head ++ str " [verified]" in
  let parts := [head; text tweet] in
  let parts :=
    if (is_retweet m =? 0)%Z then parts
    else parts ++ [str "[This is a retweet]"] in
  let parts :=
    if (is_quote m =? 0)%Z then parts
    else parts ++ [str "[This is a quote tweet]"] in
  let parts :=
    match reply_to_username m with
    | Some (c :: u) => parts ++ [str "[Replying to @" ++ (c :: u) ++ str "]"]
    | Some [] | None => parts
    end in
  let metrics := [] in
  let metrics :=
    if (like_count m >? 0)%Z
    then metrics ++ [PyStr.of_Z (like_count m) ++ str " likes"]
    else metrics in
  let metrics :=
    if (retweet_count m >? 0)%Z
    then metrics ++ [PyStr.of_Z (retweet_count m) ++ str " retweets"]
    else metrics in
  let metrics :=
    if (reply_count m >? 0)%Z
    then metrics ++ [PyStr.of_Z (reply_count m) ++ str " replies"]
    else metrics in
  let parts :=
    match metrics with
    | [] => parts
    | _ :: _ => parts ++ [str "[" ++ PyStr.join (str ", ") metrics ++ str "]"]
    end in
  PyStr.join newline parts.

(** ** Response parser *)

(** The longest run of characters other than the closing brace, and what
    follows it. *)
Fixpoint span_not_close (s : pystr) : pystr * pystr :=
  match s with
  | c :: s' =>
      if (c =? 125)%N then ([], s)
      else let '(body, r) := span_not_close s' in (c :: body, r)
  | [] => ([], [])
  end.

(** The pattern: an opening brace, one or more characters that are not a
    closing brace, a closing brace; matched at the head of [s]. *)
Definition match_braces (s : pystr) : option pystr :=
  match s with
  | c :: rest =>
      if (c =? 123)%N then
        match span_not_close rest with
        | (b :: body, _ :: _) => Some (c :: (b :: body) ++ [125%N])
        | _ => None
        end
      else None
  | [] => None
  end.

(** [re.search(pattern, s)]: the leftmost match, as [group()] gives it. *)
Fixpoint re_search (s : pystr) : option pystr :=
  match match_braces s with
  | Some m => Some m
  | None =>
      match s with
      | [] => None
      | _ :: s' => re_search s'
      end
  end.

(** The end of [classify_tweet], once [result] is bound:
    [result.get("approved", True)] and
    [result.get("reason", "No reason provided")]. *)
Definition read_result (decoded : pyval) : result (pyval * pyval) :=
  (approved <- Py.get decoded (str "approved") (PBool true) ;;
   reason <- Py.get decoded (str "reason") (PStr (str "No reason provided")) ;;
   Ok (approved, reason))%result.

(** The parsing part of [classify_tweet], from the text of the reply to
    the pair it returns.  The inner [json.loads] runs in the handler of the
    outer one: nothing catches what it raises. *)
Definition parse_response (text : pystr) : result (pyval * pyval) :=
  let content := PyStr.strip text in
  match Json.json_loads content with
  | Some result => read_result result
  | None =>
      match re_search content with
      | Some json_match =>
          match Json.json_loads json_match with
          | Some result => read_result result
          | None => Raise JSONDecodeError
          end
      | None =>
          let content_lower := PyStr.lower content in
          if PyStr.contains (str "approved") content_lower
             && PyStr.contains (str "true") content_lower
          then Ok (PBool true, PStr (str "LLM indicated approval"))
          else if PyStr.contains (str "approved") content_lower
                  && PyStr.contains (str "false") content_lower
          then Ok (PBool false, PStr (str "LLM indicated rejection"))
          else Ok (PBool true,
                   PStr (str "Could not parse response, defaulting to approved: "
                         ++ PyStr.slice_to 100 content))
      end
  end.

(** ** The model call and the loop *)

(** What [client.messages.create] comes back with: the text of the first
    content block, or an [anthropic.APIError] with its message. *)
Inductive api_reply : Type :=
| ApiText (text : pystr)
| ApiError (message : pystr).

(** What a run does to the outside, in order. *)
Inductive event : Type :=
| EvStats (s : stats)
| EvFetch (limit : Z) (rows : list row)
| EvModelCall (n : nat) (tweet : row)
| EvCommit (tweet_id : option pystr) (approved reason : pyval).

(** The variables of [run_classifier] and the world around it: the table,
    how many model calls and clock readings were made, and the events so
    far. *)
Record state : Type := {
  tbl : table;
  processed : Z;
  approved_count : Z;
  filtered_count : Z;
  calls : nat;
  ticks : nat;
  trace : list event
}.

Definition log (ev : event) (st : state) : state :=
  {| tbl := tbl st;
     processed := processed st;
     approved_count := approved_count st;
     filtered_count := filtered_count st;
     calls := calls st;
     ticks := ticks st;
     trace := trace st ++ [ev] |}.

Definition called (st : state) : state :=
  {| tbl := tbl st;
     processed := processed st;
     approved_count := approved_count st;
     filtered_count := filtered_count st;
     calls := S (calls st);
     ticks := ticks st;
     trace := trace st |}.

Definition committed (t : table) (st : state) : state :=
  {| tbl := t;
     processed := processed st;
     approved_count := approved_count st;
     filtered_count := filtered_count st;
     calls := calls st;
     ticks := S (ticks st);
     trace := trace st |}.

Definition counted (approved : bool) (st : state) : state :=
  {| tbl := tbl st;
     processed := processed st;
     approved_count :=
       if approved then (approved_count st + 1)%Z else approved_count st;
     filtered_count :=
       if approved then filtered_count st else (filtered_count st + 1)%Z;
     calls := calls st;
     ticks := ticks st;
     trace := trace st |}.

Definition advanced (n : Z) (st : state) : state :=
  {| tbl := tbl st;
     processed := (processed st + n)%Z;
     approved_count := approved_count st;
     filtered_count := filtered_count st;
     calls := calls st;
     ticks := ticks st;
     trace := trace st |}.

(** How a run ends. *)
Inductive outcome : Type :=
| NoApiKey
| NoPending
| Complete (processed approved filtered : Z) (new_stats : option stats)
| Raised (e : exn)
| Unfinished.

Record run : Type := {
  run_outcome : outcome;
  run_table : table;
  run_trace : list event
}.

Section Run.

(** The model behind the client: the reply to the [n]-th call of the run,
    given the model name, the system prompt and the user message. *)
Variable client : nat -> pystr -> pystr -> pystr -> api_reply.

(** [datetime.utcnow().isoformat()] at the [n]-th reading of the run. *)
Variable clock : nat -> pystr.

Variable system_prompt : pystr.
Variable model : pystr.

(** [classify_tweet(client, tweet, system_prompt, model)], as the [n]-th
    call. *)
Definition classify_tweet (n : nat) (tweet : row) : result (pyval * pyval) :=
  let tweet_text := format_tweet_for_classification tweet in
  match client n model system_prompt
          (str "Classify this tweet:" ++ newline ++ newline ++ tweet_text) with
  | ApiText text => parse_response text
  | ApiError e =>
      Ok (PBool true,
          PStr (str "API error, defaulting to approved: "
                ++ PyStr.slice_to 100 e))
  end.

(** [classify_batch(client, tweets, system_prompt, model, verbose)] *)
Fixpoint classify_batch (tweets : list row) (st : state)
  : result (list (option pystr * pyval * pyval)) * state :=
  match tweets with
  | [] => (Ok [], st)
  | tweet :: rest =>
      let tweet_id := id tweet in
      let st1 := called (log (EvModelCall (calls st) tweet) st) in
      match classify_tweet (calls st) tweet with
      | Raise e => (Raise e, st1)
      | Ok (approved, reason) =>
          match classify_batch rest st1 with
          | (Ok results, st2) => (Ok ((tweet_id, approved, reason) :: results), st2)
          | (Raise e, st2) => (Raise e, st2)
          end
      end
  end.

(** The loop that saves the results of a batch. *)
Fixpoint save_results (dry_run : bool)
  (results : list (option pystr * pyval * pyval)) (st : state)
  : result unit * state :=
  match results with
  | [] => (Ok tt, st)
  | (tweet_id, approved, reason) :: rest =>
      let '(saved, st1) :=
        if dry_run then (Ok tt, st)
        else
          let '(r, t) :=
            update_classification (clock (ticks st)) tweet_id approved reason
              (tbl st) in
          (r, committed t (log (EvCommit tweet_id approved reason) st)) in
      match saved with
      | Raise e => (Raise e, st1)
      | Ok _ => save_results dry_run rest (counted (Py.truthy approved) st1)
      end
  end.

(** The [while processed < limit] loop.  Each turn that does not leave the
    loop adds at least one to [processed], so [limit] turns are enough
    ([Unfinished] marks a loop cut short; see [run_classifier_finishes]). *)
Fixpoint batch_loop (fuel : nat) (batch_size limit : Z) (dry_run : bool)
  (st : state) : outcome * state :=
  if (processed st <? limit)%Z then
    match fuel with
    | O => (Unfinished, st)
    | S fuel' =>
        let remaining := (limit - processed st)%Z in
        let fetch_count := Z.min batch_size remaining in
        let tweets := get_pending_tweets fetch_count (tbl st) in
        let st := log (EvFetch fetch_count tweets) st in
        match tweets with
        | [] =>
            (Complete (processed st) (approved_count st) (filtered_count st)
               None, st)
        | _ :: _ =>
            (* the batch number printed is [processed // batch_size + 1] *)
            if (batch_size =? 0)%Z then (Raised ZeroDivisionError, st)
            else
              match classify_batch tweets st with
              | (Raise e, st1) => (Raised e, st1)
              | (Ok results, st1) =>
                  match save_results dry_run results st1 with
                  | (Raise e, st2) => (Raised e, st2)
                  | (Ok _, st2) =>
                      batch_loop fuel' batch_size limit dry_run
                        (advanced (Z.of_nat (List.length tweets)) st2)
                  end
              end
        end
    end
  else
    (Complete (processed st) (approved_count st) (filtered_count st) None, st).

(** [min(max_tweets, pending) if max_tweets else pending]: the test is
    false for [None] and for 0. *)
Definition limit_of (max_tweets : option Z) (pending : Z) : Z :=
  match max_tweets with
  | Some m => if (m =? 0)%Z then pending else Z.min m pending
  | None => pending
  end.

(** [run_classifier(prompt_file, batch_size, max_tweets, model, db_path,
    dry_run, verbose)].  [api_key] is the environment variable, [None] when
    it is not set; the prompt is already loaded. *)
Definition run_classifier (api_key : option pystr) (batch_size : Z)
  (max_tweets : option Z) (dry_run : bool) (t : table) : run :=
  match api_key with
  | None | Some [] =>
      {| run_outcome := NoApiKey; run_table := t; run_trace := [] |}
  | Some (_ :: _) =>
      let stats := get_stats t in
      let st := {| tbl := t; processed := 0; approved_count := 0;
                   filtered_count := 0; calls := 0; ticks := 0;
                   trace := [EvStats stats] |} in
      if (pending stats =? 0)%Z then
        {| run_outcome := NoPending; run_table := t; run_trace := trace st |}
      else
        let limit := limit_of max_tweets (pending stats) in
        match batch_loop (Z.to_nat limit) batch_size limit dry_run st with
        | (Complete p a f _, st') =>
            if dry_run then
              {| run_outcome := Complete p a f None;
                 run_table := tbl st'; run_trace := trace st' |}
            else
              let new_stats := get_stats (tbl st') in
              {| run_outcome := Complete p a f (Some new_stats);
                 run_table := tbl st';
                 run_trace := trace st' ++ [EvStats new_stats] |}
        | (o, st') =>
            {| run_outcome := o; run_table := tbl st'; run_trace := trace st' |}
        end
  end.

End Run.

(** ** Reading a trace *)

Definition is_commit (ev : event) : Prop :=
  match ev with
  | EvCommit _ _ _ => True
  | _ => False
  end.

Definition is_model_call (ev : event) : Prop :=
  match ev with
  | EvModelCall _ _ => True
  | _ => False
  end.

(** The model calls of a batch, numbered from [n]. *)
Fixpoint call_events (n : nat) (tweets : list row) : list event :=
  match tweets with
  | [] => []
  | tweet :: rest => EvModelCall n tweet :: call_events (S n) rest
  end.

(** The id a result is filed under. *)
Definition result_id (x : option pystr * pyval * pyval) : option pystr :=
  fst (fst x).

(** The reading of C7 as it is stated: the run ends in an error and did
    nothing before it. *)
Definition rejected_before_work (r : run) : Prop :=
  (exists e, run_outcome r = Raised e) /\ run_trace r = [].

(** A reply the parser returns on, and a reply whose outcome can also be
    written to the table (the reason it yields is a value SQLite binds).
    An API error is turned by [classify_tweet] into an approval whose
    reason quotes the message. *)
Definition reply_parses (rep : api_reply) : Prop :=
  match rep with
  | ApiText text => exists p, parse_response text = Ok p
  | ApiError _ => True
  end.

Definition reply_saves (rep : api_reply) : Prop :=
  match rep with
  | ApiText text =>
      exists approved reason rs,
        parse_response text = Ok (approved, reason)
        /\ bind_param reason = Ok rs
  | ApiError e => encodable (PyStr.slice_to 100 e) = true
  end.

Definition bindable (x : option pystr * pyval * pyval) : Prop :=
  exists rs, bind_param (snd x) = Ok rs.




(** The rows sent to the model. *)
Definition model_calls (tr : list event) : list row :=
  flat_map (fun ev => match ev with
                      | EvModelCall _ tweet => [tweet]
                      | _ => []
                      end) tr.

(** The fetches: what was asked and the rows returned. *)
Definition fetches (tr : list event) : list (Z * list row) :=
  flat_map (fun ev => match ev with
                      | EvFetch n rows => [(n, rows)]
                      | _ => []
                      end) tr.



End Classifier.

(* ================================================================== *)
(** * Replies and rows the classifier meets *)
(* ================================================================== *)

Module ClassifierMore.
Import Database Classifier.

(** A character that a JSON string literal holds as itself: not the
    quote, not the backslash, not a control character. *)
Definition plain (c : N) : bool :=
  negb (c =? 34)%N && negb (c =? 92)%N && (32 <=? c)%N.

Definition in_quotes (s : pystr) : pystr := [34%N] ++ s ++ [34%N].

(** The reply [DEFAULT_PROMPT] asks the model for: an object with the
    decision and a reason, and nothing around it. *)
Definition reply_in_format (approved : bool) (reason : pystr) : pystr :=
  str "{" ++ in_quotes (str "approved") ++ str ": "
  ++ (if approved then str "true" else str "false") ++ str ", "
  ++ in_quotes (str "reason") ++ str ": " ++ in_quotes reason ++ str "}".


(** The first line the formatter writes for a row. *)
Definition first_line (tweet : row) : pystr :=
  let m := more tweet in
  let author := or_else (author_username m) (str "unknown") in
  let display_name := or_else (author_display_name m) author in
  let head := str "@" ++ author ++ str " (" ++ display_name ++ str ")" in
  if (author_verified m =? 0)%Z then head else head ++ str " [verified]".

(** A row with no flag, no reply target and no positive count to show. *)
Definition bare (tweet : row) : Prop :=
  let m := more tweet in
  is_retweet m = 0%Z /\ is_quote m = 0%Z
  /\ or_else (reply_to_username m) [] = []
  /\ (like_count m <= 0)%Z /\ (retweet_count m <= 0)%Z
  /\ (reply_count m <= 0)%Z.

(** The commits in a trace. *)
Definition commits (tr : list event)
  : list (option pystr * pyval * pyval) :=
  flat_map (fun ev => match ev with
                      | EvCommit i a r => [(i, a, r)]
                      | _ => []
                      end) tr.

End ClassifierMore.

(* ================================================================== *)
(** * Example data *)
(* ================================================================== *)

(** Concrete tweets, tables and replies, used to run the definitions. *)
Module Examples.
Import Database Classifier.

(** A rendering of lists that is good enough for tweets without media. *)
Definition dumps (v : pyval) : pystr := str "[]".

(** A clock that ticks once per reading. *)
Definition clock (n : nat) : pystr :=
  str "2024-05-01T12:00:" ++ PyStr.of_Z (Z.of_nat n).

(** The tweet with the entries [id], [text] and [captured_at]. *)
Definition tweet_of (i x : pystr) (captured : field pystr) : tweet :=
  {| tw_id := Val i;
     tw_text := Val x;
     tw_created_at := None;
     tw_captured_at := captured;
     tw_author := None;
     tw_metrics := None;
     tw_reply_to := None;
     tw_is_retweet := false;
     tw_is_quote := false;
     tw_quoted_tweet_id := None;
     tw_media := None;
     tw_urls := None;
     tw_hashtags := None;
     tw_mentions := None |}.

Definition sunset : tweet :=
  tweet_of (str "t1") (str "Check out this amazing sunset!") Absent.

Definition sunset_again : tweet :=
  tweet_of (str "t1") (str "Another text under the same id") Absent.


(** The table after [sunset] was stored in an empty database. *)
Definition one_pending : table :=
  snd (store_tweets dumps clock [sunset] []).

(** The same table after the record was approved. *)
Definition one_approved : table :=
  snd (update_classification (clock 7) (Some (str "t1")) (PBool true)
         (PStr (str "positive content")) one_pending).

(** Tweets [n0], [n0 + 1], ... with ids and capture times in step. *)
Fixpoint numbered (count : nat) (n0 : Z) : list tweet :=
  match count with
  | O => []
  | S c =>
      tweet_of (str "id-" ++ PyStr.of_Z n0) (str "tweet")
        (Val (str "2024-04-" ++ PyStr.of_Z (10 + n0)))
      :: numbered c (n0 + 1)
  end.

(** A table of two pending records. *)
Definition two_pending : table :=
  snd (store_tweets dumps clock (numbered 2 0) []).

(** A table of seventeen pending records. *)
Definition seventeen_pending : table :=
  snd (store_tweets dumps clock (numbered 17 0) []).

(** A model that approves everything, in the format it was asked for. *)
Definition quoted (s : pystr) : pystr := [34%N] ++ s ++ [34%N].

Definition approving (n : nat) (model system message : pystr) : api_reply :=
  ApiText (str "{" ++ quoted (str "approved") ++ str ": true, "
           ++ quoted (str "reason") ++ str ": "
           ++ quoted (str "positive content") ++ str "}").

(** A model that answers in prose with an object whose keys are not
    quoted. *)
Definition unquoted (n : nat) (model system message : pystr) : api_reply :=
  ApiText (str "The tweet is fine. {approved: true}").

(** A model that answers with the bare JSON value [true]. *)
Definition bare_true (n : nat) (model system message : pystr) : api_reply :=
  ApiText (str "true").

Definition api_key : option pystr := Some (str "sk-test").

End Examples.

(** Further examples: a tweet whose id is [None], the tables it leaves,
    and a model that cannot be reached. *)
Module MoreExamples.
Import Database Classifier.

Definition anonymous : tweet :=
  {| tw_id := Null;
     tw_text := Val (str "Posted without an id");
     tw_created_at := None;
     tw_captured_at := Absent;
     tw_author := None;
     tw_metrics := None;
     tw_reply_to := None;
     tw_is_retweet := false;
     tw_is_quote := false;
     tw_quoted_tweet_id := None;
     tw_media := None;
     tw_urls := None;
     tw_hashtags := None;
     tw_mentions := None |}.

(** A table whose one record has no id. *)
Definition one_without_id : table :=
  snd (store_tweets Examples.dumps Examples.clock [anonymous] []).

(** A model behind a connection that fails. *)
Definition unreachable (n : nat) (model system message : pystr) : api_reply :=
  ApiError (str "Connection error.").

(** A reply in prose. *)
Definition prose : pystr := str "Looks fine to me, approved: true".

End MoreExamples.

(* ================================================================== *)
(** * Facts about strings *)
(* ================================================================== *)

Module PyStrFacts.
Import PyStr.

Lemma eqb_refl (a : pystr) : eqb a a = true.
Proof.
  induction a as [|x a IH]; simpl; [reflexivity|].
  now rewrite N.eqb_refl, IH.
Qed.

Lemma eqb_eq (a b : pystr) : eqb a b = true <-> a = b.
Proof.
  split.
  - revert b; induction a as [|x a IH]; intros [|y b]; simpl; try discriminate;
      [reflexivity|].
    intros H. apply andb_true_iff in H as [Hx Hr].
    apply N.eqb_eq in Hx. subst. f_equal. now apply IH.
  - intros ->. apply eqb_refl.
Qed.

Lemma eqb_neq (a b : pystr) : eqb a b = false <-> a <> b.
Proof.
  split.
  - intros H E. apply eqb_eq in E. congruence.
  - intros H. destruct (eqb a b) eqn:E; [|reflexivity].
    apply eqb_eq in E. contradiction.
Qed.

Lemma startswith_app (p s : pystr) : startswith p (p ++ s) = true.
Proof.
  induction p as [|x p IH]; simpl; [reflexivity|].
  now rewrite N.eqb_refl, IH.
Qed.

Lemma startswith_prefix (p a : pystr) :
  startswith p a = true -> exists t, a = p ++ t.
Proof.
  revert a; induction p as [|x p IH]; intros a H; simpl in *.
  - now exists a.
  - destruct a as [|y a]; [discriminate|].
    apply andb_true_iff in H as [Hx Hr]. apply N.eqb_eq in Hx. subst.
    destruct (IH _ Hr) as [t ->]. now exists t.
Qed.

Lemma contains_here (needle hay : pystr) :
  startswith needle hay = true -> contains needle hay = true.
Proof. intros H. destruct hay; simpl in *; now rewrite H. Qed.

Lemma contains_app (pre needle post : pystr) :
  contains needle (pre ++ needle ++ post) = true.
Proof.
  induction pre as [|x pre IH].
  - simpl. apply contains_here, startswith_app.
  - simpl. rewrite IH. apply orb_true_r.
Qed.

Lemma contains_split (needle hay : pystr) :
  contains needle hay = true -> exists pre post, hay = pre ++ needle ++ post.
Proof.
  induction hay as [|x hay IH]; simpl.
  - rewrite orb_false_r. intros H.
    destruct (startswith_prefix _ _ H) as [t ->]. now exists [], t.
  - intros H. apply orb_true_iff in H as [H|H].
    + destruct (startswith_prefix _ _ H) as [t ->]. now exists [], t.
    + destruct (IH H) as (pre & post & ->). now exists (x :: pre), post.
Qed.

End PyStrFacts.

(* ================================================================== *)
(** * Facts about the JSON decoder *)
(* ================================================================== *)

Module JsonFacts.
Import PyStr Json.

Lemma sound_on_longer {A : Type} (s s' : pystr) (x : scan A) :
  sound_on s x -> (List.length s <= List.length s')%nat -> sound_on s' x.
Proof. destruct x; simpl; intros; try tauto; lia. Qed.

Lemma skip_ws_length (s : pystr) :
  (List.length (skip_ws s) <= List.length s)%nat.
Proof.
  induction s as [|c s IH]; simpl; [lia|].
  destruct (is_ws c); simpl; lia.
Qed.

Lemma scan_units_sound (s : pystr) :
  forall acc, sound_on s (scan_units acc s).
Proof.
  induction s as [s IH] using (well_founded_induction
    (Wf_nat.well_founded_ltof _ (@List.length N))).
  unfold Wf_nat.ltof in IH.
  intros acc. destruct s as [|c rest]; simpl; [exact I|].
  destruct (c =? 34)%N; [simpl; lia|].
  destruct (c =? 92)%N.
  - destruct rest as [|e rest']; [exact I|].
    destruct (e =? 117)%N.
    + destruct rest' as [|h1 [|h2 [|h3 [|h4 rest'']]]]; try exact I.
      destruct (hex4 h1 h2 h3 h4); [|exact I].
      eapply sound_on_longer; [apply IH|]; simpl; lia.
    + destruct (backslash e); [|exact I].
      eapply sound_on_longer; [apply IH|]; simpl; lia.
  - destruct (c <? 32)%N; [exact I|].
    eapply sound_on_longer; [apply IH|]; simpl; lia.
Qed.

Lemma scanstring_sound (s : pystr) : sound_on s (scanstring s).
Proof.
  unfold scanstring. pose proof (scan_units_sound s []) as H.
  destruct (scan_units [] s); exact H.
Qed.

Lemma span_digits_length (s : pystr) :
  (List.length (snd (span_digits s)) <= List.length s)%nat.
Proof.
  induction s as [|c s IH]; simpl; [lia|].
  destruct (is_digit c); [|simpl; lia].
  destruct (span_digits s) as [ds r]. simpl in *. lia.
Qed.

Ltac span_case s2 ds :=
  let L := fresh "L" in
  let r := fresh "r" in
  pose proof (span_digits_length s2) as L;
  destruct (span_digits s2) as [ds r]; simpl in L.

Lemma match_integer_length (s : pystr) neg ids r :
  match_integer s = Some (neg, ids, r) ->
  (List.length r < List.length s)%nat.
Proof.
  unfold match_integer.
  destruct s as [|c s']; [discriminate|].
  destruct (c =? 45)%N.
  - destruct s' as [|c' s2]; [discriminate|].
    destruct (c' =? 48)%N.
    + intros H; inversion H; subst; simpl; lia.
    + destruct (is_digit c'); [|discriminate].
      span_case s2 dd. intros H; inversion H; subst; simpl; lia.
  - destruct (c =? 48)%N.
    + intros H; inversion H; subst; simpl; lia.
    + destruct (is_digit c); [|discriminate].
      span_case s' dd. intros H; inversion H; subst; simpl; lia.
Qed.

Lemma match_frac_length (s : pystr) ds r :
  match_frac s = Some (ds, r) -> (List.length r <= List.length s)%nat.
Proof.
  unfold match_frac. destruct s as [|c s']; [discriminate|].
  destruct (c =? 46)%N; [|discriminate].
  span_case s' dd. destruct dd; [discriminate|].
  intros H; inversion H; subst; simpl; lia.
Qed.

Lemma match_exp_length (s : pystr) e r :
  match_exp s = Some (e, r) -> (List.length r <= List.length s)%nat.
Proof.
  unfold match_exp. destruct s as [|c s']; [discriminate|].
  destruct ((c =? 101) || (c =? 69))%N; [|discriminate].
  destruct s' as [|d s''].
  - simpl. discriminate.
  - destruct (d =? 45)%N; [|destruct (d =? 43)%N].
    + span_case s'' dd. destruct dd; [discriminate|].
      intros H; inversion H; subst; simpl; lia.
    + span_case s'' dd. destruct dd; [discriminate|].
      intros H; inversion H; subst; simpl; lia.
    + span_case (d :: s'') dd. destruct dd; [discriminate|].
      intros H; inversion H; subst; simpl in *; lia.
Qed.

Lemma match_number_length (s : pystr) v r :
  match_number s = Some (v, r) -> (List.length r < List.length s)%nat.
Proof.
  unfold match_number.
  destruct (match_integer s) as [[[neg ids] r0]|] eqn:Ei; [|discriminate].
  apply match_integer_length in Ei.
  assert (L1 : forall frac r1,
    match match_frac r0 with
    | Some (f, r) => (Some f, r)
    | None => (None, r0)
    end = (frac, r1) -> (List.length r1 <= List.length r0)%nat).
  { intros frac r1. destruct (match_frac r0) as [[f r']|] eqn:Ef.
    - apply match_frac_length in Ef. intros H; inversion H; subst; lia.
    - intros H; inversion H; subst; lia. }
  destruct (match match_frac r0 with
            | Some (f, r) => (Some f, r)
            | None => (None, r0)
            end) as [frac r1] eqn:E1.
  specialize (L1 _ _ eq_refl).
  assert (L2 : forall ex r2,
    match match_exp r1 with
    | Some (e, r) => (Some e, r)
    | None => (None, r1)
    end = (ex, r2) -> (List.length r2 <= List.length r1)%nat).
  { intros ex r2. destruct (match_exp r1) as [[e r']|] eqn:Ee.
    - apply match_exp_length in Ee. intros H; inversion H; subst; lia.
    - intros H; inversion H; subst; lia. }
  destruct (match match_exp r1 with
            | Some (e, r) => (Some e, r)
            | None => (None, r1)
            end) as [ex r2] eqn:E2.
  specialize (L2 _ _ eq_refl).
  destruct frac, ex; intros H; inversion H; subst; lia.
Qed.

Lemma literal_length (w : string) (v v' : pyval) (s r : pystr) :
  w <> EmptyString ->
  literal w v s = Some (v', r) -> (List.length r < List.length s)%nat.
Proof.
  unfold literal. intros Hw.
  destruct (startswith (str w) s) eqn:E; [|discriminate].
  intros H; inversion H; subst.
  destruct w as [|a w']; [congruence|].
  destruct s as [|c s']; [discriminate|].
  simpl. pose proof (length_skipn (String.length w') s'). lia.
Qed.

Lemma scan_atom_sound (s : pystr) : sound_on s (scan_atom s).
Proof.
  unfold scan_atom.
  repeat match goal with
  | |- context [literal ?w ?v s] =>
      let E := fresh "E" in
      destruct (literal w v s) as [[? ?]|] eqn:E;
      [ simpl; eapply literal_length in E; [exact E | discriminate] | ]
  | |- context [match_number s] =>
      let E := fresh "E" in
      destruct (match_number s) as [[? ?]|] eqn:E;
      [ simpl; eapply match_number_length in E; exact E | ]
  end.
  exact I.
Qed.

(** The three scanners never run out of fuel on a text short enough for
    it, and each value read consumes some text. *)
Lemma scan_fuel (fuel : nat) :
  (forall s, (2 * List.length s < fuel)%nat -> sound_on s (scan_once fuel s))
  /\ (forall pairs s, (2 * List.length s < fuel)%nat ->
        sound_on s (object_members fuel pairs s))
  /\ (forall items s, (2 * List.length s + 1 < fuel)%nat ->
        sound_on s (array_items fuel items s)).
Proof.
  induction fuel as [|fuel (IHv & IHo & IHa)].
  - repeat split; intros; lia.
  - repeat split.
    + intros s Hs. destruct s as [|c rest]; simpl; [exact I|].
      simpl in Hs.
      destruct (c =? 34)%N.
      { pose proof (scanstring_sound rest) as H.
        destruct (scanstring rest); simpl in *; try tauto; lia. }
      destruct (c =? 123)%N.
      { pose proof (skip_ws_length rest) as L.
        destruct (skip_ws rest) as [|d r]; [exact I|]. simpl in L.
        destruct (d =? 125)%N; [simpl; lia|].
        destruct (d =? 34)%N; [|exact I].
        eapply sound_on_longer; [apply IHo|]; simpl; lia. }
      destruct (c =? 91)%N.
      { pose proof (skip_ws_length rest) as L.
        destruct (skip_ws rest) as [|d r]; [exact I|]. simpl in L.
        destruct (d =? 93)%N; [simpl; lia|].
        eapply sound_on_longer; [apply IHa|]; simpl; lia. }
      apply scan_atom_sound.
    + intros pairs s Hs. simpl.
      pose proof (scanstring_sound s) as H.
      destruct (scanstring s) as [key r| |]; simpl in H; try tauto.
      pose proof (skip_ws_length r) as L.
      destruct (skip_ws r) as [|c r1]; [exact I|]. simpl in L.
      destruct (c =? 58)%N; [|exact I].
      pose proof (skip_ws_length r1) as L1.
      assert (Hv : sound_on (skip_ws r1) (scan_once fuel (skip_ws r1)))
        by (apply IHv; lia).
      destruct (scan_once fuel (skip_ws r1)) as [v r2| |]; simpl in Hv;
        try tauto.
      pose proof (skip_ws_length r2) as L2.
      destruct (skip_ws r2) as [|d r3]; [exact I|]. simpl in L2.
      destruct (d =? 125)%N; [simpl; lia|].
      destruct (d =? 44)%N; [|exact I].
      pose proof (skip_ws_length r3) as L3.
      destruct (skip_ws r3) as [|q r4]; [exact I|]. simpl in L3.
      destruct (q =? 34)%N; [|exact I].
      eapply sound_on_longer; [apply IHo|]; simpl; lia.
    + intros items s Hs. simpl.
      assert (Hv : sound_on s (scan_once fuel s)) by (apply IHv; lia).
      destruct (scan_once fuel s) as [v r| |]; simpl in Hv; try tauto.
      pose proof (skip_ws_length r) as L.
      destruct (skip_ws r) as [|d r1]; [exact I|]. simpl in L.
      destruct (d =? 93)%N; [simpl; lia|].
      destruct (d =? 44)%N; [|exact I].
      pose proof (skip_ws_length r1) as L1.
      eapply sound_on_longer; [apply IHa|]; simpl; lia.
Qed.

(** [json_loads] never fails for want of fuel. *)
Lemma json_loads_fuel (s : pystr) :
  scan_once (fuel_for s) (skip_ws s) <> OutOfFuel.
Proof.
  pose proof (skip_ws_length s) as L.
  destruct (scan_fuel (fuel_for s)) as (H & _ & _).
  specialize (H (skip_ws s)). unfold fuel_for in *.
  intros E. rewrite E in H. apply H. lia.
Qed.

End JsonFacts.

(* ================================================================== *)
(** * Properties of the record store *)
(* ================================================================== *)

Module DatabaseFacts.
Import Database.

Lemma shapes_give_invariant (r : row) :
  pending_shape r \/ completed_shape r -> state_invariant r.
Proof.
  intros [(Hs & Hr & Hc) | (Hs & Hr & Hc)]; unfold state_invariant;
    rewrite Hs.
  - split; split.
    + intros E. apply (f_equal (@List.length N)) in E. discriminate.
    + intros [[E|E] _]; congruence.
    + auto.
    + reflexivity.
  - split; split.
    + auto.
    + reflexivity.
    + intros E. apply (f_equal (@List.length N)) in E. discriminate.
    + intros [E _]. destruct Hr; congruence.
Qed.

Lemma execute_insert_appends (p : insert_params) (t t' : table) :
  execute_insert p t = Some t' ->
  exists r, t' = t ++ [r] /\ id r = p_id p /\ p_text p = Some (text r)
            /\ p_captured_at p = Some (captured_at r) /\ more r = p_more p
            /\ pending_shape r /\ classification_reason r = SqlNull.
Proof.
  unfold execute_insert.
  destruct (p_text p) as [x|]; [|discriminate].
  destruct (p_captured_at p) as [c|]; [|discriminate].
  destruct (match p_id p with Some i => has_id i t | None => false end);
    [discriminate|].
  intros E. inversion E. eexists. split; [reflexivity|].
  simpl. unfold pending_shape. simpl. repeat split; reflexivity.
Qed.

Section StoreFacts.

Variable json_dumps : pyval -> pystr.

(** The loop only appends rows, all of them pending. *)
Lemma store_loop_appends (clock : nat -> pystr) (tweets : list tweet) :
  forall k counts work,
  exists added,
    snd (store_loop json_dumps clock k tweets counts work) = work ++ added
    /\ Forall pending_shape added.
Proof.
  induction tweets as [|tw rest IH]; intros k counts work; simpl.
  - exists []. now rewrite app_nil_r.
  - destruct (insert_values json_dumps (clock k) tw) as [p|e].
    + destruct (execute_insert p work) as [work'|] eqn:E.
      * apply execute_insert_appends in E
          as (r & -> & _ & _ & _ & _ & Hp & _).
        destruct (IH (S k)
          {| inserted := inserted counts + 1;
             duplicates := duplicates counts |} (work ++ [r]))
          as (added & -> & Hadd).
        exists (r :: added). rewrite <- app_assoc. split; [reflexivity|].
        now constructor.
      * apply IH.
    + exists []. simpl. now rewrite app_nil_r.
Qed.

Lemma store_tweets_appends (clock : nat -> pystr) (tweets : list tweet)
  (t : table) :
  exists added,
    snd (store_tweets json_dumps clock tweets t) = t ++ added
    /\ Forall pending_shape added.
Proof.
  unfold store_tweets. destruct tweets as [|tw rest].
  - exists []. simpl. now rewrite app_nil_r.
  - unfold transaction.
    destruct (store_loop_appends clock (tw :: rest) 0
                {| inserted := 0; duplicates := 0 |} t) as (added & E & H).
    destruct (store_loop json_dumps clock 0 (tw :: rest)
                {| inserted := 0; duplicates := 0 |} t) as [[c|e] work];
      simpl in *.
    + now exists added.
    + exists []. now rewrite app_nil_r.
Qed.

End StoreFacts.

Lemma flag_cases (b : bool) : flag b = 1%Z \/ flag b = 0%Z.
Proof. destruct b; auto. Qed.

(** What [update_classification] leaves behind: the table itself when the
    reason cannot be bound, the updated rows otherwise. *)
Lemma update_classification_cases (now : pystr) (tweet_id : option pystr)
  (approved reason : pyval) (t : table) :
  (exists e, bind_param reason = Raise e
     /\ update_classification now tweet_id approved reason t = (Raise e, t))
  \/ (exists rs, bind_param reason = Ok rs
        /\ update_classification now tweet_id approved reason t
           = (Ok tt, map (set_classification now tweet_id
                            (flag (Py.truthy approved)) rs) t)).
Proof.
  unfold update_classification, transaction.
  destruct (bind_param reason) as [rs|e]; [right|left]; eauto.
Qed.

Lemma set_classification_cases (now : pystr) (tweet_id : option pystr)
  (v : Z) (rs : sqlval) (r : row) :
  set_classification now tweet_id v rs r = r
  \/ (tweet_id = id r /\ id r <> None
      /\ set_classification now tweet_id v rs r
         = {| id := id r; text := text r; captured_at := captured_at r;
              more := more r;
              classification_status := str "completed";
              classification_result := Some v;
              classification_reason := rs;
              classified_at := Some now |}).
Proof.
  unfold set_classification.
  destruct tweet_id as [i|]; [|now left].
  destruct (id r) as [j|] eqn:Ej; [|now left].
  destruct (PyStr.eqb i j) eqn:E; [|now left].
  apply PyStrFacts.eqb_eq in E. subst. right. repeat split; congruence.
Qed.

Lemma set_classification_shape (now : pystr) (tweet_id : option pystr)
  (b : bool) (rs : sqlval) (r : row) :
  pending_shape r \/ completed_shape r ->
  pending_shape (set_classification now tweet_id (flag b) rs r)
  \/ completed_shape (set_classification now tweet_id (flag b) rs r).
Proof.
  intros H.
  destruct (set_classification_cases now tweet_id (flag b) rs r)
    as [-> | (_ & _ & ->)]; [exact H|].
  right. unfold completed_shape. simpl. repeat split.
  - destruct b; auto.
  - discriminate.
Qed.

Lemma reachable_shapes (t : table) :
  reachable t -> Forall (fun r => pending_shape r \/ completed_shape r) t.
Proof.
  induction 1 as [|jd clock tweets t _ IH|now tid a reason t _ IH].
  - constructor.
  - destruct (store_tweets_appends jd clock tweets t) as (added & -> & H).
    apply Forall_app. split; [exact IH|].
    eapply Forall_impl; [|exact H]. auto.
  - destruct (update_classification_cases now tid a reason t)
      as [(e & _ & ->) | (rs & _ & ->)]; simpl; [exact IH|].
    apply Forall_map. eapply Forall_impl; [|exact IH].
    intros r. apply set_classification_shape.
Qed.

(** C2.  In every table reachable through [store_tweets] and
    [update_classification], each record satisfies the state invariant:
    its status is completed exactly when its result is 1 or 0 and its
    classification time is set, and pending exactly when both are NULL.
    In particular the invariant holds after any further
    [update_classification]. *)
Theorem state_invariant_reachable (t : table) :
  reachable t ->
  Forall state_invariant t
  /\ forall now tweet_id approved reason,
       Forall state_invariant
         (snd (update_classification now tweet_id approved reason t)).
Proof.
  intros H. split.
  - eapply Forall_impl; [|exact (reachable_shapes t H)].
    apply shapes_give_invariant.
  - intros now tid a reason.
    eapply Forall_impl;
      [|exact (reachable_shapes _ (reach_update now tid a reason t H))].
    apply shapes_give_invariant.
Qed.

(** ** Ids *)

Lemma id_set_classification (now : pystr) (tweet_id : option pystr)
  (v : Z) (rs : sqlval) (r : row) :
  id (set_classification now tweet_id v rs r) = id r.
Proof.
  destruct (set_classification_cases now tweet_id v rs r)
    as [-> | (_ & _ & ->)]; reflexivity.
Qed.

Lemma ids_app (t t' : table) : ids (t ++ t') = ids t ++ ids t'.
Proof. unfold ids. apply flat_map_app. Qed.

Lemma ids_set_classification (now : pystr) (tweet_id : option pystr)
  (v : Z) (rs : sqlval) (t : table) :
  ids (map (set_classification now tweet_id v rs) t) = ids t.
Proof.
  induction t as [|r t IH]; simpl; [reflexivity|].
  unfold ids in *. simpl. now rewrite id_set_classification, IH.
Qed.

Lemma has_id_In (i : pystr) (t : table) :
  has_id i t = true <-> In i (ids t).
Proof.
  unfold has_id, ids. induction t as [|r t IH]; simpl.
  - split; [discriminate | tauto].
  - rewrite orb_true_iff, in_app_iff, IH.
    destruct (id r) as [j|]; simpl.
    + rewrite PyStrFacts.eqb_eq. intuition congruence.
    + intuition congruence.
Qed.

Lemma has_id_set_classification (i : pystr) (now : pystr)
  (tweet_id : option pystr) (v : Z) (rs : sqlval) (t : table) :
  has_id i (map (set_classification now tweet_id v rs) t) = has_id i t.
Proof.
  apply eq_true_iff_eq.
  now rewrite !has_id_In, ids_set_classification.
Qed.



Lemma execute_insert_pk (p : insert_params) (t t' : table) :
  pk_unique t -> execute_insert p t = Some t' -> pk_unique t'.
Proof.
  unfold execute_insert, pk_unique. intros Hu.
  destruct (p_text p) as [x|]; [|discriminate].
  destruct (p_captured_at p) as [c|]; [|discriminate].
  destruct (p_id p) as [i|] eqn:Ei.
  - destruct (has_id i t) eqn:Eh; [discriminate|].
    intros E. inversion E. rewrite ids_app. unfold ids at 2. simpl.
    apply NoDup_app; [exact Hu | repeat constructor; simpl; tauto |].
    intros a Ha [<-|[]].
    apply has_id_In in Ha. congruence.
  - intros E. inversion E. rewrite ids_app. unfold ids at 2. simpl.
    now rewrite app_nil_r.
Qed.

Lemma store_loop_pk (json_dumps : pyval -> pystr) (clock : nat -> pystr)
  (tweets : list tweet) :
  forall k counts work,
  pk_unique work ->
  pk_unique (snd (store_loop json_dumps clock k tweets counts work)).
Proof.
  induction tweets as [|tw rest IH]; intros k counts work Hu; simpl;
    [exact Hu|].
  destruct (insert_values json_dumps (clock k) tw) as [p|e]; [|exact Hu].
  destruct (execute_insert p work) as [work'|] eqn:E.
  - apply IH. eapply execute_insert_pk; eauto.
  - now apply IH.
Qed.

Lemma store_tweets_pk (json_dumps : pyval -> pystr) (clock : nat -> pystr)
  (tweets : list tweet) (t : table) :
  pk_unique t -> pk_unique (snd (store_tweets json_dumps clock tweets t)).
Proof.
  intros Hu. unfold store_tweets. destruct tweets as [|tw rest];
    [exact Hu|].
  unfold transaction.
  pose proof (store_loop_pk json_dumps clock (tw :: rest) 0
                {| inserted := 0; duplicates := 0 |} t Hu) as H.
  destruct (store_loop json_dumps clock 0 (tw :: rest)
              {| inserted := 0; duplicates := 0 |} t) as [[c|e] work];
    simpl in *; assumption.
Qed.

Lemma update_classification_ids (now : pystr) (tweet_id : option pystr)
  (approved reason : pyval) (t : table) :
  ids (snd (update_classification now tweet_id approved reason t)) = ids t.
Proof.
  destruct (update_classification_cases now tweet_id approved reason t)
    as [(e & _ & ->) | (rs & _ & ->)]; simpl; [reflexivity|].
  apply ids_set_classification.
Qed.

(** Every reachable table respects the key. *)
Lemma reachable_pk_unique (t : table) : reachable t -> pk_unique t.
Proof.
  induction 1 as [|jd clock tweets t _ IH|now tid a reason t _ IH].
  - constructor.
  - now apply store_tweets_pk.
  - unfold pk_unique. now rewrite update_classification_ids.
Qed.

(** ** Deduplication *)



(** ** Partial tweets *)







(** A text that is present but [None] is not a missing key: the INSERT
    fails on the NOT NULL constraint, which the loop counts as a
    duplicate, and the other tweets of the call are stored. *)
Lemma store_tweets_null_text_counts_as_duplicate :
  let null_text :=
    {| tw_id := Val (str "t3"); tw_text := Null; tw_created_at := None;
       tw_captured_at := Absent; tw_author := None; tw_metrics := None;
       tw_reply_to := None; tw_is_retweet := false; tw_is_quote := false;
       tw_quoted_tweet_id := None; tw_media := None; tw_urls := None;
       tw_hashtags := None; tw_mentions := None |} in
  store_tweets Examples.dumps Examples.clock [Examples.sunset; null_text] []
  = (Ok {| inserted := 1; duplicates := 1 |}, Examples.one_pending).
Proof. reflexivity. Qed.

(** ** Rows that an update leaves alone *)

Lemma In_ids (r : row) (i : pystr) (t : table) :
  In r t -> id r = Some i -> In i (ids t).
Proof.
  intros Hin Hid. unfold ids. apply in_flat_map. exists r.
  split; [exact Hin|]. rewrite Hid. simpl. auto.
Qed.

(** Under the key constraint an id names one row. *)
Lemma pk_unique_same_id (t : table) (r p : row) (i : pystr) :
  pk_unique t -> In r t -> In p t -> id r = Some i -> id p = Some i ->
  r = p.
Proof.
  unfold pk_unique. induction t as [|a t IH]; intros Hu Hr Hp Ir Ip;
    [inversion Hr|].
  change (ids (a :: t)) with
    (match id a with Some j => [j] | None => [] end ++ ids t) in Hu.
  assert (Hut : NoDup (ids t)) by (eapply NoDup_app_remove_l; exact Hu).
  assert (Hhead : forall q, In q t -> id q = Some i -> id a = Some i ->
                            False).
  { intros q Hq Iq Ia. rewrite Ia in Hu. simpl in Hu.
    inversion Hu; subst. eauto using In_ids. }
  destruct Hr as [<-|Hr], Hp as [<-|Hp]; auto.
  - exfalso. eauto.
  - exfalso. eauto.
Qed.

Lemma set_classification_other (now : pystr) (tweet_id : option pystr)
  (v : Z) (rs : sqlval) (r : row) :
  tweet_id = None \/ tweet_id <> id r ->
  set_classification now tweet_id v rs r = r.
Proof.
  intros H.
  destruct (set_classification_cases now tweet_id v rs r)
    as [E | (E & N & _)]; [exact E|].
  destruct H; congruence.
Qed.

Lemma update_classification_keeps_row (now : pystr)
  (tweet_id : option pystr) (approved reason : pyval) (t : table)
  (n : nat) (r : row) :
  nth_error t n = Some r ->
  tweet_id = None \/ tweet_id <> id r ->
  nth_error (snd (update_classification now tweet_id approved reason t)) n
  = Some r.
Proof.
  intros Hn Hid.
  destruct (update_classification_cases now tweet_id approved reason t)
    as [(e & _ & ->) | (rs & _ & ->)]; simpl; [exact Hn|].
  rewrite nth_error_map, Hn. simpl.
  now rewrite set_classification_other.
Qed.

(** An update never brings a completed row back to pending, nor changes
    what the row holds of the tweet. *)
Lemma update_classification_keeps_completed (now : pystr)
  (tweet_id : option pystr) (approved reason : pyval) (t : table)
  (n : nat) (r : row) :
  nth_error t n = Some r ->
  classification_status r = str "completed" ->
  exists r',
    nth_error (snd (update_classification now tweet_id approved reason t)) n
    = Some r'
    /\ classification_status r' = str "completed"
    /\ id r' = id r /\ text r' = text r
    /\ captured_at r' = captured_at r /\ more r' = more r.
Proof.
  intros Hn Hs.
  destruct (update_classification_cases now tweet_id approved reason t)
    as [(e & _ & ->) | (rs & _ & ->)]; simpl.
  - exists r. repeat split; assumption || reflexivity.
  - rewrite nth_error_map, Hn. simpl. eexists. split; [reflexivity|].
    destruct (set_classification_cases now tweet_id
                (flag (Py.truthy approved)) rs r) as [-> | (_ & _ & ->)];
      simpl; repeat split; assumption || reflexivity.
Qed.

Lemma store_tweets_keeps_row (json_dumps : pyval -> pystr)
  (clock : nat -> pystr) (tweets : list tweet) (t : table)
  (n : nat) (r : row) :
  nth_error t n = Some r ->
  nth_error (snd (store_tweets json_dumps clock tweets t)) n = Some r.
Proof.
  intros Hn.
  destruct (store_tweets_appends json_dumps clock tweets t)
    as (added & -> & _).
  rewrite nth_error_app1; [exact Hn|].
  apply nth_error_Some. congruence.
Qed.

(** ** What an update does to the number of pending rows *)

Lemma map_set_classification_absent (now : pystr) (i : pystr) (v : Z)
  (rs : sqlval) (t : table) :
  ~ In i (ids t) -> map (set_classification now (Some i) v rs) t = t.
Proof.
  induction t as [|r t IH]; intros Hn; [reflexivity|]. cbn [map].
  change (ids (r :: t)) with
    (match id r with Some j => [j] | None => [] end ++ ids t) in Hn.
  rewrite IH by (intros H; apply Hn, in_or_app; now right).
  rewrite set_classification_other; [reflexivity|].
  right. intros E. apply Hn, in_or_app. left. rewrite <- E. simpl. auto.
Qed.



(** ** The pending rows, as [get_pending_tweets] returns them *)

Lemma insert_desc_In (x r : row) (l : list row) :
  In x (insert_desc r l) <-> x = r \/ In x l.
Proof.
  induction l as [|y l IH]; simpl.
  - intuition congruence.
  - destruct (PyStr.compare (captured_at r) (captured_at y)); simpl;
      try rewrite IH; intuition congruence.
Qed.

Lemma insert_desc_length (r : row) (l : list row) :
  List.length (insert_desc r l) = S (List.length l).
Proof.
  induction l as [|y l IH]; simpl; [reflexivity|].
  destruct (PyStr.compare (captured_at r) (captured_at y)); simpl;
    now rewrite ?IH.
Qed.

Lemma order_by_In (x : row) (l : list row) :
  In x (order_by_captured_at_desc l) <-> In x l.
Proof.
  unfold order_by_captured_at_desc. induction l as [|y l IH]; simpl;
    [tauto|].
  rewrite insert_desc_In, IH. intuition congruence.
Qed.

Lemma order_by_length (l : list row) :
  List.length (order_by_captured_at_desc l) = List.length l.
Proof.
  unfold order_by_captured_at_desc. induction l as [|y l IH]; simpl;
    [reflexivity|].
  now rewrite insert_desc_length, IH.
Qed.

Lemma sql_limit_In {A : Type} (n : Z) (x : A) (l : list A) :
  In x (sql_limit n l) -> In x l.
Proof.
  unfold sql_limit. destruct (n <? 0)%Z; [auto|]. intros H.
  rewrite <- (firstn_skipn (Z.to_nat n) l). apply in_or_app. now left.
Qed.

Lemma get_pending_tweets_In (n : Z) (t : table) (r : row) :
  In r (get_pending_tweets n t) -> In r t /\ is_pending r = true.
Proof.
  unfold get_pending_tweets. intros H.
  apply sql_limit_In, order_by_In, filter_In in H. exact H.
Qed.

(** A fetch of [n >= 0] rows returns [n] rows when that many are
    pending. *)
Lemma get_pending_tweets_length (n : Z) (t : table) :
  (0 <= n <= count is_pending t)%Z ->
  List.length (get_pending_tweets n t) = Z.to_nat n.
Proof.
  unfold get_pending_tweets, sql_limit, count. intros H.
  destruct (n <? 0)%Z eqn:E; [apply Z.ltb_lt in E; lia|].
  rewrite length_firstn, order_by_length. lia.
Qed.


(** ** Witnesses *)

Lemma state_invariant_reachable_witness :
  reachable Examples.one_approved
  /\ Forall state_invariant Examples.one_approved
  /\ forall now tweet_id approved reason,
       Forall state_invariant
         (snd (update_classification now tweet_id approved reason
                 Examples.one_approved)).
Proof.
  assert (H : reachable Examples.one_approved).
  { unfold Examples.one_approved, Examples.one_pending.
    apply reach_update, reach_store, reach_empty. }
  split; [exact H|].
  exact (state_invariant_reachable Examples.one_approved H).
Defined.


End DatabaseFacts.

(* ================================================================== *)
(** * Properties of the classifier *)
(* ================================================================== *)

Module ClassifierFacts.
Import Database Classifier DatabaseFacts.

(** ** The response parser *)

(** C1 fails on the code.  A reply in which the brace-delimited part is
    not JSON makes the second [json.loads] raise, and nothing catches it;
    a reply that is JSON but not an object makes [result.get] raise.  In
    both cases [classify_tweet] raises instead of returning its default,
    and the exception ends the whole run. *)
Theorem classify_tweet_raises_on_malformed_reply :
  (forall (system_prompt model : pystr) (n : nat) (tweet : row),
     classify_tweet Examples.unquoted system_prompt model n tweet
     = Raise JSONDecodeError)
  /\ (forall (system_prompt model : pystr) (n : nat) (tweet : row),
        classify_tweet Examples.bare_true system_prompt model n tweet
        = Raise AttributeError)
  /\ run_outcome (run_classifier Examples.unquoted Examples.clock [] []
                    Examples.api_key 10 None false Examples.two_pending)
     = Raised JSONDecodeError.
Proof.
  split; [intros; reflexivity|]. split; [intros; reflexivity|].
  vm_compute. reflexivity.
Qed.

(** When the text is not JSON and has no brace-delimited part, the parser
    returns: by keyword, or else approved with the first hundred
    characters of the stripped text in the reason. *)
Lemma parse_response_without_braces (text : pystr) :
  let content := PyStr.strip text in
  let low := PyStr.lower content in
  Json.json_loads content = None ->
  re_search content = None ->
  parse_response text =
    if PyStr.contains (str "approved") low && PyStr.contains (str "true") low
    then Ok (PBool true, PStr (str "LLM indicated approval"))
    else if PyStr.contains (str "approved") low
            && PyStr.contains (str "false") low
    then Ok (PBool false, PStr (str "LLM indicated rejection"))
    else Ok (PBool true,
             PStr (str "Could not parse response, defaulting to approved: "
                   ++ firstn 100 content)).
Proof.
  intros content low Hj Hr. unfold parse_response.
  fold content. rewrite Hj, Hr. reflexivity.
Qed.

(** The parser raises exactly when the value it decodes is not an object,
    or when the brace-delimited part does not decode. *)
Lemma parse_response_raises_iff (text : pystr) :
  let content := PyStr.strip text in
  (exists e, parse_response text = Raise e) <->
  (exists v, Json.json_loads content = Some v
             /\ forall d, v <> PDict d)
  \/ (Json.json_loads content = None
      /\ exists m, re_search content = Some m
                   /\ (Json.json_loads m = None
                       \/ exists v, Json.json_loads m = Some v
                                    /\ forall d, v <> PDict d)).
Proof.
  intros content. unfold parse_response. fold content.
  assert (R : forall v, (exists e, read_result v = Raise e)
                        <-> forall d, v <> PDict d).
  { intros v. unfold read_result, Py.get, bind_result. split.
    - intros [e E] d ->.
      destruct (Py.dict_lookup (str "approved") d);
        destruct (Py.dict_lookup (str "reason") d); discriminate.
    - intros H. destruct v; eauto. exfalso. now apply (H entries). }
  destruct (Json.json_loads content) as [v|].
  - rewrite R. split.
    + intros H. left. exists v. split; [reflexivity | exact H].
    + intros [(v' & E & H) | (E & _)]; [|discriminate].
      inversion E. now subst.
  - destruct (re_search content) as [m|].
    + destruct (Json.json_loads m) as [v|] eqn:Em.
      * rewrite R. split.
        -- intros H. right. split; [reflexivity|]. exists m.
           split; [reflexivity|]. right. exists v. split; assumption.
        -- intros [(v' & E & _) | (_ & m' & Em' & [E | (v' & E & H)])];
             [discriminate | |]; inversion Em'; subst m'; rewrite Em in E;
             [discriminate|].
           inversion E. now subst.
      * split; [|eauto].
        intros _. right. split; [reflexivity|]. exists m. auto.
    + split.
      * intros [e E].
        destruct (PyStr.contains (str "approved") (PyStr.lower content)
                  && PyStr.contains (str "true") (PyStr.lower content));
          [discriminate|].
        destruct (PyStr.contains (str "approved") (PyStr.lower content)
                  && PyStr.contains (str "false") (PyStr.lower content));
          discriminate.
      * intros [(v' & E & _) | (_ & m' & Em & _)]; discriminate.
Qed.

(** ** The limit *)

(** C8 fails on the code.  With [max_tweets = 0] the test [if max_tweets]
    is false, the limit is the number of pending records, and the run
    classifies and commits them all: here the one pending record of the
    table is approved. *)
Theorem run_classifier_max_zero_processes_all :
  let r := run_classifier Examples.approving Examples.clock [] []
             Examples.api_key 10 (Some 0%Z) false Examples.one_pending in
  run_outcome r
  = Complete 1 1 0
      (Some {| total := 1; pending := 0; approved := 1; filtered := 0 |})
  /\ map classification_status (run_table r) = [str "completed"]
  /\ map classification_status Examples.one_pending = [str "pending"].
Proof. vm_compute. repeat split; reflexivity. Qed.

(** A maximum of 0 is no maximum. *)
Lemma max_zero_is_no_maximum (client : nat -> pystr -> pystr -> pystr -> api_reply)
  (clock : nat -> pystr) (system_prompt model : pystr)
  (api_key : option pystr) (batch_size : Z) (dry_run : bool) (t : table) :
  run_classifier client clock system_prompt model api_key batch_size
    (Some 0%Z) dry_run t
  = run_classifier client clock system_prompt model api_key batch_size
      None dry_run t.
Proof. reflexivity. Qed.

(** ** What the loop touches *)

Lemma call_events_are_calls (n : nat) (tweets : list row) :
  Forall is_model_call (call_events n tweets).
Proof.
  revert n; induction tweets as [|tw rest IH]; intros n; simpl;
    constructor; simpl; auto.
Qed.

Section RunFacts.

Variable client : nat -> pystr -> pystr -> pystr -> api_reply.
Variable clock : nat -> pystr.
Variable system_prompt : pystr.
Variable model : pystr.

Lemma classify_batch_frame (tweets : list row) :
  forall st r st',
  classify_batch client system_prompt model tweets st = (r, st') ->
  tbl st' = tbl st /\ processed st' = processed st
  /\ approved_count st' = approved_count st
  /\ filtered_count st' = filtered_count st
  /\ ticks st' = ticks st
  /\ exists k,
       (k <= List.length tweets)%nat
       /\ trace st' = trace st ++ call_events (calls st) (firstn k tweets)
       /\ calls st' = (calls st + k)%nat
       /\ forall results,
            r = Ok results ->
            k = List.length tweets /\ map result_id results = map id tweets.
Proof.
  induction tweets as [|tw rest IH]; intros st r st' E; simpl in E.
  - inversion E; subst.
    do 5 (split; [reflexivity|]).
    exists 0%nat. simpl. rewrite app_nil_r, Nat.add_0_r.
    do 3 (split; [reflexivity || lia|]).
    intros results H; inversion H; split; reflexivity.
  - destruct (classify_tweet client system_prompt model (calls st) tw)
      as [[approved reason]|e].
    + destruct (classify_batch client system_prompt model rest
                  (called (log (EvModelCall (calls st) tw) st)))
        as [r1 st1] eqn:E1.
      apply IH in E1 as (Ht & Hp & Ha & Hf & Hk & k & Hle & Htr & Hc & Hok).
      simpl in *.
      assert (st' = st1 /\
              r = match r1 with
                  | Ok results => Ok ((id tw, approved, reason) :: results)
                  | Raise e => Raise e
                  end) as [-> ->].
      { destruct r1; inversion E; auto. }
      do 5 (split; [assumption|]).
      exists (S k). simpl. rewrite Htr, <- app_assoc. simpl.
      split; [lia|]. split; [reflexivity|]. split; [lia|].
      destruct r1 as [results1|e]; intros results H; inversion H; subst.
      destruct (Hok results1 eq_refl) as [-> Hm]. simpl.
      now rewrite Hm.
    + inversion E; subst. simpl.
      do 5 (split; [reflexivity|]).
      exists 1%nat. simpl.
      split; [lia|]. split; [reflexivity|]. split; [lia|].
      intros results H; discriminate.
Qed.

Lemma save_results_frame (dry_run : bool)
  (results : list (option pystr * pyval * pyval)) :
  forall st r st',
  save_results clock dry_run results st = (r, st') ->
  processed st' = processed st /\ calls st' = calls st
  /\ ids (tbl st') = ids (tbl st)
  /\ (exists ext, trace st' = trace st ++ ext /\ Forall is_commit ext
                  /\ (dry_run = true -> ext = []))
  /\ (dry_run = true -> tbl st' = tbl st /\ ticks st' = ticks st).
Proof.
  induction results as [|[[tid approved] reason] rest IH];
    intros st r st' E; simpl in E.
  - inversion E; subst.
    do 3 (split; [reflexivity|]).
    split; [|auto].
    exists []. rewrite app_nil_r. auto.
  - destruct dry_run.
    + apply IH in E as (Hp & Hc & Hi & (ext & Ht & Hf & He) & Hd).
      simpl in *.
      do 3 (split; [assumption|]).
      split; [|exact Hd].
      exists ext. auto.
    + destruct (update_classification (clock (ticks st)) tid approved reason
                  (tbl st)) as [u t1] eqn:Eu.
      assert (Hids : ids t1 = ids (tbl st)).
      { pose proof (update_classification_ids (clock (ticks st)) tid
                      approved reason (tbl st)) as H.
        now rewrite Eu in H. }
      destruct u as [[]|e].
      * apply IH in E as (Hp & Hc & Hi & (ext & Ht & Hf & He) & Hd).
        simpl in *.
        do 3 (split; [congruence|]).
        split; [|discriminate].
        exists (EvCommit tid approved reason :: ext).
        rewrite Ht, <- app_assoc. simpl.
        split; [reflexivity|]. split; [|discriminate].
        constructor; simpl; auto.
      * inversion E; subst. simpl.
        do 3 (split; [reflexivity || assumption|]).
        split; [|discriminate].
        exists [EvCommit tid approved reason].
        split; [reflexivity|]. split; [|discriminate].
        constructor; simpl; auto.
Qed.

(** The loop ends within its fuel. *)
Lemma batch_loop_finishes (batch_size limit : Z) (dry_run : bool)
  (fuel : nat) :
  forall st,
  (limit - processed st <= Z.of_nat fuel)%Z ->
  fst (batch_loop client clock system_prompt model fuel batch_size limit
         dry_run st) <> Unfinished.
Proof.
  induction fuel as [|fuel IH]; intros st Hfuel; simpl.
  - destruct (processed st <? limit)%Z eqn:E; [|discriminate].
    apply Z.ltb_lt in E. simpl in Hfuel. lia.
  - destruct (processed st <? limit)%Z eqn:E; [|discriminate].
    set (fc := Z.min batch_size (limit - processed st)).
    destruct (get_pending_tweets fc (tbl st)) as [|tw rest] eqn:Ef;
      [discriminate|].
    destruct (batch_size =? 0)%Z; [discriminate|].
    destruct (classify_batch client system_prompt model (tw :: rest)
                (log (EvFetch fc (tw :: rest)) st)) as [r1 st1] eqn:E1.
    apply classify_batch_frame in E1 as (_ & Hp1 & _).
    destruct r1 as [results|e]; [|discriminate].
    destruct (save_results clock dry_run results st1) as [r2 st2] eqn:E2.
    apply save_results_frame in E2 as (Hp2 & _).
    destruct r2 as [[]|e]; [|discriminate].
    apply IH. simpl in *. lia.
Qed.

(** A dry run leaves the table alone and commits nothing. *)
Lemma batch_loop_dry (batch_size limit : Z) (fuel : nat) :
  forall st o st',
  batch_loop client clock system_prompt model fuel batch_size limit true st
    = (o, st') ->
  tbl st' = tbl st
  /\ exists ext, trace st' = trace st ++ ext
                 /\ Forall (fun ev => ~ is_commit ev) ext.
Proof.
  induction fuel as [|fuel IH]; intros st o st' E; simpl in E.
  - assert (st' = st) as ->.
    { destruct (processed st <? limit)%Z; inversion E; reflexivity. }
    split; [reflexivity|]. exists []. now rewrite app_nil_r.
  - destruct (processed st <? limit)%Z.
    2:{ inversion E; subst. split; [reflexivity|].
        exists []. now rewrite app_nil_r. }
    set (fc := Z.min batch_size (limit - processed st)) in *.
    assert (Hfetch : ~ is_commit (EvFetch fc (get_pending_tweets fc (tbl st))))
      by (simpl; tauto).
    destruct (get_pending_tweets fc (tbl st)) as [|tw rest] eqn:Ef.
    { inversion E; subst. simpl. split; [reflexivity|].
      exists [EvFetch fc []]. split; [reflexivity|]. now constructor. }
    destruct (batch_size =? 0)%Z.
    { inversion E; subst. simpl. split; [reflexivity|].
      exists [EvFetch fc (tw :: rest)]. split; [reflexivity|].
      now constructor. }
    destruct (classify_batch client system_prompt model (tw :: rest)
                (log (EvFetch fc (tw :: rest)) st)) as [r1 st1] eqn:E1.
    apply classify_batch_frame in E1
      as (Ht1 & _ & _ & _ & _ & k & _ & Htr1 & _).
    simpl in Ht1, Htr1.
    assert (Hcalls : Forall (fun ev => ~ is_commit ev)
                       (call_events (calls st) (firstn k (tw :: rest)))).
    { eapply Forall_impl; [|apply call_events_are_calls].
      intros [] H; simpl in *; tauto. }
    destruct r1 as [results|e].
    2:{ inversion E; subst. split; [assumption|].
        eexists. rewrite Htr1, <- app_assoc. split; [reflexivity|].
        simpl. now constructor. }
    destruct (save_results clock true results st1) as [r2 st2] eqn:E2.
    apply save_results_frame in E2
      as (_ & _ & _ & (ext2 & Htr2 & _ & Hnil) & Hdry).
    destruct (Hdry eq_refl) as [Ht2 _]. rewrite (Hnil eq_refl) in Htr2.
    rewrite app_nil_r in Htr2.
    destruct r2 as [[]|e].
    2:{ inversion E; subst. split; [congruence|].
        eexists. rewrite Htr2, Htr1, <- app_assoc. split; [reflexivity|].
        simpl. now constructor. }
    apply IH in E as (Ht & ext & Htr & Hext). simpl in Ht, Htr.
    split; [congruence|].
    eexists. rewrite Htr, Htr2, Htr1, <- !app_assoc.
    split; [reflexivity|]. simpl. constructor; [assumption|].
    apply Forall_app. now split.
Qed.

(** The loop of [run_classifier] always ends. *)
Lemma run_classifier_finishes (api_key : option pystr) (batch_size : Z)
  (max_tweets : option Z) (dry_run : bool) (t : table) :
  run_outcome (run_classifier client clock system_prompt model api_key
                 batch_size max_tweets dry_run t) <> Unfinished.
Proof.
  destruct api_key as [[|c k]|]; try discriminate.
  unfold run_classifier. cbv beta iota zeta.
  destruct (pending (get_stats t) =? 0)%Z; [discriminate|].
  set (limit := limit_of max_tweets (pending (get_stats t))).
  set (st0 := {| tbl := t; processed := 0; approved_count := 0;
                 filtered_count := 0; calls := 0; ticks := 0;
                 trace := [EvStats (get_stats t)] |}).
  pose proof (batch_loop_finishes batch_size limit dry_run (Z.to_nat limit)
                st0) as H.
  destruct (batch_loop client clock system_prompt model (Z.to_nat limit)
              batch_size limit dry_run st0) as [o st'].
  simpl in H.
  assert (Ho : o <> Unfinished) by (apply H; lia).
  destruct o; try destruct dry_run; simpl; congruence.
Qed.

(** C4.  A dry run never changes the record store, whatever the table, the
    batch size, the maximum, the key and the replies of the model: the
    table after the run is the table before it, so are the counts of
    [get_stats], and the run makes no call of [update_classification]. *)
Theorem dry_run_leaves_store_unchanged (api_key : option pystr)
  (batch_size : Z) (max_tweets : option Z) (t : table) :
  let r := run_classifier client clock system_prompt model api_key
             batch_size max_tweets true t in
  run_table r = t
  /\ get_stats (run_table r) = get_stats t
  /\ Forall (fun ev => ~ is_commit ev) (run_trace r).
Proof.
  assert (H : let r := run_classifier client clock system_prompt model
                         api_key batch_size max_tweets true t in
              run_table r = t
              /\ Forall (fun ev => ~ is_commit ev) (run_trace r)).
  { destruct api_key as [[|c k]|];
      [simpl; split; [reflexivity | constructor] |
      | simpl; split; [reflexivity | constructor]].
    unfold run_classifier. cbv beta iota zeta.
    destruct (pending (get_stats t) =? 0)%Z.
    { split; [reflexivity|]. constructor; [simpl; tauto | constructor]. }
    set (limit := limit_of max_tweets (pending (get_stats t))).
    set (st0 := {| tbl := t; processed := 0; approved_count := 0;
                   filtered_count := 0; calls := 0; ticks := 0;
                   trace := [EvStats (get_stats t)] |}).
    destruct (batch_loop client clock system_prompt model (Z.to_nat limit)
                batch_size limit true st0) as [o st'] eqn:E.
    apply batch_loop_dry in E as (Ht & ext & Htr & Hext).
    simpl in Ht, Htr.
    assert (Hall : Forall (fun ev => ~ is_commit ev) (trace st')).
    { rewrite Htr. constructor; [simpl; tauto | assumption]. }
    destruct o; simpl; auto. }
  simpl in *. destruct H as [Ht Hc].
  split; [exact Ht|]. split; [now rewrite Ht | exact Hc].
Qed.

(** The loop only adds to the trace. *)
Lemma batch_loop_extends (batch_size limit : Z) (dry_run : bool)
  (fuel : nat) :
  forall st o st',
  batch_loop client clock system_prompt model fuel batch_size limit dry_run
    st = (o, st') ->
  exists ext, trace st' = trace st ++ ext.
Proof.
  induction fuel as [|fuel IH]; intros st o st' E; simpl in E.
  - assert (st' = st) as ->.
    { destruct (processed st <? limit)%Z; inversion E; reflexivity. }
    exists []. now rewrite app_nil_r.
  - destruct (processed st <? limit)%Z.
    2:{ inversion E; subst. exists []. now rewrite app_nil_r. }
    set (fc := Z.min batch_size (limit - processed st)) in *.
    destruct (get_pending_tweets fc (tbl st)) as [|tw rest] eqn:Ef.
    { inversion E; subst. simpl. eauto. }
    destruct (batch_size =? 0)%Z.
    { inversion E; subst. simpl. eauto. }
    destruct (classify_batch client system_prompt model (tw :: rest)
                (log (EvFetch fc (tw :: rest)) st)) as [r1 st1] eqn:E1.
    apply classify_batch_frame in E1
      as (_ & _ & _ & _ & _ & k & _ & Htr1 & _).
    simpl in Htr1.
    destruct r1 as [results|e].
    2:{ inversion E; subst. rewrite Htr1, <- app_assoc. eauto. }
    destruct (save_results clock dry_run results st1) as [r2 st2] eqn:E2.
    apply save_results_frame in E2 as (_ & _ & _ & (ext2 & Htr2 & _) & _).
    destruct r2 as [[]|e].
    2:{ inversion E; subst. rewrite Htr2, Htr1, <- !app_assoc. eauto. }
    apply IH in E as (ext & Htr). simpl in Htr.
    rewrite Htr, Htr2, Htr1, <- !app_assoc. eauto.
Qed.

(** ** Batch sizes that are not positive *)

(** With batch size 0 the first fetch asks for no record. *)
Lemma batch_loop_zero (limit : Z) (dry_run : bool) (st : state) :
  processed st = 0%Z ->
  batch_loop client clock system_prompt model (Z.to_nat limit) 0 limit
    dry_run st
  = if (0 <? limit)%Z
    then (Complete 0 (approved_count st) (filtered_count st) None,
          log (EvFetch 0 []) st)
    else (Complete 0 (approved_count st) (filtered_count st) None, st).
Proof.
  intros Hp. destruct (0 <? limit)%Z eqn:E.
  - apply Z.ltb_lt in E.
    destruct (Z.to_nat limit) as [|fuel] eqn:Ef; [lia|].
    simpl. rewrite Hp. apply Z.ltb_lt in E. rewrite E.
    apply Z.ltb_lt in E.
    replace (Z.min 0 (limit - 0)) with 0%Z by lia.
    reflexivity.
  - destruct (Z.to_nat limit); simpl; rewrite Hp, E; reflexivity.
Qed.

(** C7, amended.  A batch size that is not positive is not rejected: the
    run queries the stats as for any other.  With batch size 0 the first
    fetch asks for, and gets, no record; the run then ends normally with
    nothing processed, no model call, no commit, and the table as it was. *)
Theorem nonpositive_batch_size_is_not_rejected (c : N) (k : pystr)
  (batch_size : Z) (max_tweets : option Z) (dry_run : bool) (t : table) :
  (batch_size <= 0)%Z ->
  let r := run_classifier client clock system_prompt model (Some (c :: k))
             batch_size max_tweets dry_run t in
  (exists rest, run_trace r = EvStats (get_stats t) :: rest)
  /\ (batch_size = 0%Z ->
      run_table r = t
      /\ Forall (fun ev => ~ is_model_call ev /\ ~ is_commit ev)
           (run_trace r)
      /\ (run_outcome r = NoPending
          \/ exists s, run_outcome r = Complete 0 0 0 s)).
Proof.
  intros Hb. cbv zeta. unfold run_classifier. cbv beta iota zeta.
  set (limit := limit_of max_tweets (pending (get_stats t))).
  set (st0 := {| tbl := t; processed := 0; approved_count := 0;
                 filtered_count := 0; calls := 0; ticks := 0;
                 trace := [EvStats (get_stats t)] |}).
  split.
  - destruct (pending (get_stats t) =? 0)%Z; [simpl; eauto|].
    destruct (batch_loop client clock system_prompt model (Z.to_nat limit)
                batch_size limit dry_run st0) as [o st'] eqn:E.
    apply batch_loop_extends in E as (ext & Htr). simpl in Htr.
    destruct o; try destruct dry_run; simpl; rewrite Htr; simpl; eauto.
  - intros ->.
    destruct (pending (get_stats t) =? 0)%Z.
    { simpl. split; [reflexivity|]. split; [|now left].
      constructor; [simpl; tauto | constructor]. }
    rewrite (batch_loop_zero limit dry_run st0 eq_refl).
    destruct (0 <? limit)%Z; destruct dry_run; simpl;
      (split; [reflexivity|]); (split; [|right; eauto]);
      repeat (constructor; [simpl; tauto|]); constructor.
Qed.

End RunFacts.

Lemma nonpositive_batch_size_is_not_rejected_witness :
  (0 <= 0)%Z
  /\ let r := run_classifier Examples.approving Examples.clock [] []
                (Some (str "sk-test")) 0 None false Examples.one_pending in
     (exists rest, run_trace r = EvStats (get_stats Examples.one_pending)
                                 :: rest)
     /\ (0%Z = 0%Z ->
         run_table r = Examples.one_pending
         /\ Forall (fun ev => ~ is_model_call ev /\ ~ is_commit ev)
              (run_trace r)
         /\ (run_outcome r = NoPending
             \/ exists s, run_outcome r = Complete 0 0 0 s)).
Proof.
  split; [lia|].
  exact (nonpositive_batch_size_is_not_rejected Examples.approving
           Examples.clock [] [] 115%N (str "k-test") 0 None false
           Examples.one_pending (Z.le_refl 0)).
Defined.

(** C7, as stated, fails: nothing in [run_classifier] looks at the sign of
    the batch size.  With batch size 0 and a pending record the run
    queries the stats, fetches, and ends normally; with batch size -1 the
    fetch has no limit, and both pending records are classified and
    committed, although the maximum is 1. *)
Lemma nonpositive_batch_size_is_accepted :
  let zero := run_classifier Examples.approving Examples.clock [] []
                Examples.api_key 0 None false Examples.one_pending in
  let minus_one := run_classifier Examples.approving Examples.clock [] []
                     Examples.api_key (-1) (Some 1%Z) false
                     Examples.two_pending in
  ~ rejected_before_work zero
  /\ run_outcome zero
     = Complete 0 0 0
         (Some {| total := 1; pending := 1; approved := 0; filtered := 0 |})
  /\ List.length (run_trace zero) = 3%nat
  /\ ~ rejected_before_work minus_one
  /\ run_outcome minus_one
     = Complete 2 2 0
         (Some {| total := 2; pending := 0; approved := 2; filtered := 0 |})
  /\ map classification_status (run_table minus_one)
     = [str "completed"; str "completed"].
Proof.
  cbv zeta.
  assert (E0 : run_outcome
                 (run_classifier Examples.approving Examples.clock [] []
                    Examples.api_key 0 None false Examples.one_pending)
               = Complete 0 0 0
                   (Some {| total := 1; pending := 1; approved := 0;
                            filtered := 0 |})) by (vm_compute; reflexivity).
  assert (E1 : run_outcome
                 (run_classifier Examples.approving Examples.clock [] []
                    Examples.api_key (-1) (Some 1%Z) false
                    Examples.two_pending)
               = Complete 2 2 0
                   (Some {| total := 2; pending := 0; approved := 2;
                            filtered := 0 |})) by (vm_compute; reflexivity).
  split; [intros [[e He] _]; rewrite E0 in He; discriminate|].
  split; [exact E0|].
  split; [vm_compute; reflexivity|].
  split; [intros [[e He] _]; rewrite E1 in He; discriminate|].
  split; [exact E1|].
  vm_compute; reflexivity.
Qed.

(** ** Completed records *)

Lemma completed_not_pending (r : row) :
  classification_status r = str "completed" -> is_pending r = false.
Proof. unfold is_pending. now intros ->. Qed.

Section Terminal.

Variable client : nat -> pystr -> pystr -> pystr -> api_reply.
Variable clock : nat -> pystr.
Variable system_prompt : pystr.
Variable model : pystr.

Lemma save_results_keeps_row (dry_run : bool) (n : nat) (r : row)
  (results : list (option pystr * pyval * pyval)) :
  Forall (fun x => result_id x = None \/ result_id x <> id r) results ->
  forall st o st',
  save_results clock dry_run results st = (o, st') ->
  nth_error (tbl st) n = Some r ->
  nth_error (tbl st') n = Some r.
Proof.
  induction 1 as [|[[tid approved] reason] rest Hx _ IH];
    intros st o st' E Hn; simpl in E.
  - inversion E; subst. exact Hn.
  - destruct dry_run.
    + eapply IH; [exact E | exact Hn].
    + pose proof (update_classification_keeps_row (clock (ticks st)) tid
                    approved reason (tbl st) n r Hn Hx) as Hk.
      destruct (update_classification (clock (ticks st)) tid approved reason
                  (tbl st)) as [u t1].
      simpl in Hk. destruct u as [[]|e].
      * eapply IH; [exact E | exact Hk].
      * inversion E; subst. exact Hk.
Qed.

(** The rows a fetch returns cannot share the id of a row that is not
    pending. *)
Lemma fetched_ids_differ (k : Z) (t : table) (n : nat) (r : row) :
  pk_unique t -> nth_error t n = Some r -> is_pending r = false ->
  Forall (fun i => i = None \/ i <> id r)
    (map id (get_pending_tweets k t)).
Proof.
  intros Hu Hn Hp. apply Forall_map, Forall_forall. intros tw Hin.
  apply get_pending_tweets_In in Hin as [Hin Hpend].
  destruct (id tw) as [i|] eqn:Ei; [right|now left].
  intros E. symmetry in E.
  assert (r = tw).
  { eapply pk_unique_same_id; eauto using nth_error_In. }
  subst. congruence.
Qed.

Lemma batch_loop_keeps_row (batch_size limit : Z) (dry_run : bool)
  (n : nat) (r : row) (fuel : nat) :
  is_pending r = false ->
  forall st o st',
  pk_unique (tbl st) ->
  nth_error (tbl st) n = Some r ->
  batch_loop client clock system_prompt model fuel batch_size limit dry_run
    st = (o, st') ->
  nth_error (tbl st') n = Some r.
Proof.
  intros Hp. induction fuel as [|fuel IH]; intros st o st' Hu Hn E;
    simpl in E.
  - destruct (processed st <? limit)%Z; inversion E; subst; exact Hn.
  - destruct (processed st <? limit)%Z; [|inversion E; subst; exact Hn].
    set (fc := Z.min batch_size (limit - processed st)) in *.
    pose proof (fetched_ids_differ fc (tbl st) n r Hu Hn Hp) as Hids.
    destruct (get_pending_tweets fc (tbl st)) as [|tw rest] eqn:Ef;
      [inversion E; subst; exact Hn|].
    destruct (batch_size =? 0)%Z; [inversion E; subst; exact Hn|].
    destruct (classify_batch client system_prompt model (tw :: rest)
                (log (EvFetch fc (tw :: rest)) st)) as [r1 st1] eqn:E1.
    apply classify_batch_frame in E1
      as (Ht1 & _ & _ & _ & _ & k & _ & _ & _ & Hok).
    simpl in Ht1.
    destruct r1 as [results|e];
      [|inversion E; subst; now rewrite Ht1].
    destruct (Hok results eq_refl) as [_ Hmap].
    rewrite <- Hmap in Hids. apply Forall_map in Hids.
    destruct (save_results clock dry_run results st1) as [r2 st2] eqn:E2.
    assert (Hn2 : nth_error (tbl st2) n = Some r).
    { eapply save_results_keeps_row; eauto. now rewrite Ht1. }
    apply save_results_frame in E2 as (_ & _ & Hi2 & _).
    destruct r2 as [[]|e]; [|inversion E; subst; exact Hn2].
    eapply IH; [| |exact E]; simpl; [|exact Hn2].
    unfold pk_unique in *. now rewrite Hi2, Ht1.
Qed.

Lemma run_classifier_keeps_row (api_key : option pystr) (batch_size : Z)
  (max_tweets : option Z) (dry_run : bool) (t : table) (n : nat) (r : row) :
  pk_unique t -> nth_error t n = Some r -> is_pending r = false ->
  nth_error (run_table (run_classifier client clock system_prompt model
                          api_key batch_size max_tweets dry_run t)) n
  = Some r.
Proof.
  intros Hu Hn Hp.
  destruct api_key as [[|c k]|]; try exact Hn.
  unfold run_classifier. cbv beta iota zeta.
  destruct (pending (get_stats t) =? 0)%Z; [exact Hn|].
  set (limit := limit_of max_tweets (pending (get_stats t))).
  set (st0 := {| tbl := t; processed := 0; approved_count := 0;
                 filtered_count := 0; calls := 0; ticks := 0;
                 trace := [EvStats (get_stats t)] |}).
  destruct (batch_loop client clock system_prompt model (Z.to_nat limit)
              batch_size limit dry_run st0) as [o st'] eqn:E.
  apply (batch_loop_keeps_row batch_size limit dry_run n r _ Hp) in E;
    [|exact Hu|exact Hn].
  destruct o; try destruct dry_run; exact E.
Qed.

(** C9, amended.  Once a record is completed, under the key constraint:
    [store_tweets] and a run of the classifier leave its row exactly as it
    is, and so does [approve_all_pending]; [update_classification] keeps
    it completed and keeps its id and content. *)
Theorem completed_is_terminal (json_dumps : pyval -> pystr)
  (store_clock : nat -> pystr) (tweets : list tweet)
  (now : pystr) (tweet_id : option pystr) (approved reason : pyval)
  (api_key : option pystr) (batch_size : Z) (max_tweets : option Z)
  (dry_run : bool) (t : table) (n : nat) (r : row) :
  pk_unique t ->
  nth_error t n = Some r ->
  classification_status r = str "completed" ->
  nth_error (snd (store_tweets json_dumps store_clock tweets t)) n = Some r
  /\ nth_error (run_table (run_classifier client clock system_prompt model
                             api_key batch_size max_tweets dry_run t)) n
     = Some r
  /\ nth_error (snd (approve_all_pending now t)) n = Some r
  /\ exists r',
       nth_error (snd (update_classification now tweet_id approved reason t))
         n = Some r'
       /\ classification_status r' = str "completed"
       /\ id r' = id r /\ text r' = text r
       /\ captured_at r' = captured_at r /\ more r' = more r.
Proof.
  intros Hu Hn Hs.
  pose proof (completed_not_pending r Hs) as Hp.
  split; [now apply store_tweets_keeps_row|].
  split; [now apply run_classifier_keeps_row|].
  split; [|now apply update_classification_keeps_completed].
  unfold approve_all_pending. simpl.
  rewrite nth_error_map, Hn. simpl. now rewrite Hp.
Qed.

End Terminal.

(** C9, as stated, fails: the UPDATE of [update_classification] does not
    look at the status.  Called for a record that is already completed, it
    writes result, reason and time again. *)
Lemma update_classification_overwrites_completed :
  let t' := snd (update_classification (Examples.clock 9)
                   (Some (str "t1")) (PBool false)
                   (PStr (str "on second thought")) Examples.one_approved) in
  map classification_status Examples.one_approved = [str "completed"]
  /\ map classification_result Examples.one_approved = [Some 1%Z]
  /\ map classification_reason Examples.one_approved
     = [SqlText (str "positive content")]
  /\ map classified_at Examples.one_approved = [Some (Examples.clock 7)]
  /\ map classification_status t' = [str "completed"]
  /\ map classification_result t' = [Some 0%Z]
  /\ map classification_reason t' = [SqlText (str "on second thought")]
  /\ map classified_at t' = [Some (Examples.clock 9)]
  /\ Examples.clock 9 <> Examples.clock 7.
Proof. vm_compute. repeat split; try reflexivity. discriminate. Qed.

Lemma completed_is_terminal_witness :
  pk_unique Examples.one_approved
  /\ exists r,
       nth_error Examples.one_approved 0 = Some r
       /\ classification_status r = str "completed"
       /\ nth_error (snd (store_tweets Examples.dumps Examples.clock
                            [Examples.sunset_again] Examples.one_approved)) 0
          = Some r
       /\ nth_error (run_table (run_classifier Examples.approving
                                  Examples.clock [] [] Examples.api_key 10
                                  None false Examples.one_approved)) 0
          = Some r
       /\ nth_error (snd (approve_all_pending (Examples.clock 9)
                            Examples.one_approved)) 0 = Some r
       /\ exists r',
            nth_error (snd (update_classification (Examples.clock 9)
                              (Some (str "t1")) (PBool false) PNone
                              Examples.one_approved)) 0 = Some r'
            /\ classification_status r' = str "completed"
            /\ id r' = id r /\ text r' = text r
            /\ captured_at r' = captured_at r /\ more r' = more r.
Proof.
  assert (Hu : pk_unique Examples.one_approved).
  { apply reachable_pk_unique.
    unfold Examples.one_approved, Examples.one_pending.
    apply reach_update, reach_store, reach_empty. }
  split; [exact Hu|].
  eexists. split; [reflexivity|]. split; [reflexivity|].
  exact (completed_is_terminal Examples.approving Examples.clock [] []
           Examples.dumps Examples.clock [Examples.sunset_again]
           (Examples.clock 9) (Some (str "t1")) (PBool false) PNone
           Examples.api_key 10 None false Examples.one_approved 0 _
           Hu eq_refl eq_refl).
Defined.

(** ** Batches *)

Lemma encodable_app (a b : pystr) :
  encodable (a ++ b) = encodable a && encodable b.
Proof.
  unfold encodable. rewrite existsb_app. now destruct (existsb _ a).
Qed.

Lemma reply_saves_parses (rep : api_reply) :
  reply_saves rep -> reply_parses rep.
Proof.
  destruct rep; simpl; [|auto]. intros (a & re & rs & E & _). eauto.
Qed.



Lemma call_events_model_calls (n : nat) (tweets : list row) :
  model_calls (call_events n tweets) = tweets.
Proof.
  revert n; induction tweets as [|tw rest IH]; intros n; simpl;
    [reflexivity|]. now rewrite IH.
Qed.






Section Batches.

Variable client : nat -> pystr -> pystr -> pystr -> api_reply.
Variable clock : nat -> pystr.
Variable system_prompt : pystr.
Variable model : pystr.

Lemma classify_batch_ok (tweets : list row) :
  (forall n m s u, reply_parses (client n m s u)) ->
  forall st,
  exists results st',
    classify_batch client system_prompt model tweets st = (Ok results, st')
    /\ List.length results = List.length tweets
    /\ ((forall n m s u, reply_saves (client n m s u)) ->
        Forall bindable results).
Proof.
  intros Hp. induction tweets as [|tw rest IH]; intros st; simpl.
  - exists [], st. auto.
  - assert (Hc : exists approved reason,
               classify_tweet client system_prompt model (calls st) tw
               = Ok (approved, reason)
               /\ ((forall n m s u, reply_saves (client n m s u)) ->
                   exists rs, bind_param reason = Ok rs)).
    { unfold classify_tweet.
      set (msg := str "Classify this tweet:" ++ newline ++ newline
                  ++ format_tweet_for_classification tw).
      pose proof (Hp (calls st) model system_prompt msg) as H.
      destruct (client (calls st) model system_prompt msg) as [text|e] eqn:E.
      - destruct H as [[a re] H]. exists a, re. split; [exact H|].
        intros Hs. specialize (Hs (calls st) model system_prompt msg).
        rewrite E in Hs. destruct Hs as (a' & re' & rs & E' & Hb).
        rewrite H in E'. inversion E'; subst. eauto.
      - do 2 eexists. split; [reflexivity|].
        intros Hs. specialize (Hs (calls st) model system_prompt msg).
        rewrite E in Hs. unfold reply_saves in Hs. cbn [bind_param].
        rewrite encodable_app, Hs. eexists. reflexivity. }
    destruct Hc as (approved & reason & -> & Hb).
    destruct (IH (called (log (EvModelCall (calls st) tw) st)))
      as (results & st' & -> & Hlen & Hall).
    exists ((id tw, approved, reason) :: results), st'.
    split; [reflexivity|]. split; [simpl; congruence|].
    intros Hs. constructor; [exact (Hb Hs) | exact (Hall Hs)].
Qed.




Lemma limit_of_le (max_tweets : option Z) (p : Z) :
  (limit_of max_tweets p <= p)%Z.
Proof.
  unfold limit_of. destruct max_tweets as [m|]; [|lia].
  destruct (m =? 0)%Z; lia.
Qed.





End Batches.





End ClassifierFacts.

(* ================================================================== *)
(** * More about the record store *)
(* ================================================================== *)

Module StoreProps.
Import Database DatabaseMore DatabaseFacts.

Section Accounting.

Variable json_dumps : pyval -> pystr.




(** ** Sending the same tweets again *)








End Accounting.

End StoreProps.

(* ================================================================== *)
(** * More about the queries *)
(* ================================================================== *)

Module OrderFacts.
Import Database DatabaseMore.
Import Permutation Sorted.

(** ** The two orders *)

Lemma compare_refl (a : pystr) : PyStr.compare a a = Eq.
Proof.
  induction a as [|x a IH]; simpl; [reflexivity|].
  now rewrite N.compare_refl.
Qed.

Lemma compare_eq (a b : pystr) : PyStr.compare a b = Eq -> a = b.
Proof.
  revert b. induction a as [|x a IH]; intros [|y b]; simpl;
    try discriminate; [reflexivity|].
  destruct (N.compare x y) eqn:E; try discriminate.
  apply N.compare_eq in E. intros H. f_equal; auto.
Qed.

Lemma compare_antisym (a b : pystr) :
  PyStr.compare b a = CompOpp (PyStr.compare a b).
Proof.
  revert b. induction a as [|x a IH]; intros [|y b]; simpl;
    try reflexivity.
  rewrite (N.compare_antisym x y).
  destruct (N.compare x y); simpl; auto.
Qed.

Lemma compare_lt_trans (a b c : pystr) :
  PyStr.compare a b = Lt -> PyStr.compare b c = Lt ->
  PyStr.compare a c = Lt.
Proof.
  revert b c. induction a as [|x a IH]; intros [|y b] [|z c]; simpl;
    try discriminate; try reflexivity.
  destruct (N.compare x y) eqn:Exy; try discriminate;
    destruct (N.compare y z) eqn:Eyz; try discriminate; intros H1 H2.
  - apply N.compare_eq in Exy, Eyz. subst. rewrite N.compare_refl. eauto.
  - apply N.compare_eq in Exy. subst. now rewrite Eyz.
  - apply N.compare_eq in Eyz. subst. now rewrite Exy.
  - rewrite N.compare_lt_iff in *.
    assert (E : (x < z)%N) by lia.
    apply N.compare_lt_iff in E. now rewrite E.
Qed.

Lemma compare_created_eq (a b : option pystr) :
  compare_created a b = Eq -> a = b.
Proof.
  destruct a, b; simpl; try discriminate; [|reflexivity].
  intros H. f_equal. now apply compare_eq.
Qed.

Lemma compare_created_antisym (a b : option pystr) :
  compare_created b a = CompOpp (compare_created a b).
Proof. destruct a, b; simpl; auto using compare_antisym. Qed.

Lemma compare_created_lt_trans (a b c : option pystr) :
  compare_created a b = Lt -> compare_created b c = Lt ->
  compare_created a c = Lt.
Proof.
  destruct a, b, c; simpl; try discriminate; try reflexivity.
  apply compare_lt_trans.
Qed.

(** ** Sorting by insertion, for any comparison of rows *)

Section Sort.

Variable c : row -> row -> comparison.
Hypothesis c_eq : forall a b, c a b = Eq -> c b a = Eq.
Hypothesis c_antisym : forall a b, c b a = CompOpp (c a b).
Hypothesis c_lt_trans :
  forall a b d, c a b = Lt -> c b d = Lt -> c a d = Lt.
Hypothesis c_eq_lt : forall a b d, c a b = Eq -> c b d = Lt -> c a d = Lt.
Hypothesis c_lt_eq : forall a b d, c a b = Lt -> c b d = Eq -> c a d = Lt.

Definition not_before (a b : row) : Prop := c a b <> Lt.

Fixpoint insert_by (r : row) (l : list row) : list row :=
  match l with
  | [] => [r]
  | x :: l' =>
      match c r x with
      | Lt => x :: insert_by r l'
      | _ => r :: l
      end
  end.

Definition sort_by (l : list row) : list row := fold_right insert_by [] l.

Lemma not_before_trans (a b d : row) :
  not_before a b -> not_before b d -> not_before a d.
Proof.
  unfold not_before. intros Hab Hbd Had.
  assert (Hda : c d a = Gt) by (rewrite c_antisym, Had; reflexivity).
  destruct (c b d) eqn:Ebd; [| congruence |].
  - (* b = d *)
    apply Hab. eapply c_lt_eq; [exact Had|]. now apply c_eq.
  - (* b > d, so d < b *)
    assert (Hdb : c d b = Lt) by (rewrite c_antisym, Ebd; reflexivity).
    apply Hab. eapply c_lt_trans; eauto.
Qed.

Lemma insert_by_perm (r : row) (l : list row) :
  Permutation (insert_by r l) (r :: l).
Proof.
  induction l as [|x l IH]; simpl; [apply Permutation_refl|].
  destruct (c r x); try apply Permutation_refl.
  eapply Permutation_trans; [apply perm_skip, IH | apply perm_swap].
Qed.

Lemma sort_by_perm (l : list row) : Permutation (sort_by l) l.
Proof.
  induction l as [|x l IH]; simpl; [apply Permutation_refl|].
  eapply Permutation_trans; [apply insert_by_perm | now apply perm_skip].
Qed.





End Sort.

Lemma StronglySorted_firstn {A : Type} (R : A -> A -> Prop) (n : nat)
  (l : list A) :
  StronglySorted R l -> StronglySorted R (firstn n l).
Proof.
  intros H. revert n. induction H as [|x l Hs IH Hx]; intros [|n]; simpl;
    try constructor; [apply IH|].
  apply Forall_forall. intros y Hy. rewrite Forall_forall in Hx. apply Hx.
  rewrite <- (firstn_skipn n l). apply in_or_app. now left.
Qed.

Lemma StronglySorted_skipn {A : Type} (R : A -> A -> Prop) (n : nat)
  (l : list A) :
  StronglySorted R l -> StronglySorted R (skipn n l).
Proof.
  intros H. revert n. induction H as [|x l Hs IH Hx]; intros [|n]; simpl;
    try constructor; auto.
Qed.

(** ** The two sorts of the store are such sorts *)

Definition by_captured (a b : row) : comparison :=
  PyStr.compare (captured_at a) (captured_at b).

Definition by_created (a b : row) : comparison :=
  compare_created (created_at (more a)) (created_at (more b)).

Lemma order_by_captured_at_desc_sort (l : list row) :
  order_by_captured_at_desc l = sort_by by_captured l.
Proof.
  unfold order_by_captured_at_desc, sort_by.
  induction l as [|x l IH]; simpl; [reflexivity|]. rewrite IH.
  generalize (fold_right (insert_by by_captured) [] l). intros m.
  induction m as [|y m IHm]; simpl; [reflexivity|].
  unfold by_captured at 1. now rewrite IHm.
Qed.





Lemma by_created_antisym (a b : row) :
  by_created b a = CompOpp (by_created a b).
Proof. apply compare_created_antisym. Qed.

Lemma by_created_lt_trans (a b d : row) :
  by_created a b = Lt -> by_created b d = Lt -> by_created a d = Lt.
Proof. apply compare_created_lt_trans. Qed.

Lemma by_created_eq (a b : row) :
  by_created a b = Eq -> by_created b a = Eq.
Proof.
  unfold by_created. intros H. apply compare_created_eq in H. rewrite H.
  destruct (created_at (more b)); simpl; [apply compare_refl | reflexivity].
Qed.

Lemma by_created_lt_eq (a b d : row) :
  by_created a b = Lt -> by_created b d = Eq -> by_created a d = Lt.
Proof.
  unfold by_created. intros H E. apply compare_created_eq in E.
  now rewrite <- E.
Qed.

Lemma insert_created_desc_perm (r : row) (l : list row) :
  Permutation (insert_created_desc r l) (r :: l).
Proof.
  induction l as [|x l IH]; simpl; [apply Permutation_refl|].
  destruct (compare_created _ _); try apply Permutation_refl;
    (eapply Permutation_trans; [apply perm_skip, IH | apply perm_swap]).
Qed.

Lemma order_by_created_perm (l : list row) :
  Permutation (order_by_created_at_desc l) l.
Proof.
  unfold order_by_created_at_desc.
  induction l as [|x l IH]; simpl; [apply Permutation_refl|].
  eapply Permutation_trans;
    [apply insert_created_desc_perm | now apply perm_skip].
Qed.

Lemma created_not_before_trans (a b d : row) :
  created_not_before a b -> created_not_before b d ->
  created_not_before a d.
Proof.
  exact (not_before_trans by_created by_created_eq by_created_antisym
           by_created_lt_trans by_created_lt_eq a b d).
Qed.

Lemma insert_created_desc_sorted (r : row) (l : list row) :
  StronglySorted created_not_before l ->
  StronglySorted created_not_before (insert_created_desc r l).
Proof.
  induction 1 as [|x l Hs IH Hx]; simpl.
  - constructor; constructor.
  - assert (Hkeep : compare_created (created_at (more r))
                      (created_at (more x)) <> Gt ->
              StronglySorted created_not_before
                (x :: insert_created_desc r l)).
    { intros Hn. constructor; [exact IH|].
      apply Forall_forall. intros y Hy.
      apply (Permutation_in _ (insert_created_desc_perm r l)) in Hy.
      destruct Hy as [<-|Hy].
      - unfold created_not_before.
        rewrite compare_created_antisym.
        destruct (compare_created (created_at (more r))
                    (created_at (more x))); simpl; congruence.
      - rewrite Forall_forall in Hx. auto. }
    destruct (compare_created (created_at (more r)) (created_at (more x)))
      eqn:E; try (apply Hkeep; congruence).
    constructor; [now constructor|].
    assert (Hrx : created_not_before r x)
      by (unfold created_not_before; congruence).
    constructor; [exact Hrx|].
    eapply Forall_impl; [|exact Hx]. intros y.
    now apply created_not_before_trans.
Qed.

Lemma order_by_created_sorted (l : list row) :
  StronglySorted created_not_before (order_by_created_at_desc l).
Proof.
  unfold order_by_created_at_desc.
  induction l as [|x l IH]; simpl;
    [constructor | now apply insert_created_desc_sorted].
Qed.

End OrderFacts.

Module QueryProps.
Import Database DatabaseMore DatabaseFacts OrderFacts.
Import Permutation Sorted.

(** ** Counting *)

Lemma count_cons (p : row -> bool) (r : row) (t : table) :
  count p (r :: t) = ((if p r then 1 else 0) + count p t)%Z.
Proof. unfold count. simpl. destruct (p r); simpl List.length; lia. Qed.

Lemma count_app (p : row -> bool) (t t' : table) :
  count p (t ++ t') = (count p t + count p t')%Z.
Proof. unfold count. rewrite filter_app, length_app. lia. Qed.

Lemma count_nonneg (p : row -> bool) (t : table) : (0 <= count p t)%Z.
Proof. unfold count. lia. Qed.

Lemma shape_cases (r : row) :
  pending_shape r \/ completed_shape r ->
  (is_pending r = true /\ result_is 1 r = false /\ result_is 0 r = false)
  \/ (is_pending r = false /\ result_is 1 r = true /\ result_is 0 r = false)
  \/ (is_pending r = false /\ result_is 1 r = false /\ result_is 0 r = true).
Proof.
  unfold pending_shape, completed_shape, is_pending, result_is.
  intros [(S & R & _) | (S & [R|R] & _)]; rewrite S, R; auto.
Qed.

(** ** The pending rows, in order *)



(** ** What an update touches *)

Lemma content_set_classification (now : pystr) (tweet_id : option pystr)
  (v : Z) (rs : sqlval) (r : row) :
  content (set_classification now tweet_id v rs r) = content r.
Proof.
  destruct (set_classification_cases now tweet_id v rs r)
    as [-> | (_ & _ & ->)]; reflexivity.
Qed.

Lemma map_content_set_classification (now : pystr)
  (tweet_id : option pystr) (v : Z) (rs : sqlval) (t : table) :
  map content (map (set_classification now tweet_id v rs) t)
  = map content t.
Proof.
  rewrite map_map. apply map_ext. intros r.
  apply content_set_classification.
Qed.

Lemma update_classification_content (now : pystr)
  (tweet_id : option pystr) (approved reason : pyval) (t : table) :
  map content (snd (update_classification now tweet_id approved reason t))
  = map content t.
Proof.
  destruct (update_classification_cases now tweet_id approved reason t)
    as [(e & _ & ->) | (rs & _ & ->)]; simpl; [reflexivity|].
  apply map_content_set_classification.
Qed.


Lemma split_update (now : pystr) (i : pystr) (v : Z) (rs : sqlval)
  (t : table) (r : row) :
  pk_unique t -> In r t -> id r = Some i ->
  exists l1 l2,
    t = l1 ++ r :: l2
    /\ map (set_classification now (Some i) v rs) t
       = l1 ++ set_classification now (Some i) v rs r :: l2.
Proof.
  intros Hu Hin Hid. destruct (in_split r t Hin) as (l1 & l2 & ->).
  exists l1, l2. split; [reflexivity|].
  unfold pk_unique in Hu. rewrite ids_app in Hu.
  change (ids (r :: l2)) with
    (match id r with Some j => [j] | None => [] end ++ ids l2) in Hu.
  rewrite Hid in Hu. simpl in Hu.
  pose proof (NoDup_remove_2 _ _ _ Hu) as Hn.
  rewrite map_app. cbn [map].
  rewrite !map_set_classification_absent;
    [reflexivity | |]; intros H; apply Hn, in_or_app; auto.
Qed.

Lemma update_one_pending (now : pystr) (i : pystr)
  (approved reason : pyval) (rs : sqlval) (t : table) (r : row) :
  pk_unique t -> In r t -> id r = Some i -> pending_shape r ->
  bind_param reason = Ok rs ->
  let out := update_classification now (Some i) approved reason t in
  let b := Py.truthy approved in
  fst out = Ok tt
  /\ get_stats (snd out)
     = {| total := total (get_stats t);
          pending := pending (get_stats t) - 1;
          approved := Database.approved (get_stats t) + flag b;
          filtered := filtered (get_stats t) + (1 - flag b) |}.
Proof.
  intros Hu Hin Hid Hp Hb. cbv zeta.
  destruct (update_classification_cases now (Some i) approved reason t)
    as [(e & Hb' & _) | (rs' & Hb' & ->)]; [congruence|].
  assert (rs' = rs) by congruence. subst rs'. simpl fst. simpl snd.
  split; [reflexivity|].
  destruct (split_update now i (flag (Py.truthy approved)) rs t r Hu Hin Hid)
    as (l1 & l2 & Ht & ->).
  assert (Eset : set_classification now (Some i) (flag (Py.truthy approved))
                   rs r
                 = {| id := id r; text := text r;
                      captured_at := captured_at r; more := more r;
                      classification_status := str "completed";
                      classification_result :=
                        Some (flag (Py.truthy approved));
                      classification_reason := rs;
                      classified_at := Some now |}).
  { unfold set_classification. rewrite Hid, PyStrFacts.eqb_refl.
    reflexivity. }
  rewrite Eset. subst t. unfold get_stats. rewrite !length_app. cbn [List.length].
    rewrite !count_app, !count_cons.
    destruct (shape_cases r (or_introl Hp)) as [(P & A & F)|[(P & _)|(P & _)]];
      [| unfold pending_shape, is_pending in *; destruct Hp as (S & _);
         rewrite S in P; discriminate ..].
    rewrite P, A, F.
    match goal with
    | |- context [is_pending ?x] =>
        change (is_pending x) with false;
        change (result_is 1 x) with (flag (Py.truthy approved) =? 1)%Z;
        change (result_is 0 x) with (flag (Py.truthy approved) =? 0)%Z
    end.
    cbn [total pending Database.approved filtered].
    destruct (Py.truthy approved); unfold flag;
      cbn [Z.eqb Pos.eqb]; f_equal; lia.
Qed.


(** ** An update, then the pending rows *)





(** ** Approving everything, and the statistics *)



(** X9.  On every table that [store_tweets] and [update_classification]
    can produce, the counts of [get_stats] add up: each record is counted
    as pending, as approved or as filtered, and as one of them only. *)
Theorem get_stats_adds_up (t : table) :
  reachable t ->
  let s := get_stats t in
  total s = (pending s + approved s + filtered s)%Z
  /\ (0 <= pending s)%Z /\ (0 <= approved s)%Z /\ (0 <= filtered s)%Z.
Proof.
  intros H. cbv zeta. unfold get_stats. simpl.
  split; [|repeat split; apply count_nonneg].
  apply reachable_shapes in H.
  induction H as [|r t Hr _ IH]; [reflexivity|].
  rewrite !count_cons. cbn [List.length].
  destruct (shape_cases r Hr) as [(P & A & F)|[(P & A & F)|(P & A & F)]];
    rewrite P, A, F; lia.
Qed.

(** ** The approved rows, by page *)

Lemma skipn_In {A : Type} (n : nat) (x : A) (l : list A) :
  In x (skipn n l) -> In x l.
Proof.
  intros H. rewrite <- (firstn_skipn n l). apply in_or_app. now right.
Qed.

Lemma select_approved_In (limit offset : Z) (t : table) (r : row) :
  In r (select_approved limit offset t) ->
  In r t /\ result_is 1 r = true.
Proof.
  unfold select_approved, sql_offset. intros H.
  apply sql_limit_In, skipn_In in H.
  apply (Permutation_in _ (order_by_created_perm _)) in H.
  now apply filter_In in H.
Qed.

Lemma result_is_1 (r : row) :
  result_is 1 r = true <-> classification_result r = Some 1%Z.
Proof.
  unfold result_is. destruct (classification_result r) as [z|].
  - rewrite Z.eqb_eq. split; congruence.
  - split; discriminate.
Qed.

(** X10.  [get_approved_tweets(limit, offset)], for integers of 64 bits,
    returns rows of the table whose result is 1, latest creation first
    and rows without creation time last; at most [limit] rows when the
    limit is not negative; and every approved row, once, when the limit
    is negative and the offset is not positive. *)
Theorem get_approved_tweets_page (limit offset : Z) (t : table) :
  int64 limit = true -> int64 offset = true ->
  exists page,
    get_approved_tweets limit offset t = Ok page
    /\ StronglySorted created_not_before page
    /\ (forall r, In r page ->
                  In r t /\ classification_result r = Some 1%Z)
    /\ ((0 <= limit)%Z -> (Z.of_nat (List.length page) <= limit)%Z)
    /\ ((limit < 0)%Z -> (offset <= 0)%Z ->
        Permutation page (filter (result_is 1) t)).
Proof.
  intros Hl Ho. exists (select_approved limit offset t).
  unfold get_approved_tweets. rewrite Hl, Ho.
  split; [reflexivity|]. split; [|split; [|split]].
  - unfold select_approved, sql_limit, sql_offset.
    destruct (limit <? 0)%Z; [|apply StronglySorted_firstn];
      apply StronglySorted_skipn, order_by_created_sorted.
  - intros r Hr. apply select_approved_In in Hr as [Hin H1].
    split; [exact Hin | now apply result_is_1].
  - intros H. unfold select_approved, sql_limit.
    destruct (limit <? 0)%Z eqn:E; [apply Z.ltb_lt in E; lia|].
    rewrite length_firstn. lia.
  - intros H H0. unfold select_approved, sql_limit, sql_offset.
    apply Z.ltb_lt in H. rewrite H.
    replace (Z.to_nat offset) with 0%nat by lia. simpl skipn.
    apply order_by_created_perm.
Qed.

Lemma firstn_add {A : Type} (a b : nat) (l : list A) :
  firstn (a + b) l = firstn a l ++ firstn b (skipn a l).
Proof.
  revert l. induction a as [|a IH]; intros [|x l]; simpl;
    rewrite ?firstn_nil; try reflexivity.
  now rewrite IH.
Qed.

Lemma int64_bounds (z : Z) :
  int64 z = true <-> (- 2 ^ 63 <= z < 2 ^ 63)%Z.
Proof.
  unfold int64. rewrite andb_true_iff, Z.leb_le, Z.ltb_lt. tauto.
Qed.

(** X11.  The pages of [get_approved_tweets] tile the listing: the page
    of [l1] rows at offset [o] followed by the page of [l2] rows at
    offset [o + l1] is the page of [l1 + l2] rows at offset [o]; and
    followed by all the rows from offset [o + l1] on, it is all the rows
    from offset [o] on.  No row is skipped or shown twice between
    pages. *)
Theorem get_approved_tweets_pages (l1 l2 o : Z) (t : table) :
  (0 <= o)%Z -> (0 <= l1)%Z -> (0 <= l2)%Z ->
  (o + l1 < 2 ^ 63)%Z -> (l1 + l2 < 2 ^ 63)%Z ->
  exists p1 p2 rest,
    get_approved_tweets l1 o t = Ok p1
    /\ get_approved_tweets l2 (o + l1) t = Ok p2
    /\ get_approved_tweets (l1 + l2) o t = Ok (p1 ++ p2)
    /\ get_approved_tweets (-1) (o + l1) t = Ok rest
    /\ get_approved_tweets (-1) o t = Ok (p1 ++ rest).
Proof.
  intros Ho H1 H2 Hb1 Hb2.
  assert (I : forall z, (0 <= z < 2 ^ 63)%Z -> int64 z = true).
  { intros z Hz. apply int64_bounds. lia. }
  assert (Im : int64 (-1) = true) by reflexivity.
  exists (select_approved l1 o t), (select_approved l2 (o + l1) t),
    (select_approved (-1) (o + l1) t).
  unfold get_approved_tweets.
  rewrite Im, !I by lia. cbn [andb].
  repeat split; unfold select_approved, sql_limit, sql_offset.
  - destruct (l1 <? 0)%Z eqn:E1; [apply Z.ltb_lt in E1; lia|].
    destruct (l2 <? 0)%Z eqn:E2; [apply Z.ltb_lt in E2; lia|].
    destruct (l1 + l2 <? 0)%Z eqn:E3; [apply Z.ltb_lt in E3; lia|].
    replace (Z.to_nat (l1 + l2)) with (Z.to_nat l1 + Z.to_nat l2)%nat by lia.
    replace (Z.to_nat (o + l1)) with (Z.to_nat l1 + Z.to_nat o)%nat by lia.
    rewrite firstn_add, skipn_skipn. reflexivity.
  - destruct (l1 <? 0)%Z eqn:E1; [apply Z.ltb_lt in E1; lia|].
    change (-1 <? 0)%Z with true. cbv iota.
    replace (Z.to_nat (o + l1)) with (Z.to_nat l1 + Z.to_nat o)%nat by lia.
    rewrite <- skipn_skipn, firstn_skipn. reflexivity.
Qed.


(** ** The status of many tweets *)

Lemma dict_lookup_set_same {V : Type} (k : pystr) (v : V)
  (d : list (pystr * V)) :
  Py.dict_lookup k (Py.dict_set k v d) = Some v.
Proof.
  induction d as [|[k' v'] d IH]; simpl.
  - now rewrite PyStrFacts.eqb_refl.
  - destruct (PyStr.eqb k k') eqn:E; simpl; rewrite E; auto.
Qed.

Lemma dict_lookup_set_other {V : Type} (k k' : pystr) (v : V)
  (d : list (pystr * V)) :
  PyStr.eqb k k' = false ->
  Py.dict_lookup k (Py.dict_set k' v d) = Py.dict_lookup k d.
Proof.
  intros E. induction d as [|[k0 v0] d IH]; simpl.
  - now rewrite E.
  - destruct (PyStr.eqb k' k0) eqn:E0; simpl.
    + apply PyStrFacts.eqb_eq in E0. subst k0. now rewrite E.
    + now rewrite IH.
Qed.

Definition write_status (d : list (pystr * pystr)) (ir : pystr * row)
  : list (pystr * pystr) :=
  Py.dict_set (fst ir) (row_status (snd ir)) d.

Definition mark_unknown (d : list (pystr * pystr)) (i : pystr)
  : list (pystr * pystr) :=
  match Py.dict_lookup i d with
  | Some _ => d
  | None => Py.dict_set i (str "unknown") d
  end.

Lemma write_status_absent (rows : list (pystr * row)) (k : pystr) :
  (forall ir, In ir rows -> fst ir <> k) ->
  forall d,
  Py.dict_lookup k (fold_left write_status rows d) = Py.dict_lookup k d.
Proof.
  induction rows as [|ir rows IH]; intros H d; [reflexivity|]. simpl.
  rewrite IH by (intros x Hx; apply H; now right).
  unfold write_status. apply dict_lookup_set_other.
  apply PyStrFacts.eqb_neq. intros E. apply (H ir); [now left | auto].
Qed.

Lemma write_status_present (rows : list (pystr * row)) (k : pystr)
  (r : row) (d : list (pystr * pystr)) :
  In (k, r) rows ->
  (forall r', In (k, r') rows -> row_status r' = row_status r) ->
  Py.dict_lookup k (fold_left write_status rows d) = Some (row_status r).
Proof.
  induction rows as [|ir rows IH] using rev_ind; intros Hin Hsame;
    [inversion Hin|].
  rewrite fold_left_app. simpl. unfold write_status at 1.
  destruct (PyStr.eqb k (fst ir)) eqn:E.
  - apply PyStrFacts.eqb_eq in E. rewrite <- E, dict_lookup_set_same.
    f_equal. apply Hsame. apply in_or_app. right. left.
    destruct ir. simpl in E. now subst.
  - rewrite dict_lookup_set_other by exact E. apply IH.
    + apply in_app_or in Hin as [Hin|[Hin|[]]]; [exact Hin|].
      subst ir. simpl in E. now rewrite PyStrFacts.eqb_refl in E.
    + intros r' Hr'. apply Hsame, in_or_app. now left.
Qed.

Lemma mark_unknown_lookup (tweet_ids : list pystr) (k : pystr) :
  forall d,
  Py.dict_lookup k (fold_left mark_unknown tweet_ids d)
  = match Py.dict_lookup k d with
    | Some s => Some s
    | None =>
        if existsb (PyStr.eqb k) tweet_ids then Some (str "unknown")
        else None
    end.
Proof.
  induction tweet_ids as [|i rest IH]; intros d; simpl.
  - now destruct (Py.dict_lookup k d).
  - rewrite IH. unfold mark_unknown.
    destruct (PyStr.eqb k i) eqn:E.
    + apply PyStrFacts.eqb_eq in E. subst i.
      destruct (Py.dict_lookup k d) eqn:L; [now rewrite L|].
      now rewrite dict_lookup_set_same.
    + destruct (Py.dict_lookup i d) eqn:L; [reflexivity|].
      now rewrite dict_lookup_set_other by exact E.
Qed.

Lemma existsb_eqb_In (k : pystr) (l : list pystr) :
  existsb (PyStr.eqb k) l = true <-> In k l.
Proof.
  rewrite existsb_exists. split.
  - intros (x & Hx & E). apply PyStrFacts.eqb_eq in E. now subst.
  - intros H. exists k. split; [exact H | apply PyStrFacts.eqb_refl].
Qed.

Lemma matching_ids_In (tweet_ids : list pystr) (t : table) (k : pystr)
  (r : row) :
  In (k, r) (matching_ids tweet_ids t)
  <-> In r t /\ id r = Some k /\ In k tweet_ids.
Proof.
  unfold matching_ids. rewrite in_flat_map. split.
  - intros (x & Hx & H). destruct (id x) as [i|] eqn:Ei; [|inversion H].
    destruct (existsb (PyStr.eqb i) tweet_ids) eqn:Ex; [|inversion H].
    destruct H as [H|[]]. inversion H; subst.
    apply existsb_eqb_In in Ex. auto.
  - intros (Hin & Hid & Hk). exists r. split; [exact Hin|].
    rewrite Hid. apply existsb_eqb_In in Hk. rewrite Hk. now left.
Qed.

Lemma insert_by_id_In (x y : pystr * row) (l : list (pystr * row)) :
  In y (insert_by_id x l) <-> y = x \/ In y l.
Proof.
  induction l as [|z l IH]; simpl.
  - intuition congruence.
  - destruct (PyStr.compare (fst x) (fst z)); simpl;
      try rewrite IH; intuition congruence.
Qed.

Lemma select_by_ids_In (tweet_ids : list pystr) (t : table) (k : pystr)
  (r : row) :
  In (k, r) (select_by_ids tweet_ids t)
  <-> In r t /\ id r = Some k /\ In k tweet_ids.
Proof.
  rewrite <- matching_ids_In. unfold select_by_ids.
  induction (matching_ids tweet_ids t) as [|x l IH]; simpl; [tauto|].
  rewrite insert_by_id_In, IH. intuition congruence.
Qed.

Lemma matching_ids_nil (t : table) : matching_ids [] t = [].
Proof.
  unfold matching_ids. induction t as [|r t IH]; [reflexivity|].
  cbn [flat_map]. rewrite IH. now destruct (id r).
Qed.

Lemma check_tweet_statuses_unfold (max_variable_number : nat)
  (tweet_ids : list pystr) (t : table) :
  (List.length tweet_ids <= max_variable_number)%nat ->
  forallb encodable tweet_ids = true ->
  check_tweet_statuses max_variable_number tweet_ids t
  = inr (fold_left mark_unknown tweet_ids
           (fold_left write_status (select_by_ids tweet_ids t) [])).
Proof.
  intros Hn He. unfold check_tweet_statuses.
  destruct tweet_ids as [|i rest];
    [unfold select_by_ids; now rewrite matching_ids_nil|].
  apply Nat.ltb_ge in Hn. rewrite Hn, He. reflexivity.
Qed.

(** X13.  [check_tweet_statuses], for a list of ids that the engine
    accepts (no more than it allows, each encodable) and a table with
    unique keys, answers for exactly the ids it was asked about: an id
    of the table gets the status of its row (approved, filtered or
    pending), an id the table does not have gets unknown, and no other
    key is in the result. *)
Theorem check_tweet_statuses_answers (max_variable_number : nat)
  (tweet_ids : list pystr) (t : table) :
  (List.length tweet_ids <= max_variable_number)%nat ->
  forallb encodable tweet_ids = true ->
  pk_unique t ->
  exists d,
    check_tweet_statuses max_variable_number tweet_ids t = inr d
    /\ (forall k r, In k tweet_ids -> In r t -> id r = Some k ->
                    Py.dict_lookup k d = Some (row_status r))
    /\ (forall k, In k tweet_ids -> has_id k t = false ->
                  Py.dict_lookup k d = Some (str "unknown"))
    /\ (forall k, ~ In k tweet_ids -> Py.dict_lookup k d = None).
Proof.
  intros Hn He Hu. eexists.
  split; [now apply check_tweet_statuses_unfold|].
  split; [|split].
  - intros k r Hk Hin Hid. rewrite mark_unknown_lookup.
    rewrite (write_status_present _ k r); [reflexivity | |].
    + apply select_by_ids_In. auto.
    + intros r' Hr'. apply select_by_ids_In in Hr' as (Hin' & Hid' & _).
      f_equal. exact (pk_unique_same_id t r' r k Hu Hin' Hin Hid' Hid).
  - intros k Hk Habs. rewrite mark_unknown_lookup.
    rewrite write_status_absent.
    + simpl. apply existsb_eqb_In in Hk. now rewrite Hk.
    + intros [k' r'] Hr' E. simpl in E. subst k'.
      apply select_by_ids_In in Hr' as (Hin' & Hid' & _).
      assert (H : has_id k t = true)
        by (apply has_id_In; eapply In_ids; eauto).
      congruence.
  - intros k Hk. rewrite mark_unknown_lookup.
    rewrite write_status_absent.
    + simpl. destruct (existsb (PyStr.eqb k) tweet_ids) eqn:E;
        [|reflexivity].
      apply existsb_eqb_In in E. contradiction.
    + intros [k' r'] Hr' E. simpl in E. subst k'.
      apply select_by_ids_In in Hr' as (_ & _ & H). contradiction.
Qed.

(** ** A tweet from arrival to classification, as the status check
    sees it *)






End QueryProps.

(* ================================================================== *)
(** * More about the response parser and the formatter *)
(* ================================================================== *)

Module ParserProps.
Import Database Classifier ClassifierMore ClassifierFacts.

(** ** White space around a reply *)

Lemma lstrip_spaces (ws s : pystr) :
  forallb PyStr.isspace ws = true ->
  PyStr.lstrip (ws ++ s) = PyStr.lstrip s.
Proof.
  induction ws as [|c ws IH]; [reflexivity|]. cbn [forallb app].
  intros H. apply andb_true_iff in H as [Hc Hw].
  cbn [PyStr.lstrip]. rewrite Hc. auto.
Qed.

Lemma lstrip_app_spaces (s ws : pystr) :
  forallb PyStr.isspace ws = true ->
  PyStr.lstrip (s ++ ws)
  = match PyStr.lstrip s with
    | [] => []
    | c :: r => (c :: r) ++ ws
    end.
Proof.
  intros H. induction s as [|c s IH].
  - cbn [app PyStr.lstrip]. rewrite <- (app_nil_r ws).
    rewrite lstrip_spaces by exact H. reflexivity.
  - cbn [app PyStr.lstrip]. destruct (PyStr.isspace c); [exact IH|].
    reflexivity.
Qed.

Lemma rstrip_spaces (s ws : pystr) :
  forallb PyStr.isspace ws = true ->
  PyStr.rstrip (s ++ ws) = PyStr.rstrip s.
Proof.
  intros H. unfold PyStr.rstrip. rewrite rev_app_distr.
  rewrite lstrip_spaces; [reflexivity|].
  rewrite forallb_forall in *. intros c Hc. apply H. now apply in_rev.
Qed.

Lemma strip_spaces (ws1 s ws2 : pystr) :
  forallb PyStr.isspace ws1 = true -> forallb PyStr.isspace ws2 = true ->
  PyStr.strip (ws1 ++ s ++ ws2) = PyStr.strip s.
Proof.
  intros H1 H2. unfold PyStr.strip.
  rewrite lstrip_spaces by exact H1.
  rewrite lstrip_app_spaces by exact H2.
  destruct (PyStr.lstrip s) as [|c r]; [reflexivity|].
  now apply rstrip_spaces.
Qed.

(** X15.  White space around a reply never changes what the parser makes
    of it. *)
Theorem parse_response_ignores_outer_space (ws1 text ws2 : pystr) :
  forallb PyStr.isspace ws1 = true -> forallb PyStr.isspace ws2 = true ->
  parse_response (ws1 ++ text ++ ws2) = parse_response text.
Proof.
  intros H1 H2. unfold parse_response.
  now rewrite (strip_spaces ws1 text ws2 H1 H2).
Qed.

(** ** A reply in the format that was asked for *)

Lemma scan_units_plain (s : pystr) :
  forall acc rest,
  forallb plain s = true ->
  Json.scan_units acc (s ++ 34%N :: rest)
  = Json.Scanned (rev acc ++ map (fun c => (c, false)) s) rest.
Proof.
  induction s as [|c s IH]; intros acc rest H.
  - simpl. now rewrite app_nil_r.
  - cbn [forallb] in H. apply andb_true_iff in H as [Hc Hs].
    unfold plain in Hc. apply andb_true_iff in Hc as [Hc H32].
    apply andb_true_iff in Hc as [H34 H92].
    apply negb_true_iff in H34, H92.
    cbn [app Json.scan_units]. rewrite H34, H92.
    assert (E : (c <? 32)%N = false)
      by (apply N.ltb_ge; now apply N.leb_le).
    rewrite E, IH by exact Hs. cbn [rev map].
    now rewrite <- app_assoc.
Qed.

Lemma join_surrogates_plain (s : pystr) :
  Json.join_surrogates (map (fun c => (c, false)) s) = s.
Proof.
  induction s as [|c s IH]; [reflexivity|].
  cbn [map Json.join_surrogates]. cbn [map] in IH.
  destruct s as [|d s]; [reflexivity|].
  cbn [map] in *. now rewrite IH.
Qed.

Lemma scanstring_plain (s rest : pystr) :
  forallb plain s = true ->
  Json.scanstring (s ++ 34%N :: rest) = Json.Scanned s rest.
Proof.
  intros H. unfold Json.scanstring.
  rewrite scan_units_plain by exact H. cbn [rev app].
  now rewrite join_surrogates_plain.
Qed.

Lemma json_loads_reply_in_format (b : bool) (s : pystr) :
  forallb plain s = true ->
  Json.json_loads (reply_in_format b s)
  = Some (PDict [(str "approved", PBool b); (str "reason", PStr s)]).
Proof.
  intros H. unfold Json.json_loads.
  remember (Json.fuel_for (reply_in_format b s)) as fuel eqn:Ef.
  assert (Hf : (4 <= fuel)%nat).
  { subst fuel. unfold Json.fuel_for, reply_in_format.
    rewrite !length_app. simpl. lia. }
  destruct fuel as [|[|[|[|fuel]]]]; try lia. clear Ef Hf.
  unfold reply_in_format, in_quotes.
  destruct b; cbn;
    rewrite <- (app_assoc s [34%N] [125%N]); cbn [app];
    rewrite (scanstring_plain s [125%N] H); reflexivity.
Qed.

Lemma strip_keeps (c z : N) (m : pystr) :
  PyStr.isspace c = false -> PyStr.isspace z = false ->
  PyStr.strip (c :: m ++ [z]) = c :: m ++ [z].
Proof.
  intros Hc Hz. unfold PyStr.strip, PyStr.rstrip.
  cbn [PyStr.lstrip]. rewrite Hc.
  assert (E : rev (c :: m ++ [z]) = z :: rev (c :: m)).
  { change (c :: m ++ [z]) with ((c :: m) ++ [z]).
    now rewrite rev_app_distr. }
  rewrite E. cbn [PyStr.lstrip]. rewrite Hz, <- E.
  apply rev_involutive.
Qed.

Lemma strip_reply_in_format (b : bool) (s : pystr) :
  PyStr.strip (reply_in_format b s) = reply_in_format b s.
Proof.
  assert (E : exists m, reply_in_format b s = 123%N :: m ++ [125%N]).
  { unfold reply_in_format, in_quotes. eexists.
    cbn [str PyStr.str app]. f_equal.
    repeat rewrite app_comm_cons.
    rewrite !app_assoc. reflexivity. }
  destruct E as [m ->]. now apply strip_keeps.
Qed.

(** X16.  A reply in the format the prompt asks for is read back as it
    was written: the decision, and the reason character for character,
    whatever the reason is, as long as it is written without escapes
    (no quote, backslash or control character). *)
Theorem parse_response_reads_the_format (b : bool) (reason : pystr) :
  forallb plain reason = true ->
  parse_response (reply_in_format b reason) = Ok (PBool b, PStr reason).
Proof.
  intros H. unfold parse_response.
  rewrite strip_reply_in_format, (json_loads_reply_in_format b reason H).
  reflexivity.
Qed.

(** ** A reply without braces *)












(** ** What the model is shown *)

Lemma join_two (sep a b : pystr) (l : list pystr) :
  PyStr.join sep (a :: b :: l)
  = a ++ sep ++ b ++ match l with
                     | [] => []
                     | _ :: _ => sep ++ PyStr.join sep l
                     end.
Proof.
  destruct l; cbn [PyStr.join]; now rewrite ?app_nil_r.
Qed.

Lemma format_parts (tweet : row) :
  exists l,
    format_tweet_for_classification tweet
    = PyStr.join newline (first_line tweet :: text tweet :: l)
    /\ (bare tweet -> l = []).
Proof.
  unfold format_tweet_for_classification, first_line, bare.
  cbv zeta.
  destruct (author_verified (more tweet) =? 0)%Z;
    destruct (is_retweet (more tweet) =? 0)%Z eqn:Ert;
    destruct (is_quote (more tweet) =? 0)%Z eqn:Eq;
    destruct (reply_to_username (more tweet)) as [[|c u]|] eqn:Eu;
    destruct (like_count (more tweet) >? 0)%Z eqn:El;
    destruct (retweet_count (more tweet) >? 0)%Z eqn:Er;
    destruct (reply_count (more tweet) >? 0)%Z eqn:Ep;
    cbn [app]; eexists; (split; [reflexivity|]);
    intros (H1 & H2 & H3 & H4 & H5 & H6);
    try reflexivity; exfalso;
    try (rewrite H1 in Ert; discriminate);
    try (rewrite H2 in Eq; discriminate);
    try (simpl in H3; discriminate);
    try (apply Z.gtb_lt in El; lia);
    try (apply Z.gtb_lt in Er; lia);
    try (apply Z.gtb_lt in Ep; lia).
Qed.

(** X18.  What the formatter hands to the model starts with the line of
    the author, and its second line starts with the text of the tweet as
    it is stored; every further line is an annotation of the formatter.
    For a tweet with no flag, no reply target and no positive count, the
    two lines are all there is. *)
Theorem format_tweet_lines (tweet : row) :
  exists tail,
    format_tweet_for_classification tweet
    = first_line tweet ++ newline ++ text tweet ++ tail
    /\ (tail = [] \/ exists rest, tail = newline ++ rest)
    /\ (bare tweet -> tail = []).
Proof.
  destruct (format_parts tweet) as (l & E & Hb).
  rewrite E, join_two. eexists. split; [reflexivity|]. split.
  - destruct l; [now left | right; eauto].
  - intros H. now rewrite (Hb H).
Qed.

End ParserProps.

(* ================================================================== *)
(** * More about a run of the classifier *)
(* ================================================================== *)

Module RunProps.
Import Database DatabaseMore DatabaseFacts.
Import Classifier ClassifierMore ClassifierFacts.
Import OrderFacts QueryProps.

(** ** Reading a trace *)

Lemma commits_app (tr tr' : list event) :
  commits (tr ++ tr') = commits tr ++ commits tr'.
Proof. unfold commits. apply flat_map_app. Qed.

Lemma model_calls_app (tr tr' : list event) :
  model_calls (tr ++ tr') = model_calls tr ++ model_calls tr'.
Proof. unfold model_calls. apply flat_map_app. Qed.

Lemma fetches_app (tr tr' : list event) :
  fetches (tr ++ tr') = fetches tr ++ fetches tr'.
Proof. unfold fetches. apply flat_map_app. Qed.

Lemma commits_call_events (n : nat) (rows : list row) :
  commits (call_events n rows) = [].
Proof.
  revert n. induction rows as [|r rows IH]; intros n; [reflexivity|].
  simpl. apply IH.
Qed.

Lemma commits_of_commits (evs : list event) :
  Forall is_commit evs ->
  List.length (commits evs) = List.length evs /\ model_calls evs = [].
Proof.
  induction 1 as [|ev evs Hev _ [IH1 IH2]]; [split; reflexivity|].
  destruct ev; simpl in Hev; try contradiction. simpl.
  split; [now rewrite IH1 | exact IH2].
Qed.

(** ** What a run keeps, whatever the model answers *)

Lemma ids_of_content (t t' : table) :
  map content t' = map content t -> ids t' = ids t.
Proof.
  revert t'. induction t as [|r t IH]; intros [|r' t'] H; try discriminate;
    [reflexivity|].
  cbn [map] in H. inversion H as [[Hi Hx Hc Hm Ht]].
  change (ids (r' :: t')) with
    (match id r' with Some j => [j] | None => [] end ++ ids t').
  change (ids (r :: t)) with
    (match id r with Some j => [j] | None => [] end ++ ids t).
  now rewrite Hi, (IH t' Ht).
Qed.

Lemma update_classification_shapes (now : pystr)
  (tweet_id : option pystr) (approved reason : pyval) (t : table) :
  Forall (fun r => pending_shape r \/ completed_shape r) t ->
  Forall (fun r => pending_shape r \/ completed_shape r)
    (snd (update_classification now tweet_id approved reason t)).
Proof.
  intros H.
  destruct (update_classification_cases now tweet_id approved reason t)
    as [(e & _ & ->) | (rs & _ & ->)]; simpl; [exact H|].
  apply Forall_map. eapply Forall_impl; [|exact H].
  intros r. apply set_classification_shape.
Qed.

Section AnyModel.

Variable client : nat -> pystr -> pystr -> pystr -> api_reply.
Variable clock : nat -> pystr.
Variable system_prompt : pystr.
Variable model : pystr.

Lemma save_results_more (dry_run : bool)
  (results : list (option pystr * pyval * pyval)) :
  forall st r st',
  save_results clock dry_run results st = (r, st') ->
  map content (tbl st') = map content (tbl st)
  /\ (reachable (tbl st) -> reachable (tbl st'))
  /\ (Forall (fun r => pending_shape r \/ completed_shape r) (tbl st) ->
      Forall (fun r => pending_shape r \/ completed_shape r) (tbl st'))
  /\ exists ext,
       trace st' = trace st ++ ext /\ Forall is_commit ext
       /\ (List.length ext <= List.length results)%nat.
Proof.
  induction results as [|[[tid approved] reason] rest IH];
    intros st r st' E; simpl in E.
  - inversion E; subst. do 3 (split; [auto|]).
    exists []. rewrite app_nil_r. auto.
  - destruct dry_run.
    + apply IH in E as (Hc & Hr & Hs & ext & Ht & Hf & Hl). simpl in *.
      do 3 (split; [assumption|]). exists ext. auto.
    + pose proof (update_classification_content (clock (ticks st)) tid
                    approved reason (tbl st)) as Hcon.
      pose proof (update_classification_shapes (clock (ticks st)) tid
                    approved reason (tbl st)) as Hsh.
      pose proof (reach_update (clock (ticks st)) tid approved reason
                    (tbl st)) as Hre.
      destruct (update_classification (clock (ticks st)) tid approved reason
                  (tbl st)) as [u t1].
      simpl in Hcon, Hsh, Hre. destruct u as [[]|e].
      * apply IH in E as (Hc & Hr & Hs & ext & Ht & Hf & Hl). simpl in *.
        split; [congruence|]. split; [auto|]. split; [auto|].
        exists (EvCommit tid approved reason :: ext).
        rewrite Ht, <- app_assoc. simpl.
        split; [reflexivity|]. split; [|lia].
        constructor; simpl; auto.
      * inversion E; subst. simpl.
        do 3 (split; [assumption|]).
        exists [EvCommit tid approved reason].
        split; [reflexivity|]. split; [|simpl; lia].
        constructor; simpl; auto.
Qed.

Lemma batch_loop_preserves (batch_size limit : Z) (dry_run : bool)
  (fuel : nat) :
  forall st o st',
  batch_loop client clock system_prompt model fuel batch_size limit dry_run
    st = (o, st') ->
  map content (tbl st') = map content (tbl st)
  /\ (reachable (tbl st) -> reachable (tbl st'))
  /\ (Forall (fun r => pending_shape r \/ completed_shape r) (tbl st) ->
      Forall (fun r => pending_shape r \/ completed_shape r) (tbl st')).
Proof.
  induction fuel as [|fuel IH]; intros st o st' E; simpl in E.
  - destruct (processed st <? limit)%Z; inversion E; subst; auto.
  - destruct (processed st <? limit)%Z; [|inversion E; subst; auto].
    set (fc := Z.min batch_size (limit - processed st)) in *.
    destruct (get_pending_tweets fc (tbl st)) as [|tw rest] eqn:Ef;
      [inversion E; subst; simpl; auto|].
    destruct (batch_size =? 0)%Z; [inversion E; subst; simpl; auto|].
    destruct (classify_batch client system_prompt model (tw :: rest)
                (log (EvFetch fc (tw :: rest)) st)) as [r1 st1] eqn:E1.
    apply classify_batch_frame in E1 as (Ht1 & _). simpl in Ht1.
    destruct r1 as [results|e];
      [|inversion E; subst; rewrite Ht1; auto].
    destruct (save_results clock dry_run results st1) as [r2 st2] eqn:E2.
    apply save_results_more in E2 as (Hc2 & Hr2 & Hs2 & _).
    rewrite Ht1 in Hc2, Hr2, Hs2.
    destruct r2 as [[]|e]; [|inversion E; subst; auto].
    apply IH in E as (Hc & Hr & Hs). simpl in Hc, Hr, Hs.
    split; [congruence|]. split; auto.
Qed.

(** X19.  A run of the classifier, whatever the model answers and
    however the run ends, never adds, removes or moves a row and never
    alters what a row holds of its tweet; it keeps the keys unique; and
    it leaves a table that the store's two writing operations can
    produce, so that every record still has one of the two shapes. *)
Theorem run_classifier_preserves (api_key : option pystr) (batch_size : Z)
  (max_tweets : option Z) (dry_run : bool) (t : table) :
  let r := run_classifier client clock system_prompt model api_key
             batch_size max_tweets dry_run t in
  map content (run_table r) = map content t
  /\ (pk_unique t -> pk_unique (run_table r))
  /\ (reachable t -> reachable (run_table r))
  /\ (Forall (fun x => pending_shape x \/ completed_shape x) t ->
      Forall (fun x => pending_shape x \/ completed_shape x) (run_table r)).
Proof.
  cbv zeta.
  assert (H : map content
                (run_table (run_classifier client clock system_prompt model
                              api_key batch_size max_tweets dry_run t))
              = map content t
              /\ (reachable t ->
                  reachable
                    (run_table (run_classifier client clock system_prompt
                                  model api_key batch_size max_tweets
                                  dry_run t)))
              /\ (Forall (fun x => pending_shape x \/ completed_shape x) t ->
                  Forall (fun x => pending_shape x \/ completed_shape x)
                    (run_table (run_classifier client clock system_prompt
                                  model api_key batch_size max_tweets
                                  dry_run t)))).
  { destruct api_key as [[|c k]|]; try (simpl; auto; fail).
    unfold run_classifier. cbv beta iota zeta.
    destruct (pending (get_stats t) =? 0)%Z; [simpl; auto|].
    set (limit := limit_of max_tweets (pending (get_stats t))).
    set (st0 := {| tbl := t; processed := 0; approved_count := 0;
                   filtered_count := 0; calls := 0; ticks := 0;
                   trace := [EvStats (get_stats t)] |}).
    destruct (batch_loop client clock system_prompt model (Z.to_nat limit)
                batch_size limit dry_run st0) as [o st'] eqn:E.
    apply batch_loop_preserves in E. simpl in E.
    destruct o; try destruct dry_run; exact E. }
  destruct H as (Hc & Hr & Hs).
  split; [exact Hc|]. split; [|split; assumption].
  unfold pk_unique. now rewrite (ids_of_content _ _ Hc).
Qed.

(** ** The limit, whatever the model answers *)

Lemma get_pending_tweets_at_most (n : Z) (t : table) :
  (0 <= n)%Z ->
  (Z.of_nat (List.length (get_pending_tweets n t)) <= n)%Z.
Proof.
  intros H. unfold get_pending_tweets, sql_limit.
  destruct (n <? 0)%Z eqn:E; [apply Z.ltb_lt in E; lia|].
  rewrite length_firstn. lia.
Qed.

Lemma batch_loop_bounded (batch_size limit : Z) (dry_run : bool)
  (fuel : nat) :
  (0 < batch_size)%Z ->
  forall st o st',
  (processed st <= limit)%Z ->
  batch_loop client clock system_prompt model fuel batch_size limit dry_run
    st = (o, st') ->
  (Z.of_nat (List.length (model_calls (trace st')))
   <= Z.of_nat (List.length (model_calls (trace st)))
      + (limit - processed st))%Z
  /\ (List.length (commits (trace st'))
      + List.length (model_calls (trace st))
      <= List.length (commits (trace st))
         + List.length (model_calls (trace st')))%nat.
Proof.
  intros Hb. induction fuel as [|fuel IH]; intros st o st' Hle E;
    simpl in E.
  - assert (st' = st) as ->
      by (destruct (processed st <? limit)%Z; inversion E; reflexivity).
    lia.
  - destruct (Z.ltb_spec (processed st) limit) as [Hlt|Hge];
      [|inversion E; subst; lia].
    set (fc := Z.min batch_size (limit - processed st)) in *.
    assert (Hfc : (0 < fc <= limit - processed st)%Z) by (unfold fc; lia).
    pose proof (get_pending_tweets_at_most fc (tbl st)) as Hlen.
    destruct (get_pending_tweets fc (tbl st)) as [|tw rest] eqn:Ef.
    { inversion E; subst. simpl.
      rewrite model_calls_app, commits_app. simpl.
      rewrite !app_nil_r. lia. }
    assert ((batch_size =? 0)%Z = false) as Hz by (apply Z.eqb_neq; lia).
    rewrite Hz in E.
    destruct (classify_batch client system_prompt model (tw :: rest)
                (log (EvFetch fc (tw :: rest)) st)) as [r1 st1] eqn:E1.
    apply classify_batch_frame in E1
      as (_ & Hp1 & _ & _ & _ & k & Hk & Htr1 & _ & Hok).
    simpl in Hp1, Htr1.
    assert (Hm1 : model_calls (trace st1)
                  = model_calls (trace st) ++ firstn k (tw :: rest)).
    { rewrite Htr1, !model_calls_app, call_events_model_calls. simpl.
      now rewrite app_nil_r. }
    assert (Hc1 : commits (trace st1) = commits (trace st)).
    { rewrite Htr1, !commits_app, commits_call_events. simpl.
      now rewrite !app_nil_r. }
    assert (Hk' : List.length (firstn k (tw :: rest)) = k)
      by (rewrite length_firstn; lia).
    destruct r1 as [results|e].
    2:{ inversion E; subst. rewrite Hm1, Hc1, length_app, Hk'. lia. }
    destruct (Hok results eq_refl) as [-> Hmap].
    assert (Hlr : List.length results = List.length (tw :: rest)).
    { rewrite <- (length_map result_id), Hmap. apply length_map. }
    rewrite firstn_all in Hm1.
    destruct (save_results clock dry_run results st1) as [r2 st2] eqn:E2.
    pose proof E2 as E2'.
    apply save_results_frame in E2' as (Hp2 & _).
    apply save_results_more in E2 as (_ & _ & _ & ext & Htr2 & Hcm & Hl2).
    destruct (commits_of_commits ext Hcm) as [Hce Hme].
    assert (Hm2 : model_calls (trace st2)
                  = model_calls (trace st) ++ tw :: rest).
    { rewrite Htr2, model_calls_app, Hme, app_nil_r. exact Hm1. }
    assert (Hc2 : List.length (commits (trace st2))
                  = (List.length (commits (trace st))
                     + List.length ext)%nat).
    { rewrite Htr2, commits_app, length_app, Hc1, Hce. reflexivity. }
    destruct r2 as [[]|e].
    2:{ inversion E; subst. rewrite Hm2, Hc2, length_app. lia. }
    apply IH in E; [|cbn [advanced processed]; lia].
    cbn [advanced processed trace] in E.
    rewrite Hm2, Hc2, length_app, Hp2, Hp1 in E.
    lia.
Qed.

Lemma batch_loop_done (batch_size limit : Z) (dry_run : bool) (fuel : nat)
  (st : state) :
  (limit <= processed st)%Z ->
  batch_loop client clock system_prompt model fuel batch_size limit dry_run
    st
  = (Complete (processed st) (approved_count st) (filtered_count st) None,
     st).
Proof.
  intros H. apply Z.ltb_ge in H. destruct fuel; simpl; now rewrite H.
Qed.

(** X20.  With a positive batch size a run never sends more records to
    the model than were pending when it started, nor more than a
    positive [max_tweets]; and it never commits more outcomes than it
    made model calls.  This holds whatever the model answers and however
    the run ends. *)
Theorem run_classifier_within_limit (api_key : option pystr)
  (batch_size : Z) (max_tweets : option Z) (dry_run : bool) (t : table) :
  (0 < batch_size)%Z ->
  let r := run_classifier client clock system_prompt model api_key
             batch_size max_tweets dry_run t in
  let sent := Z.of_nat (List.length (model_calls (run_trace r))) in
  (sent <= pending (get_stats t))%Z
  /\ (forall m, max_tweets = Some m -> (0 < m)%Z -> (sent <= m)%Z)
  /\ (List.length (commits (run_trace r))
      <= List.length (model_calls (run_trace r)))%nat.
Proof.
  intros Hb. cbv zeta.
  pose proof (count_nonneg is_pending t) as Hnn'.
  assert (Hnn : (0 <= pending (get_stats t))%Z) by exact Hnn'.
  destruct api_key as [[|c k]|];
    try (simpl; repeat split; intros; lia).
  unfold run_classifier. cbv beta iota zeta.
  destruct (pending (get_stats t) =? 0)%Z eqn:Ez;
    [simpl; repeat split; intros; lia|].
  set (limit := limit_of max_tweets (pending (get_stats t))).
  set (st0 := {| tbl := t; processed := 0; approved_count := 0;
                 filtered_count := 0; calls := 0; ticks := 0;
                 trace := [EvStats (get_stats t)] |}).
  assert (Hlim : (limit <= pending (get_stats t))%Z
                 /\ forall m, max_tweets = Some m -> (0 < m)%Z ->
                              (limit <= m)%Z).
  { split; [apply limit_of_le|]. intros m -> Hm. unfold limit, limit_of.
    destruct (m =? 0)%Z eqn:E; [apply Z.eqb_eq in E; lia | lia]. }
  destruct Hlim as [Hl1 Hl2].
  assert (Hloop : forall o st',
            batch_loop client clock system_prompt model (Z.to_nat limit)
              batch_size limit dry_run st0 = (o, st') ->
            (Z.of_nat (List.length (model_calls (trace st')))
             <= Z.max 0 limit)%Z
            /\ (List.length (commits (trace st'))
                <= List.length (model_calls (trace st')))%nat).
  { intros o st' E. destruct (Z.le_gt_cases 0 limit) as [H0|H0].
    - apply batch_loop_bounded in E; [|exact Hb|simpl; lia].
      simpl in E. lia.
    - rewrite batch_loop_done in E by (simpl; lia).
      inversion E; subst. simpl. lia. }
  destruct (batch_loop client clock system_prompt model (Z.to_nat limit)
              batch_size limit dry_run st0) as [o st'] eqn:E.
  destruct (Hloop o st' eq_refl) as [H1 H2].
  assert (Hfin : forall s,
            model_calls (trace st' ++ [EvStats s]) = model_calls (trace st')
            /\ commits (trace st' ++ [EvStats s]) = commits (trace st')).
  { intros s. rewrite model_calls_app, commits_app. simpl.
    now rewrite !app_nil_r. }
  destruct o; try destruct dry_run; cbn [run_trace];
    rewrite ?(proj1 (Hfin _)), ?(proj2 (Hfin _));
    (split; [lia|]); (split; [|exact H2]);
    intros m Hm Hpos; specialize (Hl2 m Hm Hpos); lia.
Qed.

(** ** Rows without id *)

Lemma batch_loop_keeps_row_without_id (batch_size limit : Z)
  (dry_run : bool) (n : nat) (r : row) (fuel : nat) :
  id r = None ->
  forall st o st',
  nth_error (tbl st) n = Some r ->
  batch_loop client clock system_prompt model fuel batch_size limit dry_run
    st = (o, st') ->
  nth_error (tbl st') n = Some r.
Proof.
  intros Hid. induction fuel as [|fuel IH]; intros st o st' Hn E;
    simpl in E.
  - destruct (processed st <? limit)%Z; inversion E; subst; exact Hn.
  - destruct (processed st <? limit)%Z; [|inversion E; subst; exact Hn].
    set (fc := Z.min batch_size (limit - processed st)) in *.
    destruct (get_pending_tweets fc (tbl st)) as [|tw rest] eqn:Ef;
      [inversion E; subst; exact Hn|].
    destruct (batch_size =? 0)%Z; [inversion E; subst; exact Hn|].
    destruct (classify_batch client system_prompt model (tw :: rest)
                (log (EvFetch fc (tw :: rest)) st)) as [r1 st1] eqn:E1.
    apply classify_batch_frame in E1 as (Ht1 & _). simpl in Ht1.
    destruct r1 as [results|e];
      [|inversion E; subst; now rewrite Ht1].
    destruct (save_results clock dry_run results st1) as [r2 st2] eqn:E2.
    assert (Hn2 : nth_error (tbl st2) n = Some r).
    { eapply (save_results_keeps_row clock dry_run n r results);
        [|exact E2|now rewrite Ht1].
      apply Forall_forall. intros x _. rewrite Hid.
      destruct (result_id x); [right; discriminate | now left]. }
    destruct r2 as [[]|e]; [|inversion E; subst; exact Hn2].
    eapply IH; [|exact E]. exact Hn2.
Qed.

(** X21.  A row whose id is NULL is never classified by a run: the
    update is by id, and no id equals NULL.  Whatever the model answers,
    the row is after the run as it was before (a pending one is still
    pending, and is fetched again by the next run). *)
Theorem run_classifier_skips_rows_without_id (api_key : option pystr)
  (batch_size : Z) (max_tweets : option Z) (dry_run : bool) (t : table)
  (n : nat) (r : row) :
  nth_error t n = Some r -> id r = None ->
  nth_error (run_table (run_classifier client clock system_prompt model
                          api_key batch_size max_tweets dry_run t)) n
  = Some r.
Proof.
  intros Hn Hid.
  destruct api_key as [[|c k]|]; try exact Hn.
  unfold run_classifier. cbv beta iota zeta.
  destruct (pending (get_stats t) =? 0)%Z; [exact Hn|].
  set (limit := limit_of max_tweets (pending (get_stats t))).
  set (st0 := {| tbl := t; processed := 0; approved_count := 0;
                 filtered_count := 0; calls := 0; ticks := 0;
                 trace := [EvStats (get_stats t)] |}).
  destruct (batch_loop client clock system_prompt model (Z.to_nat limit)
              batch_size limit dry_run st0) as [o st'] eqn:E.
  apply (batch_loop_keeps_row_without_id batch_size limit dry_run n r _ Hid)
    in E; [|exact Hn].
  destruct o; try destruct dry_run; exact E.
Qed.

(** ** A negative maximum *)

(** X22.  A negative [max_tweets] is accepted and makes the run do
    nothing: the limit is negative, the loop is never entered, no record
    is fetched, sent to the model or committed, the table is unchanged,
    and the run reports zero records (0, on the other hand, is read as
    no maximum). *)
Theorem negative_max_tweets_processes_nothing (api_key : option pystr)
  (batch_size m : Z) (dry_run : bool) (t : table) :
  (m < 0)%Z ->
  let r := run_classifier client clock system_prompt model api_key
             batch_size (Some m) dry_run t in
  run_table r = t
  /\ fetches (run_trace r) = []
  /\ model_calls (run_trace r) = []
  /\ commits (run_trace r) = []
  /\ (run_outcome r = NoApiKey \/ run_outcome r = NoPending
      \/ run_outcome r
         = Complete 0 0 0 (if dry_run then None else Some (get_stats t))).
Proof.
  intros Hm. cbv zeta.
  destruct api_key as [[|c k]|]; try (simpl; auto 10; fail).
  unfold run_classifier. cbv beta iota zeta.
  destruct (pending (get_stats t) =? 0)%Z; [simpl; auto 10|].
  assert (Hl : (limit_of (Some m) (pending (get_stats t)) <= 0)%Z).
  { unfold limit_of. destruct (m =? 0)%Z eqn:E;
      [apply Z.eqb_eq in E; lia | lia]. }
  rewrite batch_loop_done by exact Hl.
  destruct dry_run; simpl; auto 10.
Qed.

End AnyModel.

(** ** A run that saves every outcome *)

Lemma shape_of_pending (r : row) :
  pending_shape r \/ completed_shape r -> is_pending r = true ->
  pending_shape r.
Proof.
  intros [H|(S & _)] P; [exact H|].
  unfold is_pending in P. rewrite S in P. discriminate.
Qed.

Lemma NoDup_map_id (t : table) :
  pk_unique t -> Forall (fun r => id r <> None) t -> NoDup (map id t).
Proof.
  unfold pk_unique. induction t as [|r t IH]; intros Hu Hall;
    [constructor|].
  inversion Hall as [|? ? Hr Ht]; subst.
  change (ids (r :: t)) with
    (match id r with Some j => [j] | None => [] end ++ ids t) in Hu.
  destruct (id r) as [i|] eqn:Ei; [|congruence]. simpl in Hu.
  inversion Hu as [|? ? Hni Hnd]; subst. cbn [map]. rewrite Ei.
  constructor; [|auto].
  intros Hin. apply in_map_iff in Hin as (r' & Hid & Hin).
  apply Hni. eapply In_ids; eauto.
Qed.

(** Rows picked from a table with distinct ids have distinct ids. *)
Lemma filter_keeps_ids_distinct (keep : row -> bool) (t : table) :
  NoDup (map id t) -> NoDup (map id (filter keep t)).
Proof.
  induction t as [|r t IH]; cbn [map filter]; intros Hd; [constructor|].
  apply NoDup_cons_iff in Hd as [Hfresh Hrest].
  destruct (keep r); [|exact (IH Hrest)].
  cbn [map]. apply NoDup_cons; [|exact (IH Hrest)].
  intros Hin. apply Hfresh. apply in_map_iff in Hin as (x & Hx & Hin).
  apply filter_In in Hin as [Hin _]. rewrite <- Hx. now apply in_map.
Qed.

Lemma NoDup_prefix {A : Type} (n : nat) (l : list A) :
  NoDup l -> NoDup (firstn n l).
Proof.
  intros H. rewrite <- (firstn_skipn n l) in H.
  eapply NoDup_app_remove_r. exact H.
Qed.

Lemma fetched_ids_nodup (fc : Z) (t : table) :
  pk_unique t -> Forall (fun r => id r <> None) t ->
  NoDup (map id (get_pending_tweets fc t)).
Proof.
  intros Hu Hall.
  assert (H : NoDup (map id (order_by_captured_at_desc
                               (filter is_pending t)))).
  { eapply Permutation.Permutation_NoDup.
    - apply Permutation.Permutation_map, Permutation.Permutation_sym.
      rewrite order_by_captured_at_desc_sort. apply sort_by_perm.
    - apply filter_keeps_ids_distinct. now apply NoDup_map_id. }
  unfold get_pending_tweets, sql_limit. destruct (fc <? 0)%Z; [exact H|].
  rewrite <- firstn_map. now apply NoDup_prefix.
Qed.

Lemma has_ids_of_content (t t' : table) :
  map content t' = map content t ->
  Forall (fun r => id r <> None) t -> Forall (fun r => id r <> None) t'.
Proof.
  revert t'. induction t as [|r t IH]; intros [|r' t'] H Hall;
    try discriminate; constructor.
  - cbn [map] in H. inversion H as [[Hi Hx Hc Hm Ht]].
    inversion Hall; subst. congruence.
  - cbn [map] in H. inversion H as [[Hi Hx Hc Hm Ht]].
    inversion Hall; subst. now apply IH.
Qed.

(** The records a batch is about to save: each result is filed under the
    id of a pending row of the table, and no two under the same id. *)
Definition to_save (results : list (option pystr * pyval * pyval))
  (t : table) : Prop :=
  Forall bindable results
  /\ NoDup (map result_id results)
  /\ Forall (fun i => exists j r, i = Some j /\ In r t /\ id r = Some j
                                  /\ pending_shape r)
       (map result_id results).

Section Saving.

Variable client : nat -> pystr -> pystr -> pystr -> api_reply.
Variable clock : nat -> pystr.
Variable system_prompt : pystr.
Variable model : pystr.

(** Every outcome the model can yield is an approval. *)
Definition approving : Prop :=
  forall n tweet a reason,
    classify_tweet client system_prompt model n tweet = Ok (a, reason) ->
    Py.truthy a = true.

Lemma save_results_exact
  (results : list (option pystr * pyval * pyval)) :
  forall st,
  pk_unique (tbl st) ->
  to_save results (tbl st) ->
  exists st',
    save_results clock false results st = (Ok tt, st')
    /\ total (get_stats (tbl st')) = total (get_stats (tbl st))
    /\ pending (get_stats (tbl st'))
       = (pending (get_stats (tbl st)) - Z.of_nat (List.length results))%Z
    /\ (approved (get_stats (tbl st')) - approved (get_stats (tbl st))
        = approved_count st' - approved_count st)%Z
    /\ (filtered (get_stats (tbl st')) - filtered (get_stats (tbl st))
        = filtered_count st' - filtered_count st)%Z
    /\ (approved_count st <= approved_count st')%Z
    /\ (filtered_count st <= filtered_count st')%Z
    /\ (approved_count st' - approved_count st
        + (filtered_count st' - filtered_count st)
        = Z.of_nat (List.length results))%Z
    /\ (Forall (fun x => Py.truthy (snd (fst x)) = true) results ->
        filtered_count st' = filtered_count st).
Proof.
  induction results as [|[[tid a] reason] rest IH];
    intros st Hu (Hb & Hnd & Hrows).
  - exists st. simpl. repeat split; lia.
  - cbn [map] in Hnd, Hrows.
    inversion Hb as [|? ? [rs Hrs] Hb']; subst.
    inversion Hnd as [|? ? Hni Hnd']; subst.
    destruct (Forall_inv Hrows) as (i & r & Hi & Hin & Hid & Hp).
    pose proof (Forall_inv_tail Hrows) as Hrows'.
    unfold result_id in Hi, Hni. cbn [fst snd] in Hi, Hni, Hrs. subst tid.
    destruct (update_one_pending (clock (ticks st)) i a reason rs (tbl st) r
                Hu Hin Hid Hp Hrs) as (Hok & Hstats).
    cbv zeta in Hok, Hstats.
    pose proof (update_classification_ids (clock (ticks st)) (Some i) a
                  reason (tbl st)) as Hids.
    destruct (update_classification_cases (clock (ticks st)) (Some i) a
                reason (tbl st)) as [(e & He & _) | (rs' & _ & Eu)];
      [congruence|].
    rewrite Eu in Hstats, Hids. cbn [snd] in Hstats, Hids.
    set (t1 := map (set_classification (clock (ticks st)) (Some i)
                      (flag (Py.truthy a)) rs') (tbl st)) in *.
    destruct (IH (counted (Py.truthy a)
                    (committed t1 (log (EvCommit (Some i) a reason) st))))
      as (st' & E & Ht & Hpe & Hap & Hfi & Hla & Hlf & Hsum & Htr).
    { cbn [tbl counted committed]. unfold pk_unique. now rewrite Hids. }
    { cbn [tbl counted committed]. split; [exact Hb'|].
      split; [exact Hnd'|].
      apply Forall_forall. intros x Hx.
      rewrite Forall_forall in Hrows'.
      destruct (Hrows' x Hx) as (j & r' & -> & Hin' & Hid' & Hp').
      exists j, r'. split; [reflexivity|]. split; [|auto].
      assert (Hne : Some i <> id r').
      { rewrite Hid'. intros Heq. apply Hni. now rewrite Heq. }
      unfold t1.
      rewrite <- (set_classification_other (clock (ticks st)) (Some i)
                    (flag (Py.truthy a)) rs' r' (or_intror Hne)).
      now apply in_map. }
    exists st'. cbn [save_results]. rewrite Eu. rewrite E.
    cbn [tbl counted committed log approved_count filtered_count] in *.
    rewrite Hstats in Ht, Hpe, Hap, Hfi.
    cbn [total pending approved filtered] in Ht, Hpe, Hap, Hfi.
    cbn [List.length].
    split; [reflexivity|].
    destruct (Py.truthy a) eqn:Ea; unfold flag in *;
      (repeat split; try lia);
      intros Hall; inversion Hall as [|? ? Hx Hrest]; subst;
      simpl in Hx; try congruence; specialize (Htr Hrest); lia.
Qed.

Lemma classify_batch_approving (tweets : list row) :
  approving ->
  forall st results st',
  classify_batch client system_prompt model tweets st = (Ok results, st') ->
  Forall (fun x => Py.truthy (snd (fst x)) = true) results.
Proof.
  intros Ha. induction tweets as [|tw rest IH]; intros st results st' E;
    simpl in E.
  - inversion E. constructor.
  - destruct (classify_tweet client system_prompt model (calls st) tw)
      as [[a reason]|e] eqn:Ec; [|discriminate].
    destruct (classify_batch client system_prompt model rest
                (called (log (EvModelCall (calls st) tw) st)))
      as [[rs|e] st1] eqn:E1; [|discriminate].
    inversion E; subst. constructor.
    + simpl. eapply Ha. exact Ec.
    + eapply IH. exact E1.
Qed.

Hypothesis replies_save : forall n m s u, reply_saves (client n m s u).

Lemma batch_loop_exact (batch_size limit : Z) (fuel : nat) :
  (0 < batch_size)%Z ->
  forall st,
  pk_unique (tbl st) ->
  Forall (fun r => pending_shape r \/ completed_shape r) (tbl st) ->
  Forall (fun r => id r <> None) (tbl st) ->
  (processed st <= limit)%Z ->
  (limit - processed st <= pending (get_stats (tbl st)))%Z ->
  (limit - processed st <= Z.of_nat fuel)%Z ->
  exists st',
    batch_loop client clock system_prompt model fuel batch_size limit false
      st
    = (Complete limit (approved_count st') (filtered_count st') None, st')
    /\ total (get_stats (tbl st')) = total (get_stats (tbl st))
    /\ pending (get_stats (tbl st'))
       = (pending (get_stats (tbl st)) - (limit - processed st))%Z
    /\ (approved (get_stats (tbl st')) - approved (get_stats (tbl st))
        = approved_count st' - approved_count st)%Z
    /\ (filtered (get_stats (tbl st')) - filtered (get_stats (tbl st))
        = filtered_count st' - filtered_count st)%Z
    /\ (approved_count st <= approved_count st')%Z
    /\ (filtered_count st <= filtered_count st')%Z
    /\ (approved_count st' - approved_count st
        + (filtered_count st' - filtered_count st)
        = limit - processed st)%Z
    /\ (approving -> filtered_count st' = filtered_count st).
Proof.
  intros Hb.
  assert (Hparse : forall n m s u, reply_parses (client n m s u))
    by (intros; apply reply_saves_parses, replies_save).
  induction fuel as [|fuel IH]; intros st Hu Hsh Hids Hle Hpend Hfuel.
  - assert (processed st = limit) by (simpl in Hfuel; lia).
    exists st. rewrite batch_loop_done by lia. subst limit.
    repeat split; lia.
  - destruct (Z.ltb_spec (processed st) limit) as [Hlt|Hge].
    2:{ assert (processed st = limit) by lia.
        exists st. rewrite batch_loop_done by lia. subst limit.
        repeat split; lia. }
    set (fc := Z.min batch_size (limit - processed st)).
    set (rows := get_pending_tweets fc (tbl st)).
    assert (Hfc : (0 < fc <= count is_pending (tbl st))%Z).
    { unfold fc. change (count is_pending (tbl st))
        with (pending (get_stats (tbl st))). lia. }
    assert (Hlen : List.length rows = Z.to_nat fc).
    { apply get_pending_tweets_length. lia. }
    destruct (classify_batch_ok client system_prompt model rows Hparse
                (log (EvFetch fc rows) st))
      as (results & st1 & E1 & Hl1 & Hbind).
    pose proof (classify_batch_approving rows) as Happ.
    pose proof E1 as E1'.
    apply classify_batch_frame in E1'
      as (Ht1 & Hp1 & Ha1 & Hf1 & _ & k & _ & _ & _ & Hok).
    destruct (Hok results eq_refl) as [_ Hmap].
    cbn [tbl processed approved_count filtered_count log] in Ht1, Hp1, Ha1,
      Hf1.
    assert (Hsave : to_save results (tbl st1)).
    { split; [exact (Hbind replies_save)|]. rewrite Hmap, Ht1.
      split; [now apply fetched_ids_nodup|].
      apply Forall_map, Forall_forall. intros r Hr.
      apply get_pending_tweets_In in Hr as [Hin Hpe].
      rewrite Forall_forall in Hsh, Hids.
      destruct (id r) as [j|] eqn:Ej; [|now apply Hids in Hin].
      exists j, r. split; [reflexivity|]. split; [exact Hin|].
      split; [exact Ej|]. apply shape_of_pending; auto. }
    destruct (save_results_exact results st1)
      as (st2 & E2 & Ht2 & Hpe2 & Hap2 & Hfi2 & Hla2 & Hlf2 & Hsum2 & Htr2);
      [now rewrite Ht1 | exact Hsave |].
    pose proof E2 as E2'. pose proof E2 as E2''.
    apply save_results_frame in E2' as (Hp2 & _ & Hi2 & _).
    apply (save_results_more clock) in E2'' as (Hc2 & _ & Hs2 & _).
    rewrite Ht1 in *.
    destruct (IH (advanced (Z.of_nat (List.length rows)) st2))
      as (st' & E & Ht & Hpe & Hap & Hfi & Hla & Hlf & Hsum & Htr).
    { cbn [tbl advanced]. unfold pk_unique. now rewrite Hi2. }
    { cbn [tbl advanced]. auto. }
    { cbn [tbl advanced]. eapply has_ids_of_content; eauto. }
    { cbn [processed advanced]. lia. }
    { cbn [processed advanced tbl]. lia. }
    { cbn [processed advanced]. lia. }
    exists st'.
    cbn [tbl advanced processed approved_count filtered_count] in *.
    split.
    { cbn [batch_loop]. apply Z.ltb_lt in Hlt. rewrite Hlt.
      fold fc. fold rows.
      destruct rows as [|tw rest] eqn:Erows; [simpl in Hlen; lia|].
      assert ((batch_size =? 0)%Z = false) as -> by (apply Z.eqb_neq; lia).
      rewrite E1, E2. exact E. }
    repeat split; try lia.
    intros Hall. specialize (Htr Hall).
    specialize (Htr2 (Happ Hall _ _ _ E1)). lia.
Qed.

Lemma run_classifier_exact (c : N) (k : pystr) (batch_size : Z)
  (max_tweets : option Z) (t : table) :
  reachable t -> Forall (fun r => id r <> None) t ->
  (0 < batch_size)%Z ->
  (0 < limit_of max_tweets (pending (get_stats t)))%Z ->
  let limit := limit_of max_tweets (pending (get_stats t)) in
  let r := run_classifier client clock system_prompt model (Some (c :: k))
             batch_size max_tweets false t in
  exists a f,
    run_outcome r = Complete limit a f (Some (get_stats (run_table r)))
    /\ (0 <= a)%Z /\ (0 <= f)%Z /\ (a + f = limit)%Z
    /\ get_stats (run_table r)
       = {| total := total (get_stats t);
            pending := pending (get_stats t) - limit;
            approved := approved (get_stats t) + a;
            filtered := filtered (get_stats t) + f |}
    /\ (approving -> f = 0%Z).
Proof.
  intros Hre Hids Hb Hlim limit r.
  pose proof (limit_of_le max_tweets (pending (get_stats t))) as Hle.
  fold limit in Hle, Hlim.
  set (st0 := {| tbl := t; processed := 0; approved_count := 0;
                 filtered_count := 0; calls := 0; ticks := 0;
                 trace := [EvStats (get_stats t)] |}).
  destruct (batch_loop_exact batch_size limit (Z.to_nat limit) Hb st0)
    as (st' & E & Ht & Hpe & Hap & Hfi & Hla & Hlf & Hsum & Htr);
    cbn [tbl processed st0]; try lia.
  { now apply reachable_pk_unique. }
  { now apply reachable_shapes. }
  { exact Hids. }
  cbn [tbl processed approved_count filtered_count st0] in *.
  assert (Er : r = {| run_outcome := Complete limit (approved_count st')
                                       (filtered_count st')
                                       (Some (get_stats (tbl st')));
                      run_table := tbl st';
                      run_trace := trace st'
                                   ++ [EvStats (get_stats (tbl st'))] |}).
  { subst r. unfold run_classifier. cbv beta iota zeta.
    assert ((pending (get_stats t) =? 0)%Z = false) as ->
      by (apply Z.eqb_neq; lia).
    fold limit. fold st0. rewrite E. reflexivity. }
  rewrite Er. cbn [run_outcome run_table].
  exists (approved_count st'), (filtered_count st').
  split; [reflexivity|]. split; [lia|]. split; [lia|]. split; [lia|].
  split.
  - destruct (get_stats (tbl st')) as [tt' pp aa ff].
    cbn [total pending approved filtered] in *. f_equal; lia.
  - intros Hall. specialize (Htr Hall). lia.
Qed.


End Saving.

(** ** A model that cannot be reached *)

Lemma api_errors_save (client : nat -> pystr -> pystr -> pystr -> api_reply) :
  (forall n m s u, exists e,
      client n m s u = ApiError e
      /\ encodable (PyStr.slice_to 100 e) = true) ->
  forall n m s u, reply_saves (client n m s u).
Proof.
  intros H n m s u. destruct (H n m s u) as (e & -> & He). exact He.
Qed.

Lemma api_errors_approve (client : nat -> pystr -> pystr -> pystr -> api_reply)
  (system_prompt model : pystr) :
  (forall n m s u, exists e,
      client n m s u = ApiError e
      /\ encodable (PyStr.slice_to 100 e) = true) ->
  approving client system_prompt model.
Proof.
  intros H n tweet a reason. unfold classify_tweet.
  match goal with
  | |- context [client ?n ?m ?s ?u] =>
      destruct (H n m s u) as (e & -> & _)
  end.
  intros E. inversion E. reflexivity.
Qed.

(** X24.  When every call of the model fails with an API error, a run
    that is not dry does not stop: it approves every record it
    processes.  All [limit] records leave the pending state and are
    counted as approved; none is filtered. *)
Theorem api_errors_approve_everything
  (client : nat -> pystr -> pystr -> pystr -> api_reply)
  (clock : nat -> pystr) (system_prompt model : pystr)
  (c : N) (k : pystr) (batch_size : Z) (max_tweets : option Z) (t : table) :
  (forall n m s u, exists e,
      client n m s u = ApiError e
      /\ encodable (PyStr.slice_to 100 e) = true) ->
  reachable t -> Forall (fun r => id r <> None) t ->
  (0 < batch_size)%Z ->
  (0 < limit_of max_tweets (pending (get_stats t)))%Z ->
  let limit := limit_of max_tweets (pending (get_stats t)) in
  let r := run_classifier client clock system_prompt model (Some (c :: k))
             batch_size max_tweets false t in
  run_outcome r = Complete limit limit 0 (Some (get_stats (run_table r)))
  /\ get_stats (run_table r)
     = {| total := total (get_stats t);
          pending := pending (get_stats t) - limit;
          approved := approved (get_stats t) + limit;
          filtered := filtered (get_stats t) |}.
Proof.
  intros Herr Hre Hids Hb Hlim. cbv zeta.
  destruct (run_classifier_exact client clock system_prompt model
              (api_errors_save client Herr) c k batch_size max_tweets t
              Hre Hids Hb Hlim)
    as (a & f & H1 & H2 & H3 & H4 & H5 & H6).
  specialize (H6 (api_errors_approve client system_prompt model Herr)).
  subst f. assert (a = limit_of max_tweets (pending (get_stats t))) by lia.
  subst a. split; [exact H1|]. rewrite H5. f_equal. lia.
Qed.

(** ** A reply the parser raises on *)

Lemma parse_response_raises (text : pystr) (e : exn) :
  parse_response text = Raise e ->
  e = JSONDecodeError \/ e = AttributeError.
Proof.
  assert (Hread : forall v, read_result v = Raise e -> e = AttributeError).
  { intros v. unfold read_result, Py.get.
    destruct v as [| | | | | |d]; try (intros H; inversion H; reflexivity).
    destruct (Py.dict_lookup (str "approved") d);
      destruct (Py.dict_lookup (str "reason") d); discriminate. }
  unfold parse_response.
  destruct (Json.json_loads (PyStr.strip text)) as [v|]; [right; eauto|].
  destruct (re_search (PyStr.strip text)) as [m|].
  - destruct (Json.json_loads m) as [v|]; [right; eauto|].
    intros H. inversion H. now left.
  - destruct (_ && _); [discriminate|].
    destruct (_ && _); discriminate.
Qed.

Lemma bind_param_raises (v : pyval) (e : exn) :
  bind_param v = Raise e ->
  e = OverflowError \/ e = UnicodeEncodeError \/ e = BindError.
Proof.
  destruct v; simpl; try discriminate.
  - destruct (_ && _); [discriminate|]. intros H. inversion H. auto.
  - destruct (encodable s); [discriminate|]. intros H. inversion H. auto.
  - intros H. inversion H. auto.
  - intros H. inversion H. auto.
Qed.

Section Malformed.

Variable client : nat -> pystr -> pystr -> pystr -> api_reply.
Variable clock : nat -> pystr.
Variable system_prompt : pystr.
Variable model : pystr.

Lemma classify_batch_raises (tweets : list row) :
  forall st e st',
  classify_batch client system_prompt model tweets st = (Raise e, st') ->
  (e = JSONDecodeError \/ e = AttributeError)
  /\ exists k,
       (0 < k <= List.length tweets)%nat
       /\ trace st' = trace st ++ call_events (calls st) (firstn k tweets).
Proof.
  induction tweets as [|tw rest IH]; intros st e st' E; simpl in E;
    [discriminate|].
  destruct (classify_tweet client system_prompt model (calls st) tw)
    as [[a reason]|e0] eqn:Ec.
  - destruct (classify_batch client system_prompt model rest
                (called (log (EvModelCall (calls st) tw) st)))
      as [[rs|e1] st1] eqn:E1; [discriminate|].
    inversion E; subst. apply IH in E1 as (He & k & Hk & Htr).
    split; [exact He|]. exists (S k). split; [simpl; lia|].
    rewrite Htr. simpl. now rewrite <- app_assoc.
  - inversion E; subst. split.
    + unfold classify_tweet in Ec.
      destruct (client _ _ _ _); [|discriminate].
      eapply parse_response_raises. exact Ec.
    + exists 1%nat. split; [simpl; lia|]. reflexivity.
Qed.

Lemma save_results_raises (dry_run : bool)
  (results : list (option pystr * pyval * pyval)) :
  forall st e st',
  save_results clock dry_run results st = (Raise e, st') ->
  e = OverflowError \/ e = UnicodeEncodeError \/ e = BindError.
Proof.
  induction results as [|[[tid a] reason] rest IH]; intros st e st' E;
    simpl in E; [discriminate|].
  destruct dry_run; [eapply IH; exact E|].
  destruct (update_classification_cases (clock (ticks st)) tid a reason
              (tbl st)) as [(e0 & Hb & Eu) | (rs & _ & Eu)];
    rewrite Eu in E.
  - inversion E; subst. eapply bind_param_raises. exact Hb.
  - eapply IH. exact E.
Qed.

Lemma batch_loop_raised (batch_size limit : Z) (dry_run : bool)
  (fuel : nat) :
  forall st e st',
  batch_loop client clock system_prompt model fuel batch_size limit dry_run
    st = (Raised e, st') ->
  e = JSONDecodeError \/ e = AttributeError ->
  exists tr fc rows n k,
    trace st' = tr ++ EvFetch fc rows :: call_events n (firstn k rows)
    /\ (0 < k <= List.length rows)%nat.
Proof.
  induction fuel as [|fuel IH]; intros st e st' E He; simpl in E.
  - destruct (processed st <? limit)%Z; discriminate.
  - destruct (processed st <? limit)%Z; [|discriminate].
    set (fc := Z.min batch_size (limit - processed st)) in *.
    destruct (get_pending_tweets fc (tbl st)) as [|tw rest] eqn:Ef;
      [discriminate|].
    destruct (batch_size =? 0)%Z.
    { inversion E; subst. destruct He; discriminate. }
    destruct (classify_batch client system_prompt model (tw :: rest)
                (log (EvFetch fc (tw :: rest)) st)) as [[results|e1] st1]
      eqn:E1.
    + destruct (save_results clock dry_run results st1) as [[[]|e2] st2]
        eqn:E2.
      * eapply IH; eauto.
      * inversion E; subst.
        apply save_results_raises in E2.
        destruct He as [->| ->]; destruct E2 as [H|[H|H]]; discriminate.
    + inversion E; subst.
      apply classify_batch_raises in E1 as (_ & k & Hk & Htr).
      exists (trace st), fc, (tw :: rest), (calls st), k.
      split; [|exact Hk]. rewrite Htr. simpl. now rewrite <- app_assoc.
Qed.

(** X25.  A reply the parser raises on ends the run and loses the batch
    it arrived in.  When a run ends in [JSONDecodeError] or
    [AttributeError], everything the run did after its last fetch was
    calling the model, for at least one and at most all of the rows
    fetched: no outcome of that batch was committed, those of the rows
    before the reply included. *)
Theorem malformed_reply_loses_the_batch (api_key : option pystr)
  (batch_size : Z) (max_tweets : option Z) (dry_run : bool) (t : table)
  (e : exn) :
  let r := run_classifier client clock system_prompt model api_key
             batch_size max_tweets dry_run t in
  run_outcome r = Raised e ->
  e = JSONDecodeError \/ e = AttributeError ->
  exists tr fc rows n k,
    run_trace r = tr ++ EvFetch fc rows :: call_events n (firstn k rows)
    /\ (0 < k <= List.length rows)%nat
    /\ commits (run_trace r) = commits tr.
Proof.
  cbv zeta. intros Ho He.
  assert (H : exists tr fc rows n k,
            run_trace (run_classifier client clock system_prompt model
                         api_key batch_size max_tweets dry_run t)
            = tr ++ EvFetch fc rows :: call_events n (firstn k rows)
            /\ (0 < k <= List.length rows)%nat).
  { destruct api_key as [[|c k]|]; try discriminate.
    revert Ho. unfold run_classifier. cbv beta iota zeta.
    destruct (pending (get_stats t) =? 0)%Z; [discriminate|].
    set (limit := limit_of max_tweets (pending (get_stats t))).
    set (st0 := {| tbl := t; processed := 0; approved_count := 0;
                   filtered_count := 0; calls := 0; ticks := 0;
                   trace := [EvStats (get_stats t)] |}).
    destruct (batch_loop client clock system_prompt model (Z.to_nat limit)
                batch_size limit dry_run st0) as [o st'] eqn:E.
    destruct o; try (destruct dry_run; discriminate); try discriminate.
    cbn [run_outcome run_trace]. intros Ho. inversion Ho; subst.
    eapply batch_loop_raised; eauto. }
  destruct H as (tr & fc & rows & n & k & Htr & Hk).
  exists tr, fc, rows, n, k. split; [exact Htr|]. split; [exact Hk|].
  rewrite Htr, commits_app. cbn [commits flat_map].
  change (flat_map _ (call_events n (firstn k rows)))
    with (commits (call_events n (firstn k rows))).
  now rewrite commits_call_events, app_nil_r.
Qed.

End Malformed.

End RunProps.

(* ================================================================== *)
(** * The properties above, on examples *)
(* ================================================================== *)

Module Instances.
Import Database DatabaseMore DatabaseFacts.
Import Classifier ClassifierMore ClassifierFacts.

Lemma one_pending_reachable : reachable Examples.one_pending.
Proof. unfold Examples.one_pending. apply reach_store, reach_empty. Qed.

Lemma one_approved_reachable : reachable Examples.one_approved.
Proof.
  unfold Examples.one_approved. apply reach_update, one_pending_reachable.
Qed.

Lemma seventeen_pending_reachable : reachable Examples.seventeen_pending.
Proof. unfold Examples.seventeen_pending. apply reach_store, reach_empty. Qed.

Lemma seventeen_pending_has_ids :
  Forall (fun r => id r <> None) Examples.seventeen_pending.
Proof. vm_compute. repeat (constructor; [discriminate|]). constructor. Qed.





Lemma unreachable_fails (n : nat) (m s u : pystr) :
  exists e, MoreExamples.unreachable n m s u = ApiError e
            /\ encodable (PyStr.slice_to 100 e) = true.
Proof. eexists. split; reflexivity. Qed.






Lemma get_stats_adds_up_witness :
  reachable Examples.one_approved
  /\ let s := get_stats Examples.one_approved in
     total s = (pending s + approved s + filtered s)%Z
     /\ (0 <= pending s)%Z /\ (0 <= approved s)%Z /\ (0 <= filtered s)%Z.
Proof.
  split; [exact one_approved_reachable|].
  exact (QueryProps.get_stats_adds_up Examples.one_approved
           one_approved_reachable).
Defined.

Lemma get_approved_tweets_page_witness :
  int64 10 = true /\ int64 0 = true
  /\ exists page,
       get_approved_tweets 10 0 Examples.one_approved = Ok page
       /\ Sorted.StronglySorted created_not_before page
       /\ (forall r, In r page ->
                     In r Examples.one_approved
                     /\ classification_result r = Some 1%Z)
       /\ ((0 <= 10)%Z -> (Z.of_nat (List.length page) <= 10)%Z)
       /\ ((10 < 0)%Z -> (0 <= 0)%Z ->
           Permutation.Permutation page
             (filter (result_is 1) Examples.one_approved)).
Proof.
  split; [reflexivity|]. split; [reflexivity|].
  exact (QueryProps.get_approved_tweets_page 10 0 Examples.one_approved
           eq_refl eq_refl).
Defined.

Lemma get_approved_tweets_pages_witness :
  (0 <= 0)%Z /\ (0 <= 1)%Z /\ (0 <= 2)%Z
  /\ (0 + 1 < 2 ^ 63)%Z /\ (1 + 2 < 2 ^ 63)%Z
  /\ exists p1 p2 rest,
       get_approved_tweets 1 0 Examples.one_approved = Ok p1
       /\ get_approved_tweets 2 (0 + 1) Examples.one_approved = Ok p2
       /\ get_approved_tweets (1 + 2) 0 Examples.one_approved
          = Ok (p1 ++ p2)
       /\ get_approved_tweets (-1) (0 + 1) Examples.one_approved = Ok rest
       /\ get_approved_tweets (-1) 0 Examples.one_approved
          = Ok (p1 ++ rest).
Proof.
  assert (H0 : (0 <= 0)%Z) by lia.
  assert (H1 : (0 <= 1)%Z) by lia.
  assert (H2 : (0 <= 2)%Z) by lia.
  assert (H3 : (0 + 1 < 2 ^ 63)%Z) by reflexivity.
  assert (H4 : (1 + 2 < 2 ^ 63)%Z) by reflexivity.
  do 5 (split; [assumption|]).
  exact (QueryProps.get_approved_tweets_pages 1 2 0 Examples.one_approved
           H0 H1 H2 H3 H4).
Defined.


Lemma check_tweet_statuses_answers_witness :
  (List.length [str "t1"; str "zz"] <= 999)%nat
  /\ forallb encodable [str "t1"; str "zz"] = true
  /\ pk_unique Examples.one_approved
  /\ exists d,
       check_tweet_statuses 999 [str "t1"; str "zz"] Examples.one_approved
       = inr d
       /\ (forall k r, In k [str "t1"; str "zz"] ->
                       In r Examples.one_approved -> id r = Some k ->
                       Py.dict_lookup k d = Some (row_status r))
       /\ (forall k, In k [str "t1"; str "zz"] ->
                     has_id k Examples.one_approved = false ->
                     Py.dict_lookup k d = Some (str "unknown"))
       /\ (forall k, ~ In k [str "t1"; str "zz"] ->
                     Py.dict_lookup k d = None).
Proof.
  assert (H1 : (List.length [str "t1"; str "zz"] <= 999)%nat)
    by (simpl; lia).
  assert (H2 : forallb encodable [str "t1"; str "zz"] = true)
    by reflexivity.
  assert (H3 : pk_unique Examples.one_approved)
    by exact (reachable_pk_unique _ one_approved_reachable).
  do 3 (split; [assumption|]).
  exact (QueryProps.check_tweet_statuses_answers 999 [str "t1"; str "zz"]
           Examples.one_approved H1 H2 H3).
Defined.


Lemma parse_response_ignores_outer_space_witness :
  forallb PyStr.isspace (str " ") = true
  /\ forallb PyStr.isspace [10%N] = true
  /\ parse_response (str " " ++ MoreExamples.prose ++ [10%N])
     = parse_response MoreExamples.prose.
Proof.
  split; [reflexivity|]. split; [reflexivity|].
  exact (ParserProps.parse_response_ignores_outer_space (str " ")
           MoreExamples.prose [10%N] eq_refl eq_refl).
Defined.

Lemma parse_response_reads_the_format_witness :
  forallb plain (str "positive content") = true
  /\ parse_response (reply_in_format true (str "positive content"))
     = Ok (PBool true, PStr (str "positive content")).
Proof.
  split; [reflexivity|].
  exact (ParserProps.parse_response_reads_the_format true
           (str "positive content") eq_refl).
Defined.


Lemma run_classifier_within_limit_witness :
  (0 < 4)%Z
  /\ let r := run_classifier Examples.unquoted Examples.clock [] []
                Examples.api_key 4 (Some 10%Z) false
                Examples.seventeen_pending in
     let sent := Z.of_nat (List.length (model_calls (run_trace r))) in
     (sent <= pending (get_stats Examples.seventeen_pending))%Z
     /\ (forall m, Some 10%Z = Some m -> (0 < m)%Z -> (sent <= m)%Z)
     /\ (List.length (commits (run_trace r))
         <= List.length (model_calls (run_trace r)))%nat.
Proof.
  assert (H : (0 < 4)%Z) by lia.
  split; [exact H|].
  exact (RunProps.run_classifier_within_limit Examples.unquoted
           Examples.clock [] [] Examples.api_key 4 (Some 10%Z) false
           Examples.seventeen_pending H).
Defined.

Lemma run_classifier_skips_rows_without_id_witness :
  exists r,
    nth_error MoreExamples.one_without_id 0 = Some r
    /\ id r = None
    /\ nth_error (run_table (run_classifier Examples.approving Examples.clock
                               [] [] Examples.api_key 10 None false
                               MoreExamples.one_without_id)) 0
       = Some r.
Proof.
  eexists. split; [reflexivity|]. split; [reflexivity|].
  exact (RunProps.run_classifier_skips_rows_without_id Examples.approving
           Examples.clock [] [] Examples.api_key 10 None false
           MoreExamples.one_without_id 0 _ eq_refl eq_refl).
Defined.

Lemma negative_max_tweets_processes_nothing_witness :
  (-1 < 0)%Z
  /\ let r := run_classifier Examples.approving Examples.clock [] []
                Examples.api_key 10 (Some (-1)%Z) false
                Examples.seventeen_pending in
     run_table r = Examples.seventeen_pending
     /\ fetches (run_trace r) = []
     /\ model_calls (run_trace r) = []
     /\ commits (run_trace r) = []
     /\ (run_outcome r = NoApiKey \/ run_outcome r = NoPending
         \/ run_outcome r
            = Complete 0 0 0
                (if false then None
                 else Some (get_stats Examples.seventeen_pending))).
Proof.
  assert (H : (-1 < 0)%Z) by lia.
  split; [exact H|].
  exact (RunProps.negative_max_tweets_processes_nothing Examples.approving
           Examples.clock [] [] Examples.api_key 10 (-1) false
           Examples.seventeen_pending H).
Defined.


Lemma api_errors_approve_everything_witness :
  (forall n m s u, exists e,
      MoreExamples.unreachable n m s u = ApiError e
      /\ encodable (PyStr.slice_to 100 e) = true)
  /\ reachable Examples.seventeen_pending
  /\ Forall (fun r => id r <> None) Examples.seventeen_pending
  /\ (0 < 4)%Z
  /\ (0 < limit_of (Some 10%Z)
             (pending (get_stats Examples.seventeen_pending)))%Z
  /\ let limit := limit_of (Some 10%Z)
                    (pending (get_stats Examples.seventeen_pending)) in
     let r := run_classifier MoreExamples.unreachable Examples.clock [] []
                (Some (str "sk-test")) 4 (Some 10%Z) false
                Examples.seventeen_pending in
     run_outcome r = Complete limit limit 0 (Some (get_stats (run_table r)))
     /\ get_stats (run_table r)
        = {| total := total (get_stats Examples.seventeen_pending);
             pending := pending (get_stats Examples.seventeen_pending)
                        - limit;
             approved := approved (get_stats Examples.seventeen_pending)
                         + limit;
             filtered := filtered (get_stats Examples.seventeen_pending) |}.
Proof.
  assert (H4 : (0 < 4)%Z) by lia.
  assert (H5 : (0 < limit_of (Some 10%Z)
                       (pending (get_stats Examples.seventeen_pending)))%Z)
    by reflexivity.
  split; [exact unreachable_fails|].
  split; [exact seventeen_pending_reachable|].
  split; [exact seventeen_pending_has_ids|].
  split; [exact H4|]. split; [exact H5|].
  exact (RunProps.api_errors_approve_everything MoreExamples.unreachable
           Examples.clock [] [] 115%N (str "k-test") 4 (Some 10%Z)
           Examples.seventeen_pending unreachable_fails
           seventeen_pending_reachable seventeen_pending_has_ids H4 H5).
Defined.

Lemma unquoted_run_raises :
  run_outcome (run_classifier Examples.unquoted Examples.clock [] []
                 Examples.api_key 10 None false Examples.two_pending)
  = Raised JSONDecodeError.
Proof. vm_compute. reflexivity. Qed.

Lemma malformed_reply_loses_the_batch_witness :
  let r := run_classifier Examples.unquoted Examples.clock [] []
             Examples.api_key 10 None false Examples.two_pending in
  run_outcome r = Raised JSONDecodeError
  /\ (JSONDecodeError = JSONDecodeError \/ JSONDecodeError = AttributeError)
  /\ exists tr fc rows n k,
       run_trace r = tr ++ EvFetch fc rows :: call_events n (firstn k rows)
       /\ (0 < k <= List.length rows)%nat
       /\ commits (run_trace r) = commits tr.
Proof.
  cbv zeta. split; [exact unquoted_run_raises|].
  split; [left; reflexivity|].
  exact (RunProps.malformed_reply_loses_the_batch Examples.unquoted
           Examples.clock [] [] Examples.api_key 10 None false
           Examples.two_pending JSONDecodeError unquoted_run_raises
           (or_introl eq_refl)).
Defined.

End Instances.
